(** * call0: the mediasoup signalling server

    A shallow embedding of [apps/server/src/mediasoup-server.ts]: the three
    process-wide registries ([rooms], [peerSocketMap], [peerRoomMap]), the
    helpers [getPeerFromSocket], [getRoom], [createRoom], [createPeer],
    [cleanupPeer], and the two socket handlers ([ws.on("close")] and
    [ws.on("message")] with its [switch (data.type)]).

    Conventions of the embedding.
    - A handler is a function from the server state to a new state and the
      list of the calls it made, in program order ([Effect]).
    - The handlers are embedded twice.  In [step] and [run] the handler of a
      frame runs from the parse to the response before the next event is
      taken: a server whose events do not overlap.  In [stepA] and [runA]
      the handler stops at every [await], and other handlers and callbacks
      run before it goes on.  The two agree on events handled in turn
      ([inTurn]); the properties of the states reached that fail when
      handlers overlap are stated of [runA] on events handled in turn.
    - A WebSocket object is a natural number; its [readyState] is kept in the
      state ([notOpen]).
    - The mediasoup worker is an external library.  Its handles (routers,
      observers, transports, producers, consumers) are natural numbers drawn
      from a counter; whether the calls awaited by a handler resolve, or the
      first of them rejects, is an input of the event ([WorkerResult]).
    - Room and peer ids are strings, as the handlers' signatures type them.
      [rooms] and [room.peers] are plain objects: a read of [rooms[roomId]]
      for a name of a member of [Object.prototype] finds that member
      ([inherited]).  A peer id is stored as an own property of [room.peers];
      the one id for which the assignment does something else is
      ["__proto__"], and the properties about stored peers exclude it
      ([plainPeer]).
    - Ids assigned by the worker are the handles themselves.
    - Callbacks registered on worker objects ([volumes], [transportclose],
      [producerclose]) are events of their own, which may fire at any time.

    The request hook of the web client ([useWsRequest] and
    [setProducerMuted] of [useMediasoupClient]) is embedded after the
    server, over the frames the server sends. *)

From Stdlib Require Import String Ascii List ZArith Bool Lia.
From stdpp Require Import gmap strings list fin_maps.

Local Open Scope string_scope.
Local Open Scope list_scope.

(** ** JavaScript containers *)

(** JavaScript truthiness of a string: only the empty string is falsy. *)
Definition truthy (s : string) : bool :=
  match s with
  | EmptyString => false
  | String _ _ => true
  end.

(** [a || b] on strings where [a] may be [undefined]. *)
Definition orElse (a : option string) (b : string) : string :=
  match a with
  | Some s => if truthy s then s else b
  | None => b
  end.

Section AList.
Context {K A : Type} `{EqDecision K}.

(** Insertion-ordered key/value store: the entries of a [Map], or the own
    properties of a plain object. *)
Fixpoint aget (k : K) (l : list (K * A)) : option A :=
  match l with
  | [] => None
  | (k', v) :: l' => if decide (k' = k) then Some v else aget k l'
  end.

Fixpoint areplace (k : K) (v : A) (l : list (K * A)) : list (K * A) :=
  match l with
  | [] => []
  | (k', v') :: l' =>
      if decide (k' = k) then (k', v) :: l' else (k', v') :: areplace k v l'
  end.

(** [delete o[k]] and [Map.prototype.delete]. *)
Fixpoint adel (k : K) (l : list (K * A)) : list (K * A) :=
  match l with
  | [] => []
  | (k', v) :: l' =>
      if decide (k' = k) then adel k l' else (k', v) :: adel k l'
  end.

(** [Map.prototype.set]: an existing key keeps its position, a new key goes
    last. *)
Definition mapSet (k : K) (v : A) (l : list (K * A)) : list (K * A) :=
  match aget k l with
  | Some _ => areplace k v l
  | None => l ++ [(k, v)]
  end.

(** [Object.values(o)] and [Map.prototype.forEach] enumerate the values in
    the order of the entries. *)
Definition values (l : list (K * A)) : list A := map snd l.
End AList.

(** *** Own-property order of a plain object

    [Object.values] and [Object.keys] list the array-index keys first, in
    ascending numeric order, and then the other string keys in the order in
    which they were created. *)

Definition isDigit (c : ascii) : bool :=
  (48 <=? nat_of_ascii c)%nat && (nat_of_ascii c <=? 57)%nat.

Fixpoint digitsValue (s : string) (acc : N) : option N :=
  match s with
  | EmptyString => Some acc
  | String c s' =>
      if isDigit c
      then digitsValue s' (10 * acc + (N_of_ascii c - 48))%N
      else None
  end.

(** A canonical numeric string denoting an integer in [0, 2^32 - 2]. *)
Definition arrayIndex (s : string) : option N :=
  match s with
  | EmptyString => None
  | String c rest =>
      if Ascii.eqb c "0"%char
      then match rest with EmptyString => Some 0%N | _ => None end
      else match digitsValue s 0 with
           | Some n => if (n <? 4294967295)%N then Some n else None
           | None => None
           end
  end.

(** Does a new key [k] come before the existing key [k']? *)
Definition keyBefore (k k' : string) : bool :=
  match arrayIndex k, arrayIndex k' with
  | Some n, Some n' => (n <? n')%N
  | Some _, None => true
  | None, _ => false
  end.

Fixpoint objPlace {A} (k : string) (v : A) (o : list (string * A)) :
  list (string * A) :=
  match o with
  | [] => [(k, v)]
  | (k', v') :: o' =>
      if keyBefore k k' then (k, v) :: (k', v') :: o'
      else (k', v') :: objPlace k v o'
  end.

(** [o[k] = v] on a plain object. *)
Definition objSet {A} (k : string) (v : A) (o : list (string * A)) :
  list (string * A) :=
  match aget k o with
  | Some _ => areplace k v o
  | None => objPlace k v o
  end.

(** *** Members of [Object.prototype]

    A property read [o[k]] on a plain object that has no own property named
    [k] finds what [Object.prototype] has under that name: a function or,
    for ["__proto__"], the prototype itself.  All of them are truthy. *)
Definition objectPrototypeNames : list string :=
  ["constructor"; "hasOwnProperty"; "isPrototypeOf"; "propertyIsEnumerable";
   "toLocaleString"; "toString"; "valueOf"; "__defineGetter__";
   "__defineSetter__"; "__lookupGetter__"; "__lookupSetter__"; "__proto__"].

Definition inherited (k : string) : bool :=
  bool_decide (k ∈ objectPrototypeNames).

(** A peer id that [room.peers[peerId] = peer] stores as an own property of
    [room.peers]: any id but ["__proto__"], for which the assignment
    replaces the prototype of [room.peers] instead. *)
Definition plainPeer (peerId : string) : bool :=
  negb (bool_decide (peerId = "__proto__")).

(** ** Data model *)

Inductive ConnectionState := CsNew | CsConnecting | CsConnected | CsDisconnected.

(** [MyProducer]: [producer] is the worker's handle, whose id is [prod_id];
    [prod_kind] is [producer.kind]. *)
Record MyProducer := mkProducer {
  prod_id : nat;
  prod_source : string;
  prod_kind : string;
  prod_paused : bool }.

Record MyConsumer := mkConsumer {
  cons_id : nat;
  cons_peerId : string;
  cons_producerId : nat }.

(** [MyPeer].  [peer_oid] is the identity of the JavaScript object: closures
    registered on worker objects hold on to the object, not to its id. *)
Record MyPeer := mkPeer {
  peer_oid : nat;
  peer_id : string;
  peer_displayName : string;
  peer_ws : nat;
  peer_connectionState : ConnectionState;
  peer_sendTransport : option nat;
  peer_recvTransport : option nat;
  peer_producers : list (nat * MyProducer);
  peer_consumers : list (nat * MyConsumer) }.

Record MyRoom := mkRoom {
  room_id : string;
  router : nat;
  audioLevelObserver : nat;
  peers : list (string * MyPeer) }.

(** The mediasoup side.  A handle is closed once [close()] was called on it or
    on the object that owns it: a router owns its transports and observers, a
    transport owns its producers and consumers. *)
Record Worker := mkWorker {
  nextId : nat;
  ownerOf : gmap nat nat;
  closedSet : gset nat }.

Record State := mkState {
  rooms : gmap string MyRoom;
  peerSocketMap : gmap nat string;
  peerRoomMap : gmap string string;
  worker : Worker;
  notOpen : gset nat;
  nextOid : nat }.

Definition initialWorker : Worker :=
  {| nextId := 0; ownerOf := ∅; closedSet := ∅ |}.

Definition initialState : State :=
  {| rooms := ∅; peerSocketMap := ∅; peerRoomMap := ∅;
     worker := initialWorker; notOpen := ∅; nextOid := 0 |}.

Definition allocHandle (owner : option nat) (w : Worker) : nat * Worker :=
  (nextId w,
   {| nextId := S (nextId w);
      ownerOf := match owner with
                 | Some o => <[nextId w := o]> (ownerOf w)
                 | None => ownerOf w
                 end;
      closedSet := closedSet w |}).

Definition closeHandle (h : nat) (w : Worker) : Worker :=
  {| nextId := nextId w; ownerOf := ownerOf w;
     closedSet := {[h]} ∪ closedSet w |}.

Definition closeHandles (hs : list nat) (w : Worker) : Worker :=
  foldr closeHandle w hs.

Fixpoint closedWithin (depth : nat) (w : Worker) (h : nat) : bool :=
  bool_decide (h ∈ closedSet w) ||
  match depth with
  | 0 => false
  | S d => match ownerOf w !! h with
           | Some o => closedWithin d w o
           | None => false
           end
  end.

(** Ownership is at most two levels deep (router, transport, producer). *)
Definition isClosed (w : Worker) (h : nat) : bool := closedWithin 2 w h.

(** ** Wire frames and calls *)

Record PeerInfo := mkPeerInfo {
  pi_id : string;
  pi_displayName : string;
  pi_connectionState : ConnectionState }.

Record ProducerInfo := mkProducerInfo {
  pri_id : nat;
  pri_peerId : string;
  pri_kind : string;
  pri_source : string;
  pri_displayName : string }.

(** What [JSON.stringify] is applied to before [ws.send]. *)
Inductive OutFrame :=
  | ErrorFrame (reqId : option string) (error : string)
  | CreateRoomResponse (reqId : option string)
  | JoinRoomResponse (reqId : option string) (rtpCapabilitiesOf : nat)
      (peerList : list PeerInfo) (producerList : list ProducerInfo)
  | CreateWebRtcTransportResponse (reqId : option string) (transportId : nat)
  | ConnectWebRtcTransportResponse (reqId : option string)
  | ProduceResponse (reqId : option string) (producerId : nat)
  | ConsumeResponse (reqId : option string) (consumerId producerId : nat)
      (kind peerId displayName source : string)
  | PauseProducerResponse (reqId : option string)
  | ResumeProducerResponse (reqId : option string)
  | Pong (reqId : option string)
  | PeerJoined (peerId displayName : string)
  | PeerLeft (peerId displayName : string)
  | NewProducer (producerId : nat) (peerId kind source displayName : string)
  | ProducerClosed (peerId : string) (producerId : nat)
  | AudioLevel (peerId : string) (volume : Z).

Inductive WorkerCall :=
  | CreateRouter
  | CreateAudioLevelObserver (routerId : nat)
  | CreateWebRtcTransport (routerId : nat) (peerId direction : string)
  | TransportConnect (transportId : nat)
  | TransportProduce (transportId : nat) (kind source : string)
  | TransportConsume (transportId producerId : nat)
  | ObserverAddProducer (observerId producerId : nat)
  | ProducerPause (producerId : nat)
  | ProducerResume (producerId : nat)
  | ProducerClose (producerId : nat)
  | ConsumerClose (consumerId : nat)
  | TransportClose (transportId : nat)
  | RouterClose (routerId : nat).

Inductive Effect :=
  | Send (ws : nat) (frame : OutFrame)
  | Call (c : WorkerCall).

(** The fields of a parsed request.  A field that a handler tests for
    presence is an [option]; [d_transportId] and [d_muted] are sent by the
    client and never read by the server. *)
Record Data := mkData {
  d_type : option string;
  d_reqId : option string;
  d_roomId : string;
  d_peerId : string;
  d_displayName : option string;
  d_direction : option string;
  d_transportId : option nat;
  d_producerId : nat;
  d_kind : string;
  d_source : option string;
  d_muted : option bool }.

(** A received frame: text on which [JSON.parse] throws, the text [null],
    or text that parses to any other value, of which the handler reads the
    members of [Data] (a number, a string, a boolean or an array has none of
    them). *)
Inductive Frame :=
  | NotJson
  | JsonNull
  | Json (data : Data).

(** Outcome of the worker calls a handler awaits: all resolve, or the first
    one rejects with an [Error] carrying [message]. *)
Inductive WorkerResult :=
  | Resolves
  | Rejects (message : string).

(** What the server reacts to: a frame or the close of a socket, and the
    callbacks of worker objects.  A callback event names the objects its
    closure holds: the room (by its id and router), the peer (by its id and
    object identity) and the producer. *)
Inductive Event :=
  | WsMessage (ws : nat) (frame : Frame) (w : WorkerResult)
  | WsClose (ws : nat)
  | ObserverVolumes (roomId : string) (routerId : nat)
      (loudest : option (string * Z))
  | ProducerTransportClose (roomId : string) (routerId : nat)
      (peerId : string) (peerOid : nat) (producerId : nat)
  | ConsumerEnded (roomId : string) (routerId : nat)
      (peerId : string) (peerOid : nat) (producerId : nat).

(** ** Handlers: state, calls made, and a thrown [Error] *)

Definition Handler (A : Type) : Type :=
  State → (string + A) * State * list Effect.

Definition hret {A} (a : A) : Handler A := fun s => (inr a, s, []).

Definition hbind {A B} (m : Handler A) (k : A → Handler B) : Handler B :=
  fun s =>
    match m s with
    | (inl e, s1, out1) => (inl e, s1, out1)
    | (inr a, s1, out1) =>
        match k a s1 with
        | (r, s2, out2) => (r, s2, out1 ++ out2)
        end
    end.

Notation "x <- m ;; k" := (hbind m (fun x => k))
  (at level 100, m at next level, right associativity).
Notation "m ;;; k" := (hbind m (fun _ => k))
  (at level 100, right associativity).

Definition throw {A} (message : string) : Handler A :=
  fun s => (inl message, s, []).
Definition get : Handler State := fun s => (inr s, s, []).
Definition modify (f : State → State) : Handler unit :=
  fun s => (inr tt, f s, []).
Definition emit (out : list Effect) : Handler unit :=
  fun s => (inr tt, s, out).
Definition send (ws : nat) (frame : OutFrame) : Handler unit :=
  emit [Send ws frame].
Definition call (c : WorkerCall) : Handler unit := emit [Call c].

(** [await] of a promise returned by the worker. *)
Definition await (w : WorkerResult) : Handler unit :=
  match w with
  | Resolves => hret tt
  | Rejects message => throw message
  end.

Definition setRooms (r : gmap string MyRoom) (s : State) : State :=
  {| rooms := r; peerSocketMap := peerSocketMap s;
     peerRoomMap := peerRoomMap s; worker := worker s;
     notOpen := notOpen s; nextOid := nextOid s |}.

Definition setWorker (w : Worker) (s : State) : State :=
  {| rooms := rooms s; peerSocketMap := peerSocketMap s;
     peerRoomMap := peerRoomMap s; worker := w;
     notOpen := notOpen s; nextOid := nextOid s |}.

Definition setPeers (ps : list (string * MyPeer)) (room : MyRoom) : MyRoom :=
  {| room_id := room_id room; router := router room;
     audioLevelObserver := audioLevelObserver room; peers := ps |}.

(** A new worker object owned by [owner]. *)
Definition newHandle (owner : option nat) : Handler nat :=
  fun s =>
    let '(h, w) := allocHandle owner (worker s) in
    (inr h, setWorker w s, []).

(** Assignment to a field of the peer object stored as
    [rooms[roomId].peers[peerId]]. *)
Definition updatePeerAt (roomId peerId : string) (f : MyPeer → MyPeer)
    (s : State) : State :=
  match rooms s !! roomId with
  | Some room =>
      match aget peerId (peers room) with
      | Some peer =>
          setRooms (<[roomId := setPeers (areplace peerId (f peer) (peers room))
                                         room]> (rooms s)) s
      | None => s
      end
  | None => s
  end.

(** The registry entries [getPeerFromSocket] goes through. *)
Definition peerHome (ws : nat) (s : State) : option (string * string) :=
  match peerSocketMap s !! ws with
  | None => None
  | Some peerId =>
      if negb (truthy peerId) then None
      else match peerRoomMap s !! peerId with
           | None => None
           | Some roomId =>
               if negb (truthy roomId) then None else Some (roomId, peerId)
           end
  end.

Definition getPeerFromSocket (ws : nat) (s : State) : option MyPeer :=
  match peerHome ws s with
  | None => None
  | Some (roomId, peerId) =>
      match rooms s !! roomId with
      | None => None
      | Some room => aget peerId (peers room)
      end
  end.

(** Assignment to a field of the object [getPeerFromSocket(ws)] returned. *)
Definition updatePeerOf (ws : nat) (f : MyPeer → MyPeer) (s : State) : State :=
  match peerHome ws s with
  | Some (roomId, peerId) => updatePeerAt roomId peerId f s
  | None => s
  end.

Definition getRoom (roomId : string) (s : State) : option MyRoom :=
  rooms s !! roomId.

(** [getRoom(peerRoomMap.get(peer.id)!)]: an [undefined] key reads the
    property named ["undefined"]. *)
Definition roomOfPeer (peer : MyPeer) (s : State) : option MyRoom :=
  match peerRoomMap s !! peer_id peer with
  | Some roomId => getRoom roomId s
  | None => getRoom "undefined" s
  end.

Definition isOpen (s : State) (ws : nat) : bool :=
  negb (bool_decide (ws ∈ notOpen s)).

(** [Object.values(room.peers).forEach(p => { if (cond(p) &&
    p.ws.readyState === WebSocket.OPEN) p.ws.send(frame) })]. *)
Definition notify (s : State) (cond : MyPeer → bool)
    (ps : list (string * MyPeer)) (frame : OutFrame) : list Effect :=
  flat_map (fun p => if cond p && isOpen s (peer_ws p)
                     then [Send (peer_ws p) frame] else [])
           (values ps).

Definition isNot (peerId : string) (p : MyPeer) : bool :=
  negb (bool_decide (peer_id p = peerId)).

(** [createRoom(roomId)].  What it returns is a room or, when
    [rooms[roomId]] found a member of [Object.prototype], that member
    ([None]).  Of its two [await]s either the first rejects or none does
    ([WorkerResult]); [createRoomA] below has both, each settled on its
    own. *)
Definition createRoom (roomId : string) (w : WorkerResult) :
  Handler (option MyRoom) :=
  s <- get ;;
  match rooms s !! roomId with
  | Some room => hret (Some room)
  | None =>
      if inherited roomId then hret None else
      call CreateRouter ;;;
      await w ;;;
      routerId <- newHandle None ;;
      call (CreateAudioLevelObserver routerId) ;;;
      observerId <- newHandle (Some routerId) ;;
      let room := {| room_id := roomId; router := routerId;
                     audioLevelObserver := observerId; peers := [] |} in
      modify (fun s => setRooms (<[roomId := room]> (rooms s)) s) ;;;
      hret (Some room)
  end.

(** The message of the [TypeError] that [room.peers[peerId] = peer] throws
    when [room.peers] is [undefined], in V8's wording. *)
Definition cannotSet (peerId : string) : string :=
  "Cannot set properties of undefined (setting '" +:+ peerId +:+ "')".

Definition newPeer (o : nat) (peerId displayName : string) (ws : nat) : MyPeer :=
  {| peer_oid := o; peer_id := peerId; peer_displayName := displayName;
     peer_ws := ws; peer_connectionState := CsNew;
     peer_sendTransport := None; peer_recvTransport := None;
     peer_producers := []; peer_consumers := [] |}.

Definition createPeer (roomId peerId displayName : string) (ws : nat)
    (w : WorkerResult) : Handler MyPeer :=
  found <- createRoom roomId w ;;
  match found with
  | None => throw (cannotSet peerId)
  | Some room =>
      s <- get ;;
      let peer := newPeer (nextOid s) peerId displayName ws in
      modify (fun s =>
        {| rooms := <[roomId := setPeers (objSet peerId peer (peers room))
                                         room]> (rooms s);
           peerSocketMap := <[ws := peerId]> (peerSocketMap s);
           peerRoomMap := <[peerId := roomId]> (peerRoomMap s);
           worker := worker s; notOpen := notOpen s;
           nextOid := S (nextOid s) |}) ;;;
      hret peer
  end.

Definition optList {A} (o : option A) : list A :=
  match o with Some a => [a] | None => [] end.

Definition cleanupPeer (peerId : string) (s : State) : State * list Effect :=
  match peerRoomMap s !! peerId with
  | None => (s, [])
  | Some roomId =>
  if negb (truthy roomId) then (s, []) else
  match rooms s !! roomId with
  | None => (s, [])
  | Some room =>
  match aget peerId (peers room) with
  | None => (s, [])
  | Some peer =>
      let closeProducers :=
        flat_map (fun myProducer =>
                    Call (ProducerClose (prod_id myProducer))
                    :: notify s (isNot peerId) (peers room)
                         (ProducerClosed peerId (prod_id myProducer)))
                 (values (peer_producers peer)) in
      let closeConsumers :=
        map (fun myConsumer => Call (ConsumerClose (cons_id myConsumer)))
            (values (peer_consumers peer)) in
      let closeTransports :=
        map (fun t => Call (TransportClose t))
            (optList (peer_sendTransport peer)
             ++ optList (peer_recvTransport peer)) in
      let closed :=
        map prod_id (values (peer_producers peer))
        ++ map cons_id (values (peer_consumers peer))
        ++ optList (peer_sendTransport peer)
        ++ optList (peer_recvTransport peer) in
      let remaining := adel peerId (peers room) in
      let peerLeft :=
        notify s (fun _ => true) remaining
               (PeerLeft peerId (peer_displayName peer)) in
      let socketMap := delete (peer_ws peer) (peerSocketMap s) in
      let roomMap := delete peerId (peerRoomMap s) in
      if Nat.eqb (length remaining) 0
      then
        ({| rooms := delete roomId (rooms s);
            peerSocketMap := socketMap; peerRoomMap := roomMap;
            worker := closeHandle (router room)
                        (closeHandles closed (worker s));
            notOpen := notOpen s; nextOid := nextOid s |},
         closeProducers ++ closeConsumers ++ closeTransports ++ peerLeft
         ++ [Call (RouterClose (router room))])
      else
        ({| rooms := <[roomId := setPeers remaining room]> (rooms s);
            peerSocketMap := socketMap; peerRoomMap := roomMap;
            worker := closeHandles closed (worker s);
            notOpen := notOpen s; nextOid := nextOid s |},
         closeProducers ++ closeConsumers ++ closeTransports ++ peerLeft)
  end end end.

(** ** The message handler *)

Definition isType (data : Data) (t : string) : bool :=
  bool_decide (d_type data = Some t).

Definition errorFrame (data : Data) (error : string) : OutFrame :=
  ErrorFrame (d_reqId data) error.

Definition peerInfo (p : MyPeer) : PeerInfo :=
  {| pi_id := peer_id p; pi_displayName := peer_displayName p;
     pi_connectionState := peer_connectionState p |}.

(** The [existingProducers] array of [joinRoom]. *)
Definition existingProducers (peerId : string) (ps : list (string * MyPeer)) :
  list ProducerInfo :=
  flat_map (fun otherPeer =>
              if isNot peerId otherPeer
              then map (fun myProducer =>
                          {| pri_id := prod_id myProducer;
                             pri_peerId := peer_id otherPeer;
                             pri_kind := prod_kind myProducer;
                             pri_source := prod_source myProducer;
                             pri_displayName := peer_displayName otherPeer |})
                       (values (peer_producers otherPeer))
              else [])
           (values ps).

Definition setConnectionState (c : ConnectionState) (p : MyPeer) : MyPeer :=
  {| peer_oid := peer_oid p; peer_id := peer_id p;
     peer_displayName := peer_displayName p; peer_ws := peer_ws p;
     peer_connectionState := c;
     peer_sendTransport := peer_sendTransport p;
     peer_recvTransport := peer_recvTransport p;
     peer_producers := peer_producers p; peer_consumers := peer_consumers p |}.

Definition setSendTransport (t : nat) (p : MyPeer) : MyPeer :=
  {| peer_oid := peer_oid p; peer_id := peer_id p;
     peer_displayName := peer_displayName p; peer_ws := peer_ws p;
     peer_connectionState := peer_connectionState p;
     peer_sendTransport := Some t;
     peer_recvTransport := peer_recvTransport p;
     peer_producers := peer_producers p; peer_consumers := peer_consumers p |}.

Definition setRecvTransport (t : nat) (p : MyPeer) : MyPeer :=
  {| peer_oid := peer_oid p; peer_id := peer_id p;
     peer_displayName := peer_displayName p; peer_ws := peer_ws p;
     peer_connectionState := peer_connectionState p;
     peer_sendTransport := peer_sendTransport p;
     peer_recvTransport := Some t;
     peer_producers := peer_producers p; peer_consumers := peer_consumers p |}.

Definition setProducers (m : list (nat * MyProducer)) (p : MyPeer) : MyPeer :=
  {| peer_oid := peer_oid p; peer_id := peer_id p;
     peer_displayName := peer_displayName p; peer_ws := peer_ws p;
     peer_connectionState := peer_connectionState p;
     peer_sendTransport := peer_sendTransport p;
     peer_recvTransport := peer_recvTransport p;
     peer_producers := m; peer_consumers := peer_consumers p |}.

Definition setConsumers (m : list (nat * MyConsumer)) (p : MyPeer) : MyPeer :=
  {| peer_oid := peer_oid p; peer_id := peer_id p;
     peer_displayName := peer_displayName p; peer_ws := peer_ws p;
     peer_connectionState := peer_connectionState p;
     peer_sendTransport := peer_sendTransport p;
     peer_recvTransport := peer_recvTransport p;
     peer_producers := peer_producers p; peer_consumers := m |}.

Definition setPaused (b : bool) (myProducer : MyProducer) : MyProducer :=
  {| prod_id := prod_id myProducer; prod_source := prod_source myProducer;
     prod_kind := prod_kind myProducer; prod_paused := b |}.

Definition handleCreateRoom (ws : nat) (data : Data) (w : WorkerResult) :
  Handler unit :=
  createRoom (d_roomId data) w ;;;
  send ws (CreateRoomResponse (d_reqId data)).

Definition handleJoinRoom (ws : nat) (data : Data) (w : WorkerResult) :
  Handler unit :=
  let roomId := d_roomId data in
  let peerId := d_peerId data in
  let displayName := default "Anonymous" (d_displayName data) in
  found <- createRoom roomId w ;;
  createPeer roomId peerId displayName ws w ;;;
  match found with
  | None => hret tt (* not reached: [createPeer] has thrown *)
  | Some room0 =>
  modify (updatePeerAt roomId peerId (setConnectionState CsConnecting)) ;;;
  s <- get ;;
  (* [room] is the object in [rooms[roomId]], which [createPeer] updated *)
  let room := default room0 (rooms s !! roomId) in
  let existing := existingProducers peerId (peers room) in
  emit (notify s (isNot peerId) (peers room) (PeerJoined peerId displayName)) ;;;
  send ws (JoinRoomResponse (d_reqId data) (router room)
             (map peerInfo (filter (fun p => isNot peerId p = true)
                                   (values (peers room))))
             existing) ;;;
  modify (updatePeerAt roomId peerId (setConnectionState CsConnected))
  end.

(** [data.direction === "recv"] *)
Definition isRecv (data : Data) : bool :=
  bool_decide (d_direction data = Some "recv").

Definition handleCreateWebRtcTransport (ws : nat) (data : Data)
    (w : WorkerResult) : Handler unit :=
  s <- get ;;
  match getPeerFromSocket ws s with
  | None => send ws (errorFrame data "Peer not found")
  | Some peer =>
      match roomOfPeer peer s with
      | None => send ws (errorFrame data "Room not found")
      | Some room =>
          call (CreateWebRtcTransport (router room) (peer_id peer)
                  (orElse (d_direction data) "send")) ;;;
          await w ;;;
          transport <- newHandle (Some (router room)) ;;
          modify (updatePeerOf ws
                    (if isRecv data then setRecvTransport transport
                     else setSendTransport transport)) ;;;
          send ws (CreateWebRtcTransportResponse (d_reqId data) transport)
      end
  end.

Definition handleConnectWebRtcTransport (ws : nat) (data : Data)
    (w : WorkerResult) : Handler unit :=
  s <- get ;;
  match getPeerFromSocket ws s with
  | None => send ws (errorFrame data "Peer not found")
  | Some peer =>
      let transport := if isRecv data then peer_recvTransport peer
                       else peer_sendTransport peer in
      match transport with
      | None => send ws (errorFrame data "Transport not found")
      | Some transport =>
          call (TransportConnect transport) ;;;
          await w ;;;
          send ws (ConnectWebRtcTransportResponse (d_reqId data))
      end
  end.

Definition handleProduce (ws : nat) (data : Data) (w : WorkerResult) :
  Handler unit :=
  s <- get ;;
  match getPeerFromSocket ws s with
  | None => send ws (errorFrame data "Peer or transport not found")
  | Some peer =>
  match peer_sendTransport peer with
  | None => send ws (errorFrame data "Peer or transport not found")
  | Some sendTransport =>
  match roomOfPeer peer s with
  | None => send ws (errorFrame data "Room not found")
  | Some room =>
      let detectedSource :=
        orElse (d_source data)
               (if bool_decide (d_kind data = "audio") then "mic"
                else "webcam") in
      call (TransportProduce sendTransport (d_kind data) detectedSource) ;;;
      await w ;;;
      producer <- newHandle (Some sendTransport) ;;
      let myProducer := {| prod_id := producer; prod_source := detectedSource;
                           prod_kind := d_kind data; prod_paused := false |} in
      modify (updatePeerOf ws (fun p =>
                setProducers (mapSet producer myProducer (peer_producers p)) p)) ;;;
      (if bool_decide (d_kind data = "audio")
       then call (ObserverAddProducer (audioLevelObserver room) producer)
       else hret tt) ;;;
      send ws (ProduceResponse (d_reqId data) producer) ;;;
      emit (notify s (isNot (peer_id peer)) (peers room)
              (NewProducer producer (peer_id peer) (d_kind data)
                 detectedSource (peer_displayName peer)))
  end end end.

(** The search loop of [consume]: the last peer of the room, in enumeration
    order, whose [producers] map has the key. *)
Definition findProducer (producerId : nat) (ps : list (string * MyPeer)) :
  option (MyPeer * MyProducer) :=
  fold_left (fun found p =>
               match aget producerId (peer_producers p) with
               | Some producer => Some (p, producer)
               | None => found
               end)
            (values ps) None.

Definition handleConsume (ws : nat) (data : Data) (w : WorkerResult) :
  Handler unit :=
  s <- get ;;
  match getPeerFromSocket ws s with
  | None => send ws (errorFrame data "Peer or transport not found")
  | Some peer =>
  match peer_recvTransport peer with
  | None => send ws (errorFrame data "Peer or transport not found")
  | Some recvTransport =>
  match roomOfPeer peer s with
  | None => send ws (errorFrame data "Room not found")
  | Some room =>
  match findProducer (d_producerId data) (peers room) with
  | None => send ws (errorFrame data "Producer not found")
  | Some (targetPeer, myProducer) =>
      call (TransportConsume recvTransport (prod_id myProducer)) ;;;
      match w with
      | Rejects message =>
          send ws (errorFrame data ("Failed to create consumer: " +:+ message))
      | Resolves =>
          consumer <- newHandle (Some recvTransport) ;;
          let myConsumer := {| cons_id := consumer;
                               cons_peerId := peer_id targetPeer;
                               cons_producerId := prod_id myProducer |} in
          modify (updatePeerOf ws (fun p =>
                    setConsumers (mapSet (prod_id myProducer) myConsumer
                                         (peer_consumers p)) p)) ;;;
          send ws (ConsumeResponse (d_reqId data) consumer (prod_id myProducer)
                     (prod_kind myProducer) (peer_id targetPeer)
                     (peer_displayName targetPeer) (prod_source myProducer))
      end
  end end end end.

(** [pauseProducer] ([paused = true]) and [resumeProducer] ([paused = false]). *)
Definition handlePauseResume (paused : bool) (ws : nat) (data : Data)
    (w : WorkerResult) : Handler unit :=
  s <- get ;;
  match getPeerFromSocket ws s with
  | None => send ws (errorFrame data "Peer not found")
  | Some peer =>
      match aget (d_producerId data) (peer_producers peer) with
      | None => send ws (errorFrame data "Producer not found")
      | Some myProducer =>
          call (if paused then ProducerPause (prod_id myProducer)
                else ProducerResume (prod_id myProducer)) ;;;
          await w ;;;
          modify (updatePeerOf ws (fun p =>
                    setProducers (areplace (d_producerId data)
                                    (setPaused paused myProducer)
                                    (peer_producers p)) p)) ;;;
          send ws (if paused then PauseProducerResponse (d_reqId data)
                   else ResumeProducerResponse (d_reqId data))
      end
  end.

(** [switch (data.type)] *)
Definition dispatch (ws : nat) (data : Data) (w : WorkerResult) : Handler unit :=
  if isType data "createRoom" then handleCreateRoom ws data w
  else if isType data "joinRoom" then handleJoinRoom ws data w
  else if isType data "createWebRtcTransport"
       then handleCreateWebRtcTransport ws data w
  else if isType data "connectWebRtcTransport"
       then handleConnectWebRtcTransport ws data w
  else if isType data "produce" then handleProduce ws data w
  else if isType data "consume" then handleConsume ws data w
  else if isType data "pauseProducer" then handlePauseResume true ws data w
  else if isType data "resumeProducer" then handlePauseResume false ws data w
  else send ws (Pong (d_reqId data)).

(** [ws.on("message")]: the parse, the [switch] and the outer [catch].  On
    [null] the read of [data.type] throws in the [try] and again in the
    first line of the [catch]: the handler ends with nothing sent. *)
Definition onMessage (ws : nat) (frame : Frame) (w : WorkerResult)
    (s : State) : State * list Effect :=
  match frame with
  | NotJson => (s, [Send ws (ErrorFrame None "Invalid JSON")])
  | JsonNull => (s, [])
  | Json data =>
      match dispatch ws data w s with
      | (inr _, s', out) => (s', out)
      | (inl message, s', out) =>
          (s', out ++ [Send ws (errorFrame data
                                  (if truthy message then message
                                   else "Internal server error"))])
      end
  end.

(** [ws.on("close")]; by then the socket is no longer open. *)
Definition onClose (ws : nat) (s : State) : State * list Effect :=
  let s := {| rooms := rooms s; peerSocketMap := peerSocketMap s;
              peerRoomMap := peerRoomMap s; worker := worker s;
              notOpen := {[ws]} ∪ notOpen s; nextOid := nextOid s |} in
  match peerSocketMap s !! ws with
  | Some peerId => if truthy peerId then cleanupPeer peerId s else (s, [])
  | None => (s, [])
  end.

(** ** Callbacks registered on worker objects

    Each closure holds the [room] and [peer] objects it was created with.  An
    object that is no longer stored in the registries cannot be observed: a
    room object is dropped from [rooms] only once its [peers] is empty, so a
    callback on a dropped room or a replaced peer object changes nothing that
    the handlers can reach. *)

Definition liveRoom (roomId : string) (routerId : nat) (s : State) :
  option MyRoom :=
  match rooms s !! roomId with
  | Some room => if Nat.eqb (router room) routerId then Some room else None
  | None => None
  end.

Definition updateObject (roomId peerId : string) (peerOid : nat)
    (f : MyPeer → MyPeer) (s : State) : State :=
  updatePeerAt roomId peerId
    (fun p => if Nat.eqb (peer_oid p) peerOid then f p else p) s.

(** [audioLevelObserver.on("volumes", ...)] *)
Definition onVolumes (roomId : string) (routerId : nat)
    (loudest : option (string * Z)) (s : State) : State * list Effect :=
  match liveRoom roomId routerId s, loudest with
  | Some room, Some (peerId, volume) =>
      (s, notify s (fun _ => true) (peers room) (AudioLevel peerId volume))
  | _, _ => (s, [])
  end.

(** [producer.on("transportclose", ...)] *)
Definition onProducerTransportClose (roomId : string) (routerId : nat)
    (peerId : string) (peerOid : nat) (producerId : nat) (s : State) :
  State * list Effect :=
  match liveRoom roomId routerId s with
  | Some room =>
      (updateObject roomId peerId peerOid
         (fun p => setProducers (adel producerId (peer_producers p)) p) s,
       notify s (isNot peerId) (peers room) (ProducerClosed peerId producerId))
  | None => (s, [])
  end.

(** [consumer.on("transportclose", ...)] and
    [consumer.on("producerclose", ...)] *)
Definition onConsumerEnded (roomId : string) (routerId : nat)
    (peerId : string) (peerOid : nat) (producerId : nat) (s : State) :
  State * list Effect :=
  match liveRoom roomId routerId s with
  | Some room =>
      (updateObject roomId peerId peerOid
         (fun p => setConsumers (adel producerId (peer_consumers p)) p) s, [])
  | None => (s, [])
  end.

(** ** The server as a transition system

    One event at a time: the handler of a frame has returned before the next
    event is handled.  What handlers that overlap do is the subject of the
    next part. *)

Definition step (e : Event) (s : State) : State * list Effect :=
  match e with
  | WsMessage ws frame w => onMessage ws frame w s
  | WsClose ws => onClose ws s
  | ObserverVolumes roomId routerId loudest =>
      onVolumes roomId routerId loudest s
  | ProducerTransportClose roomId routerId peerId peerOid producerId =>
      onProducerTransportClose roomId routerId peerId peerOid producerId s
  | ConsumerEnded roomId routerId peerId peerOid producerId =>
      onConsumerEnded roomId routerId peerId peerOid producerId s
  end.

Fixpoint run (es : list Event) (s : State) : State * list Effect :=
  match es with
  | [] => (s, [])
  | e :: es' =>
      let '(s1, out1) := step e s in
      let '(s2, out2) := run es' s1 in
      (s2, out1 ++ out2)
  end.

Definition stateAfter (es : list Event) : State := (run es initialState).1.

Definition reachable (s : State) : Prop := ∃ es, stateAfter es = s.

(** ** Handlers that wait for the worker

    [step] runs the handler of a frame from the parse to the response in one
    piece, and [run] takes the next event when the handler is done: the
    server handling its events one at a time.  The handler of
    [ws.on("message")] is an [async] function.  At an [await] it stops; other
    handlers and callbacks run; it goes on, from the state of that moment,
    when the awaited promise is settled.  This part embeds the handlers with
    their [await]s.

    Across an [await] a handler holds on to objects, not to ids.  A room
    object is known by its router, a peer object by [peer_oid], and a
    producer record by its producer.  A room object that is no longer in
    [rooms] (overwritten by [rooms[roomId] = room] of another [createRoom],
    or deleted by [cleanupPeer]) is still held by the handlers and callbacks
    that were created with it: [detached] keeps these objects.  A peer object
    that is no longer in its room is only written to, and read for fields
    that never change, so it is not kept. *)

Record Server := mkServer {
  current : State;
  detached : list MyRoom }.

(** Where a handler stands: it has returned [a] or thrown an [Error] with
    [message], or it waits at an [await]; [resume] is the rest of the
    handler, given how the promise settled ([Resolves] for a promise of an
    [async] function of the server that returned) and the state then. *)
Inductive Async (A : Type) : Type :=
  | Finished (r : string + A) (sv : Server) (out : list Effect)
  | Awaits (sv : Server) (out : list Effect)
      (resume : WorkerResult → Server → Async A).

Arguments Finished {A} r sv out.
Arguments Awaits {A} sv out resume.

Definition Task (A : Type) : Type := Server → Async A.

Definition sofar {A} (out : list Effect) (r : Async A) : Async A :=
  match r with
  | Finished x sv o => Finished x sv (out ++ o)
  | Awaits sv o resume => Awaits sv (out ++ o) resume
  end.

Fixpoint andThen {A B} (r : Async A) (k : A → Task B) : Async B :=
  match r with
  | Finished (inl e) sv out => Finished (inl e) sv out
  | Finished (inr a) sv out => sofar out (k a sv)
  | Awaits sv out resume =>
      Awaits sv out (fun w sv' => andThen (resume w sv') k)
  end.

Definition aret {A} (a : A) : Task A := fun sv => Finished (inr a) sv [].
Definition athrow {A} (message : string) : Task A :=
  fun sv => Finished (inl message) sv [].
Definition abind {A B} (m : Task A) (k : A → Task B) : Task B :=
  fun sv => andThen (m sv) k.

Notation "x <~ m ;; k" := (abind m (fun x => k))
  (at level 100, m at next level, right associativity).
Notation "m ~;; k" := (abind m (fun _ => k))
  (at level 100, right associativity).

(** Code without an [await], as in [Handler]. *)
Definition sync {A} (h : Handler A) : Task A :=
  fun sv =>
    let '(r, s, out) := h (current sv) in
    Finished r {| current := s; detached := detached sv |} out.

Definition change (f : Server → Server) : Task unit :=
  fun sv => Finished (inr tt) (f sv) [].

(** [await] of a promise of the worker. *)
Definition awaitWorker : Task unit :=
  fun sv =>
    Awaits sv []
      (fun w sv' =>
         match w with
         | Resolves => Finished (inr tt) sv' []
         | Rejects message => Finished (inl message) sv' []
         end).

(** [await f(...)] for an [async] function [f] of the server: [f] runs up to
    its first [await] at once; when it has returned or thrown, the caller
    waits for the promise of [f] before it goes on. *)
Fixpoint settled {A} (r : Async A) : Async A :=
  match r with
  | Finished x sv out => Awaits sv out (fun _ sv' => Finished x sv' [])
  | Awaits sv out resume =>
      Awaits sv out (fun w sv' => settled (resume w sv'))
  end.

Definition awaitCall {A} (m : Task A) : Task A := fun sv => settled (m sv).

(** The outer [catch] of the message handler. *)
Fixpoint catching (ws : nat) (data : Data) (r : Async unit) : Async unit :=
  match r with
  | Finished (inl message) sv out =>
      Finished (inr tt) sv
        (out ++ [Send ws (errorFrame data
                            (if truthy message then message
                             else "Internal server error"))])
  | Finished (inr a) sv out => Finished (inr a) sv out
  | Awaits sv out resume =>
      Awaits sv out (fun w sv' => catching ws data (resume w sv'))
  end.

(** *** Objects *)

(** The room object registered under [roomId] with router [x], or the
    detached one with that router. *)
Definition roomObject (roomId : string) (x : nat) (sv : Server) :
  option MyRoom :=
  match liveRoom roomId x (current sv) with
  | Some room => Some room
  | None => List.find (fun room => Nat.eqb (router room) x) (detached sv)
  end.

Definition updateRoomObject (roomId : string) (x : nat)
    (f : MyRoom → MyRoom) (sv : Server) : Server :=
  match liveRoom roomId x (current sv) with
  | Some room =>
      {| current := setRooms (<[roomId := f room]> (rooms (current sv)))
                      (current sv);
         detached := detached sv |}
  | None =>
      {| current := current sv;
         detached := map (fun room => if Nat.eqb (router room) x then f room
                                      else room)
                         (detached sv) |}
  end.

(** What a handler holds of a peer object: the room object that stores it,
    the key under which it does, and the object's identity. *)
Record PeerRef := mkPeerRef {
  ref_roomId : string;
  ref_router : nat;
  ref_key : string;
  ref_oid : nat }.

(** [getPeerFromSocket(ws)], with the place of the object it returns. *)
Definition getPeerRef (ws : nat) (s : State) : option (PeerRef * MyPeer) :=
  match peerHome ws s with
  | None => None
  | Some (roomId, peerId) =>
      match rooms s !! roomId with
      | None => None
      | Some room =>
          match aget peerId (peers room) with
          | None => None
          | Some peer =>
              Some ({| ref_roomId := roomId; ref_router := router room;
                       ref_key := peerId; ref_oid := peer_oid peer |}, peer)
          end
      end
  end.

(** Assignment to a field of a peer object that a handler holds. *)
Definition updatePeerObject (ref : PeerRef) (f : MyPeer → MyPeer) :
  Server → Server :=
  updateRoomObject (ref_roomId ref) (ref_router ref)
    (fun room =>
       match aget (ref_key ref) (peers room) with
       | Some p =>
           if Nat.eqb (peer_oid p) (ref_oid ref)
           then setPeers (areplace (ref_key ref) (f p) (peers room)) room
           else room
       | None => room
       end).

(** The key under which [getRoom(peerRoomMap.get(peer.id)!)] looks. *)
Definition roomKeyOfPeer (peer : MyPeer) (s : State) : string :=
  default "undefined" (peerRoomMap s !! peer_id peer).

(** [Object.values(room.peers)] of a room object that a handler holds, as it
    is now. *)
Definition peersNow (roomId : string) (room : MyRoom) (sv : Server) :
  list (string * MyPeer) :=
  peers (default room (roomObject roomId (router room) sv)).

(** [rooms[roomId] = room]: a room object that this overwrites is no longer
    registered. *)
Definition register (roomId : string) (room : MyRoom) : Task unit :=
  change (fun sv =>
    {| current := setRooms (<[roomId := room]> (rooms (current sv)))
                    (current sv);
       detached := match rooms (current sv) !! roomId with
                   | Some old => old :: detached sv
                   | None => detached sv
                   end |}).

(** *** The functions and the handlers *)

Definition createRoomA (roomId : string) : Task (option MyRoom) :=
  s <~ sync get ;;
  match rooms s !! roomId with
  | Some room => aret (Some room)
  | None =>
      if inherited roomId then aret None else
      sync (call CreateRouter) ~;;
      awaitWorker ~;;
      routerId <~ sync (newHandle None) ;;
      sync (call (CreateAudioLevelObserver routerId)) ~;;
      awaitWorker ~;;
      observerId <~ sync (newHandle (Some routerId)) ;;
      let room := {| room_id := roomId; router := routerId;
                     audioLevelObserver := observerId; peers := [] |} in
      register roomId room ~;;
      aret (Some room)
  end.

(** [createPeer]; what it returns is the new peer object. *)
Definition createPeerA (roomId peerId displayName : string) (ws : nat) :
  Task PeerRef :=
  found <~ awaitCall (createRoomA roomId) ;;
  match found with
  | None => athrow (cannotSet peerId)
  | Some room =>
      fun sv =>
        let o := nextOid (current sv) in
        let peer := newPeer o peerId displayName ws in
        let sv1 :=
          updateRoomObject roomId (router room)
            (fun r => setPeers (objSet peerId peer (peers r)) r) sv in
        Finished
          (inr {| ref_roomId := roomId; ref_router := router room;
                  ref_key := peerId; ref_oid := o |})
          {| current :=
               {| rooms := rooms (current sv1);
                  peerSocketMap := <[ws := peerId]> (peerSocketMap (current sv1));
                  peerRoomMap := <[peerId := roomId]> (peerRoomMap (current sv1));
                  worker := worker (current sv1);
                  notOpen := notOpen (current sv1);
                  nextOid := S o |};
             detached := detached sv1 |}
          []
  end.

Definition handleCreateRoomA (ws : nat) (data : Data) : Task unit :=
  awaitCall (createRoomA (d_roomId data)) ~;;
  sync (send ws (CreateRoomResponse (d_reqId data))).

Definition handleJoinRoomA (ws : nat) (data : Data) : Task unit :=
  let roomId := d_roomId data in
  let peerId := d_peerId data in
  let displayName := default "Anonymous" (d_displayName data) in
  found <~ awaitCall (createRoomA roomId) ;;
  ref <~ awaitCall (createPeerA roomId peerId displayName ws) ;;
  match found with
  | None => aret tt (* not reached: [createPeer] has thrown *)
  | Some room0 =>
      change (updatePeerObject ref (setConnectionState CsConnecting)) ~;;
      (fun sv =>
         let ps := peersNow roomId room0 sv in
         Finished (inr tt) sv
           (notify (current sv) (isNot peerId) ps
              (PeerJoined peerId displayName)
            ++ [Send ws (JoinRoomResponse (d_reqId data) (router room0)
                           (map peerInfo
                              (filter (fun p => isNot peerId p = true)
                                      (values ps)))
                           (existingProducers peerId ps))])) ~;;
      change (updatePeerObject ref (setConnectionState CsConnected))
  end.

Definition handleCreateWebRtcTransportA (ws : nat) (data : Data) : Task unit :=
  s <~ sync get ;;
  match getPeerRef ws s with
  | None => sync (send ws (errorFrame data "Peer not found"))
  | Some (ref, peer) =>
      match roomOfPeer peer s with
      | None => sync (send ws (errorFrame data "Room not found"))
      | Some room =>
          sync (call (CreateWebRtcTransport (router room) (peer_id peer)
                        (orElse (d_direction data) "send"))) ~;;
          awaitWorker ~;;
          transport <~ sync (newHandle (Some (router room))) ;;
          change (updatePeerObject ref
                    (if isRecv data then setRecvTransport transport
                     else setSendTransport transport)) ~;;
          sync (send ws (CreateWebRtcTransportResponse (d_reqId data)
                           transport))
      end
  end.

Definition handleConnectWebRtcTransportA (ws : nat) (data : Data) :
  Task unit :=
  s <~ sync get ;;
  match getPeerRef ws s with
  | None => sync (send ws (errorFrame data "Peer not found"))
  | Some (ref, peer) =>
      let transport := if isRecv data then peer_recvTransport peer
                       else peer_sendTransport peer in
      match transport with
      | None => sync (send ws (errorFrame data "Transport not found"))
      | Some transport =>
          sync (call (TransportConnect transport)) ~;;
          awaitWorker ~;;
          sync (send ws (ConnectWebRtcTransportResponse (d_reqId data)))
      end
  end.

Definition handleProduceA (ws : nat) (data : Data) : Task unit :=
  s <~ sync get ;;
  match getPeerRef ws s with
  | None => sync (send ws (errorFrame data "Peer or transport not found"))
  | Some (ref, peer) =>
  match peer_sendTransport peer with
  | None => sync (send ws (errorFrame data "Peer or transport not found"))
  | Some sendTransport =>
  match roomOfPeer peer s with
  | None => sync (send ws (errorFrame data "Room not found"))
  | Some room =>
      let detectedSource :=
        orElse (d_source data)
               (if bool_decide (d_kind data = "audio") then "mic"
                else "webcam") in
      sync (call (TransportProduce sendTransport (d_kind data)
                    detectedSource)) ~;;
      awaitWorker ~;;
      producer <~ sync (newHandle (Some sendTransport)) ;;
      let myProducer := {| prod_id := producer; prod_source := detectedSource;
                           prod_kind := d_kind data; prod_paused := false |} in
      change (updatePeerObject ref (fun p =>
                setProducers (mapSet producer myProducer (peer_producers p))
                             p)) ~;;
      sync (if bool_decide (d_kind data = "audio")
            then call (ObserverAddProducer (audioLevelObserver room) producer)
            else hret tt) ~;;
      sync (send ws (ProduceResponse (d_reqId data) producer)) ~;;
      (fun sv =>
         Finished (inr tt) sv
           (notify (current sv) (isNot (peer_id peer))
              (peersNow (roomKeyOfPeer peer s) room sv)
              (NewProducer producer (peer_id peer) (d_kind data)
                 detectedSource (peer_displayName peer))))
  end end end.

Definition handleConsumeA (ws : nat) (data : Data) : Task unit :=
  s <~ sync get ;;
  match getPeerRef ws s with
  | None => sync (send ws (errorFrame data "Peer or transport not found"))
  | Some (ref, peer) =>
  match peer_recvTransport peer with
  | None => sync (send ws (errorFrame data "Peer or transport not found"))
  | Some recvTransport =>
  match roomOfPeer peer s with
  | None => sync (send ws (errorFrame data "Room not found"))
  | Some room =>
  match findProducer (d_producerId data) (peers room) with
  | None => sync (send ws (errorFrame data "Producer not found"))
  | Some (targetPeer, myProducer) =>
      sync (call (TransportConsume recvTransport (prod_id myProducer))) ~;;
      (fun sv =>
         Awaits sv []
           (fun w =>
              match w with
              | Rejects message =>
                  sync (send ws (errorFrame data
                                   ("Failed to create consumer: "
                                    +:+ message)))
              | Resolves =>
                  consumer <~ sync (newHandle (Some recvTransport)) ;;
                  let myConsumer :=
                    {| cons_id := consumer; cons_peerId := peer_id targetPeer;
                       cons_producerId := prod_id myProducer |} in
                  change (updatePeerObject ref (fun p =>
                            setConsumers
                              (mapSet (prod_id myProducer) myConsumer
                                      (peer_consumers p)) p)) ~;;
                  sync (send ws (ConsumeResponse (d_reqId data) consumer
                                   (prod_id myProducer) (prod_kind myProducer)
                                   (peer_id targetPeer)
                                   (peer_displayName targetPeer)
                                   (prod_source myProducer)))
              end))
  end end end end.

Definition handlePauseResumeA (paused : bool) (ws : nat) (data : Data) :
  Task unit :=
  s <~ sync get ;;
  match getPeerRef ws s with
  | None => sync (send ws (errorFrame data "Peer not found"))
  | Some (ref, peer) =>
      match aget (d_producerId data) (peer_producers peer) with
      | None => sync (send ws (errorFrame data "Producer not found"))
      | Some myProducer =>
          sync (call (if paused then ProducerPause (prod_id myProducer)
                      else ProducerResume (prod_id myProducer))) ~;;
          awaitWorker ~;;
          change (updatePeerObject ref (fun p =>
                    setProducers (areplace (d_producerId data)
                                    (setPaused paused myProducer)
                                    (peer_producers p)) p)) ~;;
          sync (send ws (if paused then PauseProducerResponse (d_reqId data)
                         else ResumeProducerResponse (d_reqId data)))
      end
  end.

Definition dispatchA (ws : nat) (data : Data) : Task unit :=
  if isType data "createRoom" then handleCreateRoomA ws data
  else if isType data "joinRoom" then handleJoinRoomA ws data
  else if isType data "createWebRtcTransport"
       then handleCreateWebRtcTransportA ws data
  else if isType data "connectWebRtcTransport"
       then handleConnectWebRtcTransportA ws data
  else if isType data "produce" then handleProduceA ws data
  else if isType data "consume" then handleConsumeA ws data
  else if isType data "pauseProducer" then handlePauseResumeA true ws data
  else if isType data "resumeProducer" then handlePauseResumeA false ws data
  else sync (send ws (Pong (d_reqId data))).

Definition onMessageA (ws : nat) (frame : Frame) : Task unit :=
  match frame with
  | NotJson => sync (send ws (ErrorFrame None "Invalid JSON"))
  | JsonNull => aret tt
  | Json data => fun sv => catching ws data (dispatchA ws data sv)
  end.

(** [ws.on("close")]: a room that [cleanupPeer] deletes from [rooms] is
    detached, with no peer left in it. *)
Definition onCloseA (ws : nat) (sv : Server) : Server * list Effect :=
  let '(s, out) := onClose ws (current sv) in
  ({| current := s;
      detached :=
        omap (fun entry : string * MyRoom =>
                match rooms s !! entry.1 with
                | Some _ => None
                | None => Some (setPeers [] entry.2)
                end)
             (map_to_list (rooms (current sv)))
        ++ detached sv |},
   out).

(** The callbacks, on the objects they hold. *)
Definition onVolumesA (roomId : string) (routerId : nat)
    (loudest : option (string * Z)) (sv : Server) : Server * list Effect :=
  match roomObject roomId routerId sv, loudest with
  | Some room, Some (peerId, volume) =>
      (sv, notify (current sv) (fun _ => true) (peers room)
             (AudioLevel peerId volume))
  | _, _ => (sv, [])
  end.

Definition onProducerTransportCloseA (roomId : string) (routerId : nat)
    (peerId : string) (peerOid : nat) (producerId : nat) (sv : Server) :
  Server * list Effect :=
  match roomObject roomId routerId sv with
  | Some room =>
      (updatePeerObject
         {| ref_roomId := roomId; ref_router := routerId; ref_key := peerId;
            ref_oid := peerOid |}
         (fun p => setProducers (adel producerId (peer_producers p)) p) sv,
       notify (current sv) (isNot peerId) (peers room)
         (ProducerClosed peerId producerId))
  | None => (sv, [])
  end.

Definition onConsumerEndedA (roomId : string) (routerId : nat)
    (peerId : string) (peerOid : nat) (producerId : nat) (sv : Server) :
  Server * list Effect :=
  (updatePeerObject
     {| ref_roomId := roomId; ref_router := routerId; ref_key := peerId;
        ref_oid := peerOid |}
     (fun p => setConsumers (adel producerId (peer_consumers p)) p) sv, []).

(** *** The server with handlers under way *)

(** What happens to the server: a frame arrives and its handler starts; the
    promise that the [i]-th waiting handler awaits is settled and the handler
    goes on; a socket closes; a callback of a worker object is called. *)
Inductive Moment :=
  | Arrives (ws : nat) (frame : Frame)
  | Resumes (i : nat) (w : WorkerResult)
  | Closes (ws : nat)
  | VolumesReported (roomId : string) (routerId : nat)
      (loudest : option (string * Z))
  | ProducerTransportCloses (roomId : string) (routerId : nat)
      (peerId : string) (peerOid : nat) (producerId : nat)
  | ConsumerEnds (roomId : string) (routerId : nat)
      (peerId : string) (peerOid : nat) (producerId : nat).

Record Config := mkConfig {
  server : Server;
  waiting : list (WorkerResult → Server → Async unit) }.

Definition initialConfig : Config :=
  {| server := {| current := initialState; detached := [] |};
     waiting := [] |}.

Definition stepA (m : Moment) (c : Config) : Config * list Effect :=
  match m with
  | Arrives ws frame =>
      match onMessageA ws frame (server c) with
      | Finished _ sv out => ({| server := sv; waiting := waiting c |}, out)
      | Awaits sv out resume =>
          ({| server := sv; waiting := waiting c ++ [resume] |}, out)
      end
  | Resumes i w =>
      match waiting c !! i with
      | None => (c, [])
      | Some resume =>
          match resume w (server c) with
          | Finished _ sv out =>
              ({| server := sv; waiting := delete i (waiting c) |}, out)
          | Awaits sv out resume' =>
              ({| server := sv; waiting := <[i := resume']> (waiting c) |},
               out)
          end
      end
  | Closes ws =>
      let '(sv, out) := onCloseA ws (server c) in
      ({| server := sv; waiting := waiting c |}, out)
  | VolumesReported roomId routerId loudest =>
      let '(sv, out) := onVolumesA roomId routerId loudest (server c) in
      ({| server := sv; waiting := waiting c |}, out)
  | ProducerTransportCloses roomId routerId peerId peerOid producerId =>
      let '(sv, out) :=
        onProducerTransportCloseA roomId routerId peerId peerOid producerId
          (server c) in
      ({| server := sv; waiting := waiting c |}, out)
  | ConsumerEnds roomId routerId peerId peerOid producerId =>
      let '(sv, out) :=
        onConsumerEndedA roomId routerId peerId peerOid producerId
          (server c) in
      ({| server := sv; waiting := waiting c |}, out)
  end.

Fixpoint runA (ms : list Moment) (c : Config) : Config * list Effect :=
  match ms with
  | [] => (c, [])
  | m :: ms' =>
      let '(c1, out1) := stepA m c in
      let '(c2, out2) := runA ms' c1 in
      (c2, out1 ++ out2)
  end.

(** The registries once [ms] have happened to a server that has just
    started. *)
Definition registriesAfter (ms : list Moment) : State :=
  current (server (runA ms initialConfig).1).

(** A handler run without anything happening in between: every promise it
    awaits is settled, as [w] says, before anything else happens. *)
Fixpoint uninterrupted {A} (w : WorkerResult) (r : Async A) :
  (string + A) * Server * list Effect :=
  match r with
  | Finished x sv out => (x, sv, out)
  | Awaits sv out resume =>
      let '(x, sv', out') := uninterrupted w (resume w sv) in
      (x, sv', out ++ out')
  end.

(** The number of [await]s at which it stops. *)
Fixpoint awaits {A} (w : WorkerResult) (r : Async A) : nat :=
  match r with
  | Finished _ _ _ => 0
  | Awaits sv _ resume => S (awaits w (resume w sv))
  end.

(** The events of [run] handled one at a time: a frame arrives and each
    promise its handler awaits is settled, as the event says, before the
    next event.  No handler stops at more than five [await]s. *)
Definition oneAtATime (e : Event) : list Moment :=
  match e with
  | WsMessage ws frame w => Arrives ws frame :: repeat (Resumes 0 w) 5
  | WsClose ws => [Closes ws]
  | ObserverVolumes roomId routerId loudest =>
      [VolumesReported roomId routerId loudest]
  | ProducerTransportClose roomId routerId peerId peerOid producerId =>
      [ProducerTransportCloses roomId routerId peerId peerOid producerId]
  | ConsumerEnded roomId routerId peerId peerOid producerId =>
      [ConsumerEnds roomId routerId peerId peerOid producerId]
  end.

Definition inTurn (es : list Event) : list Moment :=
  flat_map oneAtATime es.

(** A task does what a handler does, when nothing interrupts it, and stops
    at no more than [n] [await]s. *)
Definition does {A} (w : WorkerResult) (t : Task A) (h : Handler A) (n : nat)
    (sv : Server) : Prop :=
  uninterrupted w (t sv)
  = (let '(r, s, out) := h (current sv) in
     (r, {| current := s; detached := detached sv |}, out))
  ∧ (awaits w (t sv) ≤ n)%nat.

(** No handler waits, and the room objects that are no longer registered
    have no peer. *)
Definition atRest (c : Config) : Prop :=
  waiting c = [] ∧ Forall (fun room => peers room = []) (detached (server c)).

(** Request builders. *)
Definition request (type : string) (reqId : string) : Data :=
  {| d_type := Some type; d_reqId := Some reqId;
     d_roomId := EmptyString; d_peerId := EmptyString;
     d_displayName := None; d_direction := None; d_transportId := None;
     d_producerId := 0; d_kind := EmptyString; d_source := None;
     d_muted := None |}.

Definition withRoom (roomId : string) (d : Data) : Data :=
  {| d_type := d_type d; d_reqId := d_reqId d; d_roomId := roomId;
     d_peerId := d_peerId d; d_displayName := d_displayName d;
     d_direction := d_direction d; d_transportId := d_transportId d;
     d_producerId := d_producerId d; d_kind := d_kind d;
     d_source := d_source d; d_muted := d_muted d |}.

Definition withPeer (peerId : string) (displayName : option string)
    (d : Data) : Data :=
  {| d_type := d_type d; d_reqId := d_reqId d; d_roomId := d_roomId d;
     d_peerId := peerId; d_displayName := displayName;
     d_direction := d_direction d; d_transportId := d_transportId d;
     d_producerId := d_producerId d; d_kind := d_kind d;
     d_source := d_source d; d_muted := d_muted d |}.

Definition withDirection (direction : option string) (d : Data) : Data :=
  {| d_type := d_type d; d_reqId := d_reqId d; d_roomId := d_roomId d;
     d_peerId := d_peerId d; d_displayName := d_displayName d;
     d_direction := direction; d_transportId := d_transportId d;
     d_producerId := d_producerId d; d_kind := d_kind d;
     d_source := d_source d; d_muted := d_muted d |}.

Definition withTransportId (transportId : option nat) (d : Data) : Data :=
  {| d_type := d_type d; d_reqId := d_reqId d; d_roomId := d_roomId d;
     d_peerId := d_peerId d; d_displayName := d_displayName d;
     d_direction := d_direction d; d_transportId := transportId;
     d_producerId := d_producerId d; d_kind := d_kind d;
     d_source := d_source d; d_muted := d_muted d |}.

Definition withProducer (producerId : nat) (d : Data) : Data :=
  {| d_type := d_type d; d_reqId := d_reqId d; d_roomId := d_roomId d;
     d_peerId := d_peerId d; d_displayName := d_displayName d;
     d_direction := d_direction d; d_transportId := d_transportId d;
     d_producerId := producerId; d_kind := d_kind d;
     d_source := d_source d; d_muted := d_muted d |}.

Definition withKind (kind : string) (source : option string) (d : Data) : Data :=
  {| d_type := d_type d; d_reqId := d_reqId d; d_roomId := d_roomId d;
     d_peerId := d_peerId d; d_displayName := d_displayName d;
     d_direction := d_direction d; d_transportId := d_transportId d;
     d_producerId := d_producerId d; d_kind := kind;
     d_source := source; d_muted := d_muted d |}.

Definition withMuted (muted : option bool) (d : Data) : Data :=
  {| d_type := d_type d; d_reqId := d_reqId d; d_roomId := d_roomId d;
     d_peerId := d_peerId d; d_displayName := d_displayName d;
     d_direction := d_direction d; d_transportId := d_transportId d;
     d_producerId := d_producerId d; d_kind := d_kind d;
     d_source := d_source d; d_muted := muted |}.

Definition joinRoomFrame (roomId peerId displayName reqId : string) : Frame :=
  Json (withPeer peerId (Some displayName)
          (withRoom roomId (request "joinRoom" reqId))).

Definition joinRoomMsg (ws : nat) (roomId peerId displayName reqId : string) :
  Event :=
  WsMessage ws (joinRoomFrame roomId peerId displayName reqId) Resolves.

(** * Vocabulary of the properties *)

(** ** Requests, frames and orders *)

(** A request of a given [type]. *)
Definition typed (type : string) (d : Data) : Data :=
  {| d_type := Some type; d_reqId := d_reqId d; d_roomId := d_roomId d;
     d_peerId := d_peerId d; d_displayName := d_displayName d;
     d_direction := d_direction d; d_transportId := d_transportId d;
     d_producerId := d_producerId d; d_kind := d_kind d;
     d_source := d_source d; d_muted := d_muted d |}.

(** Server-initiated frames, as opposed to responses (which include error
    frames and [pong]). *)
Definition isNotification (f : OutFrame) : bool :=
  match f with
  | PeerJoined _ _ | PeerLeft _ _ | NewProducer _ _ _ _ _
  | ProducerClosed _ _ | AudioLevel _ _ => true
  | _ => false
  end.

(** An effect that is not the sending of a notification. *)
Definition quiet (e : Effect) : Prop :=
  match e with
  | Send _ f => isNotification f = false
  | Call _ => True
  end.

Definition isWorkerCall (e : Effect) : Prop :=
  match e with
  | Call _ => True
  | Send _ _ => False
  end.

(** In the calls made while handling a request received on [ws], every
    notification is sent after a response was sent on [ws]. *)
Definition broadcastAfterResponse (ws : nat) (out : list Effect) : Prop :=
  ∀ pre ws' f post,
    out = pre ++ Send ws' f :: post → isNotification f = true →
    ∃ g, In (Send ws g) pre ∧ isNotification g = false.

(** The request is refused with an error frame and nothing changes. *)
Definition refused (ws : nat) (data : Data) (w : WorkerResult) (s : State) :
  Prop :=
  ∃ error,
    onMessage ws (Json data) w s
    = (s, [Send ws (ErrorFrame (d_reqId data) error)]).


(** ** Closed forms of the states the handlers leave *)

(** The peer object of a [joinRoom] while the notifications and the response
    are sent, and once the handler is done. *)
Definition connectingPeer (o : nat) (peerId displayName : string) (ws : nat) :
  MyPeer :=
  setConnectionState CsConnecting (newPeer o peerId displayName ws).

Definition connectedPeer (o : nat) (peerId displayName : string) (ws : nat) :
  MyPeer :=
  setConnectionState CsConnected (newPeer o peerId displayName ws).

(** The state a [joinRoom] leaves when [rooms[roomId]] is [room]. *)
Definition joinedState (ws : nat) (roomId peerId displayName : string)
    (room : MyRoom) (s : State) : State :=
  {| rooms :=
       <[roomId := setPeers
                     (objSet peerId
                        (connectedPeer (nextOid s) peerId displayName ws)
                        (peers room))
                     room]> (rooms s);
     peerSocketMap := <[ws := peerId]> (peerSocketMap s);
     peerRoomMap := <[peerId := roomId]> (peerRoomMap s);
     worker := worker s; notOpen := notOpen s; nextOid := S (nextOid s) |}.

(** The frames a [joinRoom] sends when [rooms[roomId]] is [room]. *)
Definition joinedOutput (ws : nat) (data : Data) (room : MyRoom) (s : State) :
  list Effect :=
  let peerId := d_peerId data in
  let displayName := default "Anonymous" (d_displayName data) in
  let ps := objSet peerId (connectingPeer (nextOid s) peerId displayName ws)
                   (peers room) in
  notify s (isNot peerId) ps (PeerJoined peerId displayName)
  ++ [Send ws (JoinRoomResponse (d_reqId data) (router room)
                 (map peerInfo
                    (filter (fun p => isNot peerId p = true) (values ps)))
                 (existingProducers peerId ps))].

(** The room object [createRoom] builds, and the state it leaves, when
    [rooms[roomId]] is absent and the worker calls resolve. *)
Definition emptyRoom (roomId : string) (w : Worker) : MyRoom :=
  {| room_id := roomId; router := nextId w;
     audioLevelObserver := S (nextId w); peers := [] |}.

Definition withNewRoom (roomId : string) (s : State) : State :=
  {| rooms := <[roomId := emptyRoom roomId (worker s)]> (rooms s);
     peerSocketMap := peerSocketMap s; peerRoomMap := peerRoomMap s;
     worker := (allocHandle (Some (nextId (worker s)))
                  (allocHandle None (worker s)).2).2;
     notOpen := notOpen s; nextOid := nextOid s |}.

Definition createRoomCalls (s : State) : list Effect :=
  [Call CreateRouter; Call (CreateAudioLevelObserver (nextId (worker s)))].

(** The state after a cleanup that found the peer. *)
Definition cleanedState (peerId roomId : string) (room : MyRoom)
    (peer : MyPeer) (s : State) : State :=
  let closed :=
    map prod_id (values (peer_producers peer))
    ++ map cons_id (values (peer_consumers peer))
    ++ optList (peer_sendTransport peer)
    ++ optList (peer_recvTransport peer) in
  let remaining := adel peerId (peers room) in
  let lastOne := Nat.eqb (length remaining) 0 in
  {| rooms := if lastOne then delete roomId (rooms s)
              else <[roomId := setPeers remaining room]> (rooms s);
     peerSocketMap := delete (peer_ws peer) (peerSocketMap s);
     peerRoomMap := delete peerId (peerRoomMap s);
     worker := if lastOne
               then closeHandle (router room) (closeHandles closed (worker s))
               else closeHandles closed (worker s);
     notOpen := notOpen s; nextOid := nextOid s |}.

(** ** What a step can change *)

(** The part of a peer entry and of a room that the registries are about. *)
Definition entryShape (e : string * MyPeer) : string * string * nat :=
  (e.1, peer_id e.2, peer_ws e.2).

Definition roomShape (room : MyRoom) :
  string * nat * nat * list (string * string * nat) :=
  (room_id room, router room, audioLevelObserver room,
   map entryShape (peers room)).

(** The worker only hands out new handles. *)
Definition workerGrows (w w' : Worker) : Prop :=
  (nextId w ≤ nextId w')%nat
  ∧ ∀ h, (h < nextId w)%nat → ownerOf w' !! h = ownerOf w !! h.

(** The registries, the rooms' handles and the key, id and socket of every
    peer entry are the same in [s'] as in [s]. *)
Definition sameRegistry (s s' : State) : Prop :=
  peerSocketMap s' = peerSocketMap s
  ∧ peerRoomMap s' = peerRoomMap s
  ∧ roomShape <$> rooms s' = roomShape <$> rooms s
  ∧ workerGrows (worker s) (worker s').

(** How the state after an event relates to the state before. *)
Inductive Change : Event → State → State → Prop :=
  | ch_same e s s' :
      sameRegistry s s' → Change e s s'
  | ch_create ws d w s :
      isType d "createRoom" = true →
      rooms s !! d_roomId d = None →
      inherited (d_roomId d) = false →
      w = Resolves →
      Change (WsMessage ws (Json d) w) s (withNewRoom (d_roomId d) s)
  | ch_join ws d w s room :
      isType d "joinRoom" = true →
      rooms s !! d_roomId d = Some room →
      Change (WsMessage ws (Json d) w) s
        (joinedState ws (d_roomId d) (d_peerId d)
           (default "Anonymous" (d_displayName d)) room s)
  | ch_join_new ws d w s :
      isType d "joinRoom" = true →
      rooms s !! d_roomId d = None →
      inherited (d_roomId d) = false →
      w = Resolves →
      Change (WsMessage ws (Json d) w) s
        (joinedState ws (d_roomId d) (d_peerId d)
           (default "Anonymous" (d_displayName d))
           (emptyRoom (d_roomId d) (worker s)) (withNewRoom (d_roomId d) s))
  | ch_cleanup e s s0 peerId :
      sameRegistry s s0 → Change e s (cleanupPeer peerId s0).1.

(** A handler that leaves the registries alone, however it ends. *)
Definition keeps {A} (m : Handler A) : Prop :=
  ∀ s, sameRegistry s (m s).1.2.

(** ** Invariants and conditions on traces *)

(** Every room is registered under its own id and every peer object is
    stored under its own id. *)
Definition wfKeys (s : State) : Prop :=
  ∀ roomId room, rooms s !! roomId = Some room →
    room_id room = roomId
    ∧ ∀ k peer, aget k (peers room) = Some peer → peer_id peer = k.

(** The router and the observer of a registered room are handles the worker
    has handed out, and the observer belongs to the router. *)
Definition wfHandles (s : State) : Prop :=
  ∀ roomId room, rooms s !! roomId = Some room →
    (router room < nextId (worker s))%nat
    ∧ (audioLevelObserver room < nextId (worker s))%nat
    ∧ ownerOf (worker s) !! audioLevelObserver room = Some (router room).

(** No room is registered under the name of a member of
    [Object.prototype]. *)
Definition plainRooms (s : State) : Prop :=
  ∀ roomId room, rooms s !! roomId = Some room → inherited roomId = false.

(** Mapping coherence, as the specification states it. *)
Definition coherent (s : State) : Prop :=
  ∀ roomId room k peer,
    rooms s !! roomId = Some room →
    aget k (peers room) = Some peer →
    peerRoomMap s !! peer_id peer = Some (room_id room)
    ∧ peerSocketMap s !! peer_ws peer = Some (peer_id peer)
    ∧ ∀ roomId' room' k' peer',
        roomId' ≠ roomId →
        rooms s !! roomId' = Some room' →
        aget k' (peers room') = Some peer' →
        peer_id peer' ≠ peer_id peer.

(** Every registered room has a peer. *)
Definition roomsNonEmpty (s : State) : Prop :=
  ∀ roomId room, rooms s !! roomId = Some room → peers room ≠ [].



(** Traces all of whose events satisfy a condition on the event and the
    state it is received in. *)
Fixpoint allowed (cond : Event → State → bool) (es : list Event) (s : State) :
  bool :=
  match es with
  | [] => true
  | e :: es' => cond e s && allowed cond es' (step e s).1
  end.


(** A peer stored in room [r] that is in the way of a [joinRoom] of [peerId]
    into [roomId] on socket [ws]: it has that id and is in another room, or
    it holds that socket and is not the record that the join replaces (the
    one with that id in that room). *)
Definition clashes (ws : nat) (roomId peerId : string) (r : string)
    (peer : MyPeer) : bool :=
  (bool_decide (peer_id peer = peerId) && negb (bool_decide (r = roomId)))
  || (bool_decide (peer_ws peer = ws)
      && negb (bool_decide (r = roomId)
               && bool_decide (peer_id peer = peerId))).

Definition joinClashes (ws : nat) (roomId peerId : string) (s : State) : bool :=
  existsb (fun entry : string * MyRoom =>
             existsb (clashes ws roomId peerId entry.1)
                     (values (peers entry.2)))
          (map_to_list (rooms s)).

(** The [joinRoom] request gets as far as the writes of [createPeer]: the
    room is registered, or [createRoom] registers it. *)
Definition joinLands (d : Data) (w : WorkerResult) (s : State) : bool :=
  match rooms s !! d_roomId d with
  | Some _ => true
  | None =>
      negb (inherited (d_roomId d))
      && match w with Resolves => true | Rejects _ => false end
  end.

(** No [joinRoom] that stores a peer finds a stored peer in its way. *)
Definition noClashingJoin (e : Event) (s : State) : bool :=
  match e with
  | WsMessage ws (Json d) w =>
      if isType d "joinRoom" && joinLands d w s
      then negb (joinClashes ws (d_roomId d) (d_peerId d) s)
      else true
  | _ => true
  end.

(** The [createRoom] request registers a room: none is registered under
    the id, the id finds no member of [Object.prototype], and the worker
    makes the router and the observer. *)
Definition createRegisters (d : Data) (w : WorkerResult) (s : State) : bool :=
  match rooms s !! d_roomId d with
  | Some _ => false
  | None =>
      negb (inherited (d_roomId d))
      && match w with Resolves => true | Rejects _ => false end
  end.

(** The rooms that a [createRoom] request has registered and that no
    [joinRoom] has stored a peer in since: [u] before the event, and after
    it. *)
Definition unjoinedAfter (e : Event) (s : State) (u : gset string) :
  gset string :=
  match e with
  | WsMessage _ (Json d) w =>
      if isType d "createRoom"
      then if createRegisters d w s then {[d_roomId d]} ∪ u else u
      else if isType d "joinRoom"
      then if joinLands d w s then u ∖ {[d_roomId d]} else u
      else u
  | _ => u
  end.

(** ... after the events [es], handled one at a time. *)
Fixpoint unjoined (es : list Event) (c : Config) (u : gset string) :
  gset string :=
  match es with
  | [] => u
  | e :: es' =>
      unjoined es' (runA (oneAtATime e) c).1
        (unjoinedAfter e (current (server c)) u)
  end.



(** ** Scenarios *)

(** Scenario S1: [p1] and then [p2] join room [R]. *)
Definition twoPeers : list Event :=
  [joinRoomMsg 1 "R" "p1" "A" "1"; joinRoomMsg 2 "R" "p2" "B" "2"].

(** Scenario S2: [p1] sets up its send transport and produces audio. *)
Definition p1Produces : list Event :=
  [WsMessage 1
     (Json (withDirection (Some "send") (request "createWebRtcTransport" "3")))
     Resolves;
   WsMessage 1
     (Json (withKind "audio" (Some "mic") (request "produce" "9")))
     Resolves].

(** Peer [p1] is alone in room [R], on socket 1. *)
Definition alone : list Event := [joinRoomMsg 1 "R" "p1" "A" "1"].

Definition p1Alone : MyPeer := connectedPeer 0 "p1" "A" 1.

Definition roomAlone : MyRoom :=
  {| room_id := "R"; router := 0; audioLevelObserver := 1;
     peers := [("p1", p1Alone)] |}.

(** A second [joinRoom] for [p1] in room [R], from socket 2. *)
Definition joinAgain : Data :=
  withPeer "p1" (Some "B") (withRoom "R" (request "joinRoom" "2")).

(** Peer [p1] joins room [R] on socket 1 and creates its send transport
    (handle 2) and its receive transport (handle 3); the router is handle 0
    and the audio-level observer handle 1. *)
Definition withTransports : list Event :=
  [joinRoomMsg 1 "R" "p1" "A" "1";
   WsMessage 1
     (Json (withDirection (Some "send") (request "createWebRtcTransport" "2")))
     Resolves;
   WsMessage 1
     (Json (withDirection (Some "recv") (request "createWebRtcTransport" "3")))
     Resolves].

Definition p1WithTransports : MyPeer :=
  {| peer_oid := 0; peer_id := "p1"; peer_displayName := "A"; peer_ws := 1;
     peer_connectionState := CsConnected;
     peer_sendTransport := Some 2; peer_recvTransport := Some 3;
     peer_producers := []; peer_consumers := [] |}.

Definition roomWithTransports : MyRoom :=
  {| room_id := "R"; router := 0; audioLevelObserver := 1;
     peers := [("p1", p1WithTransports)] |}.

(** After [withTransports], [p1] produces audio (producer handle 4) ... *)
Definition producing : list Event :=
  withTransports
  ++ [WsMessage 1
        (Json (withKind "audio" (Some "mic") (request "produce" "4")))
        Resolves].


Definition p1Producing : MyPeer :=
  setProducers
    [(4, {| prod_id := 4; prod_source := "mic"; prod_kind := "audio";
            prod_paused := false |})]
    p1WithTransports.

(** Peers [p1] and [p2] join room [R] on sockets 1 and 2; socket 1 closes. *)
Definition twoPeersOneLeaves : list Event :=
  [joinRoomMsg 1 "R" "p1" "A" "1"; joinRoomMsg 2 "R" "p2" "B" "2"; WsClose 1].

(** ... and then socket 2 closes as well. *)
Definition twoPeersBothLeave : list Event :=
  twoPeersOneLeaves ++ [WsClose 2].

(** Peer id [p] joins room [R1] on socket 1, and then room [R2] on socket 2. *)
Definition sameIdTwoRooms : list Event :=
  [joinRoomMsg 1 "R1" "p" "A" "1"; joinRoomMsg 2 "R2" "p" "A" "2"].


(** Two handlers wait for [createRouter], and the worker answers the calls
    in the order in which they were made: the router of the first handler
    and the router of the second; the observer of the first, whose handler
    then goes on to its end (three more [await]s, of promises of the server
    itself); the observer of the second, whose handler goes on to its end. *)
Definition answeredInOrder : list Moment :=
  [Resumes 0 Resolves; Resumes 1 Resolves]
  ++ repeat (Resumes 0 Resolves) 4 ++ repeat (Resumes 0 Resolves) 4.

(** Two [joinRoom] frames of peer id [p], for rooms [R1] and [R2], arrive
    one after the other; the handler of the first is still waiting for its
    router when the second arrives. *)
Definition overlappingJoins : list Moment :=
  [Arrives 1 (joinRoomFrame "R1" "p" "A" "1");
   Arrives 2 (joinRoomFrame "R2" "p" "A" "2")]
  ++ answeredInOrder.

(** The same with one room: [p1] and [p2] ask for room [R], which is not
    registered when either frame arrives. *)
Definition overlappingJoinsOneRoom : list Moment :=
  [Arrives 1 (joinRoomFrame "R" "p1" "A" "1");
   Arrives 2 (joinRoomFrame "R" "p2" "B" "2")]
  ++ answeredInOrder.

(** A frame arrives on a server at rest; [createRouter] resolves,
    [createAudioLevelObserver] rejects, and the promise of [createRoom]
    with it. *)
Definition observerRejected (ws : nat) (frame : Frame) (message : string) :
  list Moment :=
  [Arrives ws frame; Resumes 0 Resolves; Resumes 0 (Rejects message);
   Resumes 0 (Rejects message)].

(** Socket 1 joins room [R] as [p] and then again as [q]. *)
Definition sameSocketTwoIds : list Event :=
  [joinRoomMsg 1 "R" "p" "A" "1"; joinRoomMsg 1 "R" "q" "A" "2"].

(** The web client opens room [R]: [createRoom] and then [joinRoom], on
    socket 1.  Socket 2 sends [createRoom] for room [X] and joins [R].
    Socket 1 closes. *)
Definition clientOpensRoom : list Event :=
  [WsMessage 1 (Json (withRoom "R" (request "createRoom" "1"))) Resolves;
   joinRoomMsg 1 "R" "p1" "A" "2";
   WsMessage 2 (Json (withRoom "X" (request "createRoom" "3"))) Resolves;
   joinRoomMsg 2 "R" "p2" "B" "4";
   WsClose 1].


(** * Further vocabulary *)

(** ** Frames on the wire *)

(** The [reqId] member of a frame the server sends. *)
Definition frameReqId (f : OutFrame) : option string :=
  match f with
  | ErrorFrame reqId _ | CreateRoomResponse reqId
  | JoinRoomResponse reqId _ _ _ | CreateWebRtcTransportResponse reqId _
  | ConnectWebRtcTransportResponse reqId | ProduceResponse reqId _
  | ConsumeResponse reqId _ _ _ _ _ _ | PauseProducerResponse reqId
  | ResumeProducerResponse reqId | Pong reqId => reqId
  | PeerJoined _ _ | PeerLeft _ _ | NewProducer _ _ _ _ _
  | ProducerClosed _ _ | AudioLevel _ _ => None
  end.

(** The [type] member of a frame the server sends; an error frame has none. *)
Definition frameType (f : OutFrame) : option string :=
  match f with
  | ErrorFrame _ _ => None
  | CreateRoomResponse _ => Some "createRoomResponse"
  | JoinRoomResponse _ _ _ _ => Some "joinRoomResponse"
  | CreateWebRtcTransportResponse _ _ => Some "createWebRtcTransportResponse"
  | ConnectWebRtcTransportResponse _ => Some "connectWebRtcTransportResponse"
  | ProduceResponse _ _ => Some "produceResponse"
  | ConsumeResponse _ _ _ _ _ _ _ => Some "consumeResponse"
  | PauseProducerResponse _ => Some "pauseProducerResponse"
  | ResumeProducerResponse _ => Some "resumeProducerResponse"
  | Pong _ => Some "pong"
  | PeerJoined _ _ => Some "peerJoined"
  | PeerLeft _ _ => Some "peerLeft"
  | NewProducer _ _ _ _ _ => Some "newProducer"
  | ProducerClosed _ _ => Some "producerClosed"
  | AudioLevel _ _ => Some "audioLevel"
  end.

Definition isError (f : OutFrame) : bool :=
  match f with
  | ErrorFrame _ _ => true
  | _ => false
  end.

(** The frames other than notifications among the calls a handler made. *)
Fixpoint responsesOf (out : list Effect) : list Effect :=
  match out with
  | [] => []
  | Send ws f :: rest =>
      if isNotification f then responsesOf rest
      else Send ws f :: responsesOf rest
  | Call _ :: rest => responsesOf rest
  end.

(** The worker calls among the calls a handler made. *)
Fixpoint workerCallsOf (out : list Effect) : list WorkerCall :=
  match out with
  | [] => []
  | Send _ _ :: rest => workerCallsOf rest
  | Call c :: rest => c :: workerCallsOf rest
  end.


(** The request types whose [case] starts with [getPeerFromSocket(ws)]. *)
Definition peerBoundTypes : list string :=
  ["createWebRtcTransport"; "connectWebRtcTransport"; "produce"; "consume";
   "pauseProducer"; "resumeProducer"].

(** The three process-wide registries. *)
Definition registries (s : State) :
  gmap string MyRoom * gmap nat string * gmap string string :=
  (rooms s, peerSocketMap s, peerRoomMap s).

(** The error a peer-bound request gets when the socket has no peer. *)
Definition noPeerError (type : string) : string :=
  if bool_decide (type = "produce") || bool_decide (type = "consume")
  then "Peer or transport not found"
  else "Peer not found".

(** Socket 7 has never joined. *)
Definition strangerRequest : Data :=
  withKind "audio" None (request "produce" "1").

(** The worker handles a peer object holds. *)
Definition handlesOfPeer (peer : MyPeer) : list nat :=
  map prod_id (values (peer_producers peer))
  ++ map cons_id (values (peer_consumers peer))
  ++ optList (peer_sendTransport peer)
  ++ optList (peer_recvTransport peer).


(** The call of scenarios S1 and S2: [p1] (socket 1) has send transport 2 and
    audio producer 3, [p2] (socket 2) has just joined. *)
Definition inCall : list Event := twoPeers ++ p1Produces.

Definition p1InCall : MyPeer :=
  {| peer_oid := 0; peer_id := "p1"; peer_displayName := "A"; peer_ws := 1;
     peer_connectionState := CsConnected;
     peer_sendTransport := Some 2; peer_recvTransport := None;
     peer_producers :=
       [(3, {| prod_id := 3; prod_source := "mic"; prod_kind := "audio";
               prod_paused := false |})];
     peer_consumers := [] |}.

Definition p2InCall : MyPeer := connectedPeer 1 "p2" "B" 2.

Definition roomInCall : MyRoom :=
  {| room_id := "R"; router := 0; audioLevelObserver := 1;
     peers := [("p1", p1InCall); ("p2", p2InCall)] |}.

(** No router and no observer belongs to two registered rooms. *)
Definition handlesDistinct (s : State) : Prop :=
  ∀ roomId1 roomId2 room1 room2,
    rooms s !! roomId1 = Some room1 →
    rooms s !! roomId2 = Some room2 →
    roomId1 ≠ roomId2 →
    router room1 ≠ router room2
    ∧ audioLevelObserver room1 ≠ audioLevelObserver room2
    ∧ router room1 ≠ audioLevelObserver room2.

(** A [joinRoom] request with an empty peer id. *)
Definition joinNameless : Data :=
  withPeer EmptyString (Some "A") (withRoom "R" (request "joinRoom" "1")).

(** No notification among [out] goes to a socket of [closed]. *)
Definition toOpenOnly (closed : gset nat) (out : list Effect) : Prop :=
  Forall (fun e => match e with
                   | Send ws f => isNotification f = true → ws ∉ closed
                   | Call _ => True
                   end) out.

(** A handler that leaves the readiness of the sockets alone and notifies
    open sockets only. *)
Definition polite {A} (closed : gset nat) (m : Handler A) : Prop :=
  ∀ s, notOpen s = closed →
       notOpen (m s).1.2 = closed ∧ toOpenOnly closed (m s).2.





(** * The client's request hook ([useWsRequest])

    The hook keeps two maps in refs: [pending], from the [reqId] of a request
    to the [resolve] function of the promise [sendRequest] returned, and
    [eventHandlers], from a frame type to a callback.  Promises and callbacks
    are named by numbers; the promises [sendRequest] has made are listed in
    the order of their creation.  A promise settles once: later calls of its
    [resolve] or [reject] do nothing.  [timers] holds the timeouts that
    [sendRequest] has set and that have not fired yet. *)

Inductive Promise :=
  | Unsettled
  | Fulfilled (data : OutFrame)
  | Rejected (error : string).

Record Hook := mkHook {
  socket : option nat;              (* the socket's [readyState], if any *)
  pending : gmap string nat;
  eventHandlers : gmap string nat;
  promises : list Promise;
  timers : list (string * nat) }.

Inductive ClientEffect :=
  | SocketSend (message : Data)
  | Dispatch (handler : nat) (data : OutFrame).

Definition initialHook (readyState : option nat) : Hook :=
  {| socket := readyState; pending := ∅; eventHandlers := ∅;
     promises := []; timers := [] |}.

(** [resolve(v)] and [reject(e)] of promise [p]. *)
Definition settle (p : nat) (outcome : Promise) (ps : list Promise) :
  list Promise :=
  match ps !! p with
  | Some Unsettled => <[p := outcome]> ps
  | _ => ps
  end.

Definition withReqId (reqId : string) (d : Data) : Data :=
  {| d_type := d_type d; d_reqId := Some reqId; d_roomId := d_roomId d;
     d_peerId := d_peerId d; d_displayName := d_displayName d;
     d_direction := d_direction d; d_transportId := d_transportId d;
     d_producerId := d_producerId d; d_kind := d_kind d;
     d_source := d_source d; d_muted := d_muted d |}.

(** The payload [{}]. *)
Definition noFields : Data :=
  {| d_type := None; d_reqId := None;
     d_roomId := EmptyString; d_peerId := EmptyString;
     d_displayName := None; d_direction := None; d_transportId := None;
     d_producerId := 0; d_kind := EmptyString; d_source := None;
     d_muted := None |}.

(** [{ ...payload, type, reqId }] *)
Definition message (type : string) (payload : Data) (reqId : string) : Data :=
  withReqId reqId (typed type payload).

(** [socket && socket.readyState === 1] *)
Definition socketReady (h : Hook) : bool := bool_decide (socket h = Some 1).

(** [sendRequest(type, payload)]; [random] is what
    [Math.random().toString(36).slice(2)] gives.  The promise it returns is
    number [length (promises h)]. *)
Definition sendRequest (type : string) (payload : Data) (random : string)
    (h : Hook) : Hook * list ClientEffect :=
  let p := length (promises h) in
  if socketReady h then
    ({| socket := socket h; pending := <[random := p]> (pending h);
        eventHandlers := eventHandlers h;
        promises := promises h ++ [Unsettled];
        timers := timers h ++ [(random, p)] |},
     [SocketSend (message type payload random)])
  else
    ({| socket := socket h; pending := pending h;
        eventHandlers := eventHandlers h;
        promises := promises h ++ [Rejected "WebSocket not connected"];
        timers := timers h |},
     []).

(** The callback [sendRequest] hands to [setTimeout]. *)
Definition onTimeout (reqId : string) (p : nat) (h : Hook) : Hook :=
  match pending h !! reqId with
  | Some _ =>
      {| socket := socket h; pending := delete reqId (pending h);
         eventHandlers := eventHandlers h;
         promises := settle p (Rejected "Timeout waiting for response")
                       (promises h);
         timers := timers h |}
  | None => h
  end.

(** The [message] listener of the socket; [None] is text on which
    [JSON.parse] throws. *)
Definition clientOnMessage (frame : option OutFrame) (h : Hook) :
  Hook * list ClientEffect :=
  match frame with
  | None => (h, [])
  | Some data =>
      (match frameReqId data with
       | Some reqId =>
           match (if truthy reqId then pending h !! reqId else None) with
           | Some p =>
               {| socket := socket h; pending := delete reqId (pending h);
                  eventHandlers := eventHandlers h;
                  promises := settle p (Fulfilled data) (promises h);
                  timers := timers h |}
           | None => h
           end
       | None => h
       end,
       match frameType data with
       | Some type =>
           match (if truthy type then eventHandlers h !! type else None) with
           | Some handler => [Dispatch handler data]
           | None => []
           end
       | None => []
       end)
  end.

Definition addEventHandler (type : string) (handler : nat) (h : Hook) : Hook :=
  {| socket := socket h; pending := pending h;
     eventHandlers := <[type := handler]> (eventHandlers h);
     promises := promises h; timers := timers h |}.

Definition removeEventHandler (type : string) (h : Hook) : Hook :=
  {| socket := socket h; pending := pending h;
     eventHandlers := delete type (eventHandlers h);
     promises := promises h; timers := timers h |}.

(** [setProducerMuted(producerId, muted)] of [useMediasoupClient];
    [connected] is the flag of the socket context. *)
Definition setProducerMuted (producerId : nat) (muted : bool)
    (connected : bool) (random : string) (h : Hook) :
  Hook * list ClientEffect :=
  if bool_decide (socket h = None) || negb connected then (h, [])
  else sendRequest "setProducerMuted"
         (withMuted (Some muted) (withProducer producerId noFields))
         random h.

(** What happens to the hook: calls of its functions, frames from the
    server, timers that fire, and the socket changing its state. *)
Inductive ClientEvent :=
  | CallSendRequest (type : string) (payload : Data) (random : string)
  | CallAddEventHandler (type : string) (handler : nat)
  | CallRemoveEventHandler (type : string)
  | Message (frame : option OutFrame)
  | TimerFires (reqId : string) (p : nat)
  | ReadyState (readyState : option nat).

Definition dropTimer (reqId : string) (p : nat) (h : Hook) : Hook :=
  {| socket := socket h; pending := pending h;
     eventHandlers := eventHandlers h; promises := promises h;
     timers := filter (fun t => t ≠ (reqId, p)) (timers h) |}.

Definition clientStep (e : ClientEvent) (h : Hook) : Hook * list ClientEffect :=
  match e with
  | CallSendRequest type payload random => sendRequest type payload random h
  | CallAddEventHandler type handler => (addEventHandler type handler h, [])
  | CallRemoveEventHandler type => (removeEventHandler type h, [])
  | Message frame => clientOnMessage frame h
  | TimerFires reqId p =>
      if bool_decide ((reqId, p) ∈ timers h)
      then (onTimeout reqId p (dropTimer reqId p h), [])
      else (h, [])
  | ReadyState readyState =>
      ({| socket := readyState; pending := pending h;
          eventHandlers := eventHandlers h; promises := promises h;
          timers := timers h |}, [])
  end.

Fixpoint hookAfter (es : list ClientEvent) (h : Hook) : Hook :=
  match es with
  | [] => h
  | e :: es' => hookAfter es' (clientStep e h).1
  end.

(** Every [sendRequest] of the trace draws a [reqId] that no request whose
    timer is still to fire has. *)
Fixpoint freshIds (es : list ClientEvent) (h : Hook) : bool :=
  match es with
  | [] => true
  | e :: es' =>
      match e with
      | CallSendRequest _ _ random =>
          bool_decide (random ∉ (timers h).*1)
      | _ => true
      end && freshIds es' (clientStep e h).1
  end.

(** The frames among [out] that go to socket [ws], and the hook after it
    has received [frames] in that order. *)
Definition framesFor (ws : nat) (out : list Effect) : list OutFrame :=
  flat_map (fun e => match e with
                     | Send ws' f => if decide (ws' = ws) then [f] else []
                     | Call _ => []
                     end) out.

Definition receive (frames : list OutFrame) (h : Hook) : Hook :=
  hookAfter (map (fun f => Message (Some f)) frames) h.

(** What the hook maintains when the [reqId]s are fresh: an unsettled
    promise has its request pending and its timer set, the timers that are
    set have distinct [reqId]s and belong to promises made, and a pending
    request has its timer set. *)
Definition hookInv (h : Hook) : Prop :=
  (∀ p, promises h !! p = Some Unsettled →
        ∃ r, (r, p) ∈ timers h ∧ pending h !! r = Some p)
  ∧ (∀ r p p', (r, p) ∈ timers h → (r, p') ∈ timers h → p = p')
  ∧ (∀ r p, (r, p) ∈ timers h → (p < length (promises h))%nat)
  ∧ (∀ r p, pending h !! r = Some p → (r, p) ∈ timers h).

(** A hook with an open socket and nothing under way. *)
Definition idle : Hook := initialHook (Some 1).

(** * Properties *)

(** ** Key/value stores *)

(** Array-index keys are listed first, in numeric order. *)
Example objSet_order :
  map fst (objSet "1" tt (objSet "b" tt (objSet "10" tt (objSet "a" tt []))))
  = ["1"; "10"; "a"; "b"].
Proof. reflexivity. Qed.

Section AListFacts.
Context {K A : Type} `{EqDecision K}.
Implicit Types (k : K) (v : A) (l : list (K * A)).

Lemma aget_areplace k k' v l :
  aget k' (areplace k v l)
  = if decide (k = k') then (match aget k l with Some _ => Some v | None => None end)
    else aget k' l.
Proof.
  induction l as [|[k0 v0] l IH]; simpl.
  - by destruct (decide (k = k')).
  - destruct (decide (k0 = k)) as [->|Hne]; simpl.
    + destruct (decide (k = k')); [done|]. by reflexivity.
    + destruct (decide (k0 = k')) as [->|Hne'].
      * destruct (decide (k = k')); [congruence|done].
      * exact IH.
Qed.

Lemma aget_adel k k' l :
  aget k' (adel k l) = if decide (k = k') then None else aget k' l.
Proof.
  induction l as [|[k0 v0] l IH]; simpl.
  - by destruct (decide (k = k')).
  - destruct (decide (k0 = k)) as [->|Hne]; simpl.
    + rewrite IH. destruct (decide (k = k')); done.
    + rewrite IH. destruct (decide (k0 = k')) as [->|]; [|done].
      destruct (decide (k = k')); [congruence|done].
Qed.

Lemma aget_app k l1 l2 :
  aget k (l1 ++ l2) = match aget k l1 with Some v => Some v | None => aget k l2 end.
Proof.
  induction l1 as [|[k0 v0] l1 IH]; simpl; [done|].
  by destruct (decide (k0 = k)).
Qed.

Lemma aget_mapSet k k' v l :
  aget k' (mapSet k v l) = if decide (k = k') then Some v else aget k' l.
Proof.
  unfold mapSet. destruct (aget k l) as [v0|] eqn:Hk.
  - rewrite aget_areplace, Hk. done.
  - rewrite aget_app. simpl.
    destruct (decide (k = k')) as [<-|Hne]; [by rewrite Hk|].
    by destruct (aget k' l).
Qed.

Lemma adel_nil_inv k l :
  adel k l = [] → ∀ k' v, aget k' l = Some v → k' = k.
Proof.
  induction l as [|[k0 v0] l IH]; simpl; [done|].
  destruct (decide (k0 = k)) as [->|]; [|done].
  intros Hnil k' v. destruct (decide (k = k')); [done|]. by apply IH.
Qed.

End AListFacts.

Lemma aget_objPlace {A} k k' (v : A) o :
  aget k o = None →
  aget k' (objPlace k v o) = if decide (k = k') then Some v else aget k' o.
Proof.
  induction o as [|[k0 v0] o IH]; simpl; [done|].
  destruct (decide (k0 = k)) as [->|Hne]; [done|]. intros Hk.
  destruct (keyBefore k k0); simpl.
  - destruct (decide (k = k')); done.
  - rewrite IH by done.
    destruct (decide (k0 = k')) as [->|]; [|done].
    destruct (decide (k = k')); [congruence|done].
Qed.

Lemma aget_objSet {A} k k' (v : A) o :
  aget k' (objSet k v o) = if decide (k = k') then Some v else aget k' o.
Proof.
  unfold objSet. destruct (aget k o) eqn:Hk.
  - rewrite aget_areplace, Hk. done.
  - by apply aget_objPlace.
Qed.

Lemma objPlace_not_nil {A} k (v : A) o : objPlace k v o ≠ [].
Proof. destruct o as [|[k0 v0] o]; simpl; [done|]. by destruct (keyBefore k k0). Qed.

Lemma areplace_length {K A} `{EqDecision K} (k : K) (v : A) l :
  length (areplace k v l) = length l.
Proof.
  induction l as [|[k0 v0] l IH]; simpl; [done|].
  destruct (decide (k0 = k)); simpl; by rewrite ?IH.
Qed.

Lemma objSet_not_nil {A} k (v : A) o : objSet k v o ≠ [].
Proof.
  unfold objSet. destruct (aget k o) eqn:Hk.
  - destruct o as [|[k0 v0] o]; [done|]. simpl. by destruct (decide (k0 = k)).
  - apply objPlace_not_nil.
Qed.

Lemma areplace_areplace {K A} `{EqDecision K} (k : K) (v v' : A) l :
  areplace k v (areplace k v' l) = areplace k v l.
Proof.
  induction l as [|[k0 v0] l IH]; simpl; [done|].
  destruct (decide (k0 = k)) as [->|Hne]; simpl.
  - by rewrite decide_True.
  - rewrite decide_False by done. by rewrite IH.
Qed.

Lemma areplace_objPlace {A} k (v v' : A) o :
  aget k o = None → areplace k v (objPlace k v' o) = objPlace k v o.
Proof.
  induction o as [|[k0 v0] o IH]; simpl.
  - by rewrite decide_True.
  - destruct (decide (k0 = k)) as [->|Hne]; [done|]. intros Hk.
    destruct (keyBefore k k0); simpl.
    + by rewrite decide_True.
    + rewrite decide_False by done. by rewrite IH.
Qed.

Lemma areplace_objSet {A} k (v v' : A) o :
  areplace k v (objSet k v' o) = objSet k v o.
Proof.
  unfold objSet. destruct (aget k o) eqn:Hk.
  - apply areplace_areplace.
  - by apply areplace_objPlace.
Qed.

Lemma length_objSet_replace {A} k (v v0 : A) o :
  aget k o = Some v0 → length (objSet k v o) = length o.
Proof. intros Hk. unfold objSet. rewrite Hk. apply areplace_length. Qed.

(** ** The handlers, case by case *)

Ltac unfold_handler :=
  unfold hbind, get, send, call, emit, await, modify, newHandle, hret, throw.

Lemma createRoom_existing roomId w s room :
  rooms s !! roomId = Some room →
  createRoom roomId w s = (inr (Some room), s, []).
Proof. intros Hr. unfold createRoom. unfold_handler. by rewrite Hr. Qed.

Lemma createRoom_inherited roomId w s :
  rooms s !! roomId = None → inherited roomId = true →
  createRoom roomId w s = (inr None, s, []).
Proof. intros Hr Hi. unfold createRoom. unfold_handler. by rewrite Hr, Hi. Qed.

Lemma createRoom_absent_resolves roomId s :
  rooms s !! roomId = None → inherited roomId = false →
  createRoom roomId Resolves s
  = (inr (Some (emptyRoom roomId (worker s))), withNewRoom roomId s,
     createRoomCalls s).
Proof. intros Hr Hi. unfold createRoom. unfold_handler. by rewrite Hr, Hi. Qed.

Lemma createRoom_absent_rejects roomId message s :
  rooms s !! roomId = None → inherited roomId = false →
  createRoom roomId (Rejects message) s = (inl message, s, [Call CreateRouter]).
Proof. intros Hr Hi. unfold createRoom. unfold_handler. by rewrite Hr, Hi. Qed.

Lemma handleJoinRoom_existing ws d w s room :
  rooms s !! d_roomId d = Some room →
  handleJoinRoom ws d w s
  = (inr tt,
     joinedState ws (d_roomId d) (d_peerId d)
       (default "Anonymous" (d_displayName d)) room s,
     joinedOutput ws d room s).
Proof.
  intros Hr.
  unfold handleJoinRoom, createPeer, createRoom. unfold_handler.
  rewrite Hr. simpl. rewrite Hr. simpl.
  unfold updatePeerAt at 2. simpl. rewrite lookup_insert_eq. simpl.
  rewrite aget_objSet, decide_True by done.
  unfold updatePeerAt. simpl. rewrite !lookup_insert_eq. simpl.
  rewrite aget_areplace, decide_True by done.
  rewrite aget_objSet, decide_True by done.
  rewrite !insert_insert_eq. rewrite areplace_areplace, !areplace_objSet.
  unfold setRooms; simpl. rewrite !lookup_insert_eq; simpl.
  reflexivity.
Qed.

Lemma hbind_createRoom_absent {B} roomId (k : option MyRoom → Handler B) s :
  rooms s !! roomId = None → inherited roomId = false →
  hbind (createRoom roomId Resolves) k s
  = let '(res, s2, out) :=
      hbind (createRoom roomId Resolves) k (withNewRoom roomId s) in
    (res, s2, createRoomCalls s ++ out).
Proof.
  intros Hr Hi. unfold hbind.
  rewrite createRoom_absent_resolves by done.
  rewrite (createRoom_existing _ _ (withNewRoom _ _)
             (emptyRoom roomId (worker s))) by apply lookup_insert_eq.
  by destruct (k _ _) as [[res s2] out].
Qed.

Lemma handleJoinRoom_absent_resolves ws d s :
  rooms s !! d_roomId d = None → inherited (d_roomId d) = false →
  handleJoinRoom ws d Resolves s
  = (inr tt,
     joinedState ws (d_roomId d) (d_peerId d)
       (default "Anonymous" (d_displayName d))
       (emptyRoom (d_roomId d) (worker s)) (withNewRoom (d_roomId d) s),
     createRoomCalls s
     ++ joinedOutput ws d (emptyRoom (d_roomId d) (worker s))
          (withNewRoom (d_roomId d) s)).
Proof.
  intros Hr Hi.
  transitivity
    (let '(res, s2, out) :=
       handleJoinRoom ws d Resolves (withNewRoom (d_roomId d) s) in
     (res, s2, createRoomCalls s ++ out)).
  { unfold handleJoinRoom. by apply hbind_createRoom_absent. }
  by rewrite (handleJoinRoom_existing _ _ _ _ (emptyRoom (d_roomId d) (worker s)))
    by apply lookup_insert_eq.
Qed.

Lemma handleJoinRoom_absent_rejects ws d message s :
  rooms s !! d_roomId d = None → inherited (d_roomId d) = false →
  handleJoinRoom ws d (Rejects message) s = (inl message, s, [Call CreateRouter]).
Proof.
  intros Hr Hi. unfold handleJoinRoom. unfold hbind at 1.
  by rewrite createRoom_absent_rejects.
Qed.

Lemma handleJoinRoom_inherited ws d w s :
  rooms s !! d_roomId d = None → inherited (d_roomId d) = true →
  handleJoinRoom ws d w s = (inl (cannotSet (d_peerId d)), s, []).
Proof.
  intros Hr Hi. unfold handleJoinRoom, createPeer. unfold hbind.
  by rewrite !createRoom_inherited.
Qed.

Lemma dispatch_joinRoom ws d w :
  dispatch ws (typed "joinRoom" d) w = handleJoinRoom ws (typed "joinRoom" d) w.
Proof. reflexivity. Qed.

Lemma dispatch_produce ws d w :
  dispatch ws (typed "produce" d) w = handleProduce ws (typed "produce" d) w.
Proof. reflexivity. Qed.

Lemma dispatch_consume ws d w :
  dispatch ws (typed "consume" d) w = handleConsume ws (typed "consume" d) w.
Proof. reflexivity. Qed.

Lemma dispatch_createWebRtcTransport ws d w :
  dispatch ws (typed "createWebRtcTransport" d) w
  = handleCreateWebRtcTransport ws (typed "createWebRtcTransport" d) w.
Proof. reflexivity. Qed.

Lemma dispatch_connectWebRtcTransport ws d w :
  dispatch ws (typed "connectWebRtcTransport" d) w
  = handleConnectWebRtcTransport ws (typed "connectWebRtcTransport" d) w.
Proof. reflexivity. Qed.

Lemma onMessage_state ws d w s :
  (onMessage ws (Json d) w s).1 = (dispatch ws d w s).1.2.
Proof.
  unfold onMessage. by destruct (dispatch ws d w s) as [[[e|a] s'] out].
Qed.

Lemma getPeerFromSocket_inv ws s peer :
  getPeerFromSocket ws s = Some peer →
  ∃ roomId peerId room,
    peerHome ws s = Some (roomId, peerId) ∧ rooms s !! roomId = Some room
    ∧ aget peerId (peers room) = Some peer.
Proof.
  unfold getPeerFromSocket.
  destruct (peerHome ws s) as [[roomId peerId]|]; [|done].
  destruct (rooms s !! roomId) as [room|] eqn:Hr; [|done].
  intros Hp. by exists roomId, peerId, room.
Qed.

Lemma getPeerFromSocket_updatePeerOf ws f s peer :
  getPeerFromSocket ws s = Some peer →
  getPeerFromSocket ws (updatePeerOf ws f s) = Some (f peer).
Proof.
  intros (roomId & peerId & room & Hh & Hr & Hp)%getPeerFromSocket_inv.
  unfold updatePeerOf, updatePeerAt. rewrite Hh, Hr, Hp.
  unfold getPeerFromSocket.
  replace (peerHome ws (setRooms _ s)) with (peerHome ws s) by reflexivity.
  rewrite Hh. simpl. rewrite lookup_insert_eq. simpl.
  by rewrite aget_areplace, decide_True, Hp.
Qed.

Lemma cleanupPeer_state peerId s :
  (cleanupPeer peerId s).1 = s
  ∨ ∃ roomId room peer,
      peerRoomMap s !! peerId = Some roomId
      ∧ rooms s !! roomId = Some room
      ∧ aget peerId (peers room) = Some peer
      ∧ (cleanupPeer peerId s).1 = cleanedState peerId roomId room peer s.
Proof.
  unfold cleanupPeer.
  destruct (peerRoomMap s !! peerId) as [roomId|] eqn:Hm; [|by left].
  destruct (negb (truthy roomId)); [by left|].
  destruct (rooms s !! roomId) as [room|] eqn:Hr; [|by left].
  destruct (aget peerId (peers room)) as [peer|] eqn:Hp; [|by left].
  right. exists roomId, room, peer.
  split; [done|]. split; [done|]. split; [done|].
  unfold cleanedState.
  by destruct (length (adel peerId (peers room)) =? 0)%nat.
Qed.

Lemma closeHandles_nextId hs w : nextId (closeHandles hs w) = nextId w.
Proof. induction hs as [|h hs IH]; simpl; [done|]. exact IH. Qed.

Lemma closeHandles_ownerOf hs w : ownerOf (closeHandles hs w) = ownerOf w.
Proof. induction hs as [|h hs IH]; simpl; [done|]. exact IH. Qed.

Lemma notify_sends s cond ps f :
  Forall (fun e => ∃ ws', e = Send ws' f) (notify s cond ps f).
Proof.
  unfold notify. induction (values ps) as [|p l IH]; simpl; [constructor|].
  destruct (cond p && isOpen s (peer_ws p)); simpl; [|done].
  constructor; [by eexists|done].
Qed.


(** ** What a step can change *)

Lemma workerGrows_refl w : workerGrows w w.
Proof. by split. Qed.

Lemma workerGrows_trans w1 w2 w3 :
  workerGrows w1 w2 → workerGrows w2 w3 → workerGrows w1 w3.
Proof.
  intros [Hle1 Ho1] [Hle2 Ho2]. split; [lia|].
  intros h Hh. rewrite Ho2 by lia. by apply Ho1.
Qed.

Lemma workerGrows_alloc owner w : workerGrows w (allocHandle owner w).2.
Proof.
  split; simpl; [lia|]. intros h Hh.
  destruct owner; [|done]. apply lookup_insert_ne. lia.
Qed.

Lemma sameRegistry_refl s : sameRegistry s s.
Proof. repeat split; auto. Qed.

Lemma sameRegistry_trans s1 s2 s3 :
  sameRegistry s1 s2 → sameRegistry s2 s3 → sameRegistry s1 s3.
Proof.
  intros (Ha1 & Hb1 & Hc1 & Hd1) (Ha2 & Hb2 & Hc2 & Hd2).
  split; [congruence|]. split; [congruence|]. split; [congruence|].
  by eapply workerGrows_trans.
Qed.

Lemma map_entryShape_areplace k (f : MyPeer → MyPeer) ps peer :
  (∀ q, peer_id (f q) = peer_id q ∧ peer_ws (f q) = peer_ws q) →
  aget k ps = Some peer →
  map entryShape (areplace k (f peer) ps) = map entryShape ps.
Proof.
  intros Hf. induction ps as [|[k0 p0] ps IH]; simpl; [done|].
  destruct (decide (k0 = k)) as [->|Hne]; simpl.
  - intros [= ->]. unfold entryShape; simpl.
    by destruct (Hf peer) as [-> ->].
  - intros Hk. by rewrite IH.
Qed.

Lemma sameRegistry_updatePeerAt roomId peerId f s :
  (∀ q, peer_id (f q) = peer_id q ∧ peer_ws (f q) = peer_ws q) →
  sameRegistry s (updatePeerAt roomId peerId f s).
Proof.
  intros Hf. unfold updatePeerAt.
  destruct (rooms s !! roomId) as [room|] eqn:Hr; [|apply sameRegistry_refl].
  destruct (aget peerId (peers room)) as [peer|] eqn:Hp;
    [|apply sameRegistry_refl].
  split; [done|]. split; [done|]. split; [|apply workerGrows_refl].
  simpl. rewrite fmap_insert. apply insert_id.
  rewrite lookup_fmap, Hr. simpl. f_equal.
  unfold roomShape; simpl. by rewrite (map_entryShape_areplace _ _ _ _ Hf Hp).
Qed.

Lemma sameRegistry_updatePeerOf ws f s :
  (∀ q, peer_id (f q) = peer_id q ∧ peer_ws (f q) = peer_ws q) →
  sameRegistry s (updatePeerOf ws f s).
Proof.
  intros Hf. unfold updatePeerOf.
  destruct (peerHome ws s) as [[roomId peerId]|]; [|apply sameRegistry_refl].
  by apply sameRegistry_updatePeerAt.
Qed.

Lemma keeps_ret {A} (a : A) : keeps (hret a).
Proof. intros s. apply sameRegistry_refl. Qed.

Lemma keeps_throw {A} message : keeps (@throw A message).
Proof. intros s. apply sameRegistry_refl. Qed.

Lemma keeps_emit out : keeps (emit out).
Proof. intros s. apply sameRegistry_refl. Qed.

Lemma keeps_await w : keeps (await w).
Proof. destruct w; [apply keeps_ret|apply keeps_throw]. Qed.

Lemma keeps_newHandle owner : keeps (newHandle owner).
Proof.
  intros s. unfold newHandle. simpl.
  repeat split; auto; apply workerGrows_alloc.
Qed.

Lemma keeps_modify f : (∀ s, sameRegistry s (f s)) → keeps (modify f).
Proof. intros Hf s. apply Hf. Qed.

Lemma keeps_bind {A B} (m : Handler A) (k : A → Handler B) :
  keeps m → (∀ a, keeps (k a)) → keeps (hbind m k).
Proof.
  intros Hm Hk s. unfold hbind. specialize (Hm s).
  destruct (m s) as [[[e|a] s1] out1]; simpl in *; [done|].
  specialize (Hk a s1). destruct (k a s1) as [[r s2] out2]; simpl in *.
  by eapply sameRegistry_trans.
Qed.

Lemma keeps_get_then {B} (k : State → Handler B) :
  (∀ s, keeps (k s)) → keeps (hbind get k).
Proof. intros Hk. apply keeps_bind; [intros s; apply sameRegistry_refl|done]. Qed.

Ltac keeps_step :=
  first
    [ apply keeps_get_then; intros ?
    | apply keeps_bind; [|intros ?]
    | apply keeps_ret | apply keeps_throw | apply keeps_await
    | apply keeps_newHandle | apply keeps_emit
    | apply keeps_modify; intros ?; apply sameRegistry_updatePeerOf;
      intros ?; by repeat case_match
    | match goal with |- keeps (match ?x with _ => _ end) => destruct x end ].

Ltac keeps_auto := unfold send, call; repeat keeps_step.

Lemma keeps_createWebRtcTransport ws d w :
  keeps (handleCreateWebRtcTransport ws d w).
Proof. unfold handleCreateWebRtcTransport. keeps_auto. Qed.

Lemma keeps_connectWebRtcTransport ws d w :
  keeps (handleConnectWebRtcTransport ws d w).
Proof. unfold handleConnectWebRtcTransport. keeps_auto. Qed.

Lemma keeps_produce ws d w : keeps (handleProduce ws d w).
Proof. unfold handleProduce. keeps_auto. Qed.

Lemma keeps_consume ws d w : keeps (handleConsume ws d w).
Proof. unfold handleConsume. keeps_auto. Qed.

Lemma keeps_pauseResume paused ws d w : keeps (handlePauseResume paused ws d w).
Proof. unfold handlePauseResume. keeps_auto. Qed.

Lemma handleCreateRoom_change ws d w s :
  isType d "createRoom" = true →
  Change (WsMessage ws (Json d) w) s (handleCreateRoom ws d w s).1.2.
Proof.
  intros Ht. unfold handleCreateRoom. unfold hbind at 1.
  destruct (rooms s !! d_roomId d) as [room|] eqn:Hr.
  - rewrite (createRoom_existing _ _ _ room) by done. simpl.
    apply ch_same, sameRegistry_refl.
  - destruct (inherited (d_roomId d)) eqn:Hi.
    { rewrite createRoom_inherited by done. simpl.
      apply ch_same, sameRegistry_refl. }
    destruct w as [|message].
    + rewrite createRoom_absent_resolves by done. simpl. by apply ch_create.
    + rewrite createRoom_absent_rejects by done. simpl.
      apply ch_same, sameRegistry_refl.
Qed.

Lemma handleJoinRoom_change ws d w s :
  isType d "joinRoom" = true →
  Change (WsMessage ws (Json d) w) s (handleJoinRoom ws d w s).1.2.
Proof.
  intros Ht. destruct (rooms s !! d_roomId d) as [room|] eqn:Hr.
  - rewrite (handleJoinRoom_existing _ _ _ _ room) by done. by apply ch_join.
  - destruct (inherited (d_roomId d)) eqn:Hi.
    { rewrite handleJoinRoom_inherited by done.
      apply ch_same, sameRegistry_refl. }
    destruct w as [|message].
    + rewrite handleJoinRoom_absent_resolves by done. by apply ch_join_new.
    + rewrite handleJoinRoom_absent_rejects by done.
      apply ch_same, sameRegistry_refl.
Qed.

Lemma updateObject_same roomId peerId peerOid f s :
  (∀ q, peer_id (f q) = peer_id q ∧ peer_ws (f q) = peer_ws q) →
  sameRegistry s (updateObject roomId peerId peerOid f s).
Proof.
  intros Hf. apply sameRegistry_updatePeerAt. intros q.
  destruct (peer_oid q =? peerOid)%nat; [apply Hf|done].
Qed.

Lemma step_change e s : Change e s (step e s).1.
Proof.
  destruct e as [ws [| |d] w|ws|roomId routerId loudest
                |roomId routerId peerId peerOid producerId
                |roomId routerId peerId peerOid producerId]; unfold step.
  - apply ch_same, sameRegistry_refl.
  - apply ch_same, sameRegistry_refl.
  - rewrite onMessage_state. unfold dispatch.
    destruct (isType d "createRoom") eqn:H1; [by apply handleCreateRoom_change|].
    destruct (isType d "joinRoom") eqn:H2; [by apply handleJoinRoom_change|].
    apply ch_same.
    destruct (isType d "createWebRtcTransport");
      [apply keeps_createWebRtcTransport|].
    destruct (isType d "connectWebRtcTransport");
      [apply keeps_connectWebRtcTransport|].
    destruct (isType d "produce"); [apply keeps_produce|].
    destruct (isType d "consume"); [apply keeps_consume|].
    destruct (isType d "pauseProducer"); [apply keeps_pauseResume|].
    destruct (isType d "resumeProducer"); [apply keeps_pauseResume|].
    apply sameRegistry_refl.
  - unfold onClose.
    set (s0 := {| rooms := rooms s; peerSocketMap := peerSocketMap s;
                  peerRoomMap := peerRoomMap s; worker := worker s;
                  notOpen := {[ws]} ∪ notOpen s; nextOid := nextOid s |}).
    assert (Hs0 : sameRegistry s s0)
      by (repeat split; auto).
    change (peerSocketMap s0 !! ws) with (peerSocketMap s !! ws).
    destruct (peerSocketMap s !! ws) as [peerId|]; [|apply ch_same, Hs0].
    destruct (truthy peerId); [apply ch_cleanup, Hs0|apply ch_same, Hs0].
  - apply ch_same. unfold onVolumes.
    destruct (liveRoom roomId routerId s); [|apply sameRegistry_refl].
    destruct loudest as [[? ?]|]; apply sameRegistry_refl.
  - apply ch_same. unfold onProducerTransportClose.
    destruct (liveRoom roomId routerId s); [|apply sameRegistry_refl].
    by apply updateObject_same.
  - apply ch_same. unfold onConsumerEnded.
    destruct (liveRoom roomId routerId s); [|apply sameRegistry_refl].
    by apply updateObject_same.
Qed.

(** ** Invariants *)

Lemma run_cons_state e es s : (run (e :: es) s).1 = (run es (step e s).1).1.
Proof.
  simpl. destruct (step e s) as [s1 out1]. simpl.
  by destruct (run es s1) as [s2 out2].
Qed.

Lemma run_invariant (I : State → Prop) (cond : Event → State → bool) :
  (∀ e s, I s → cond e s = true → I (step e s).1) →
  ∀ es s, I s → allowed cond es s = true → I (run es s).1.
Proof.
  intros Hstep es. induction es as [|e es IH]; intros s Hs Hall; [done|].
  simpl in Hall. apply andb_prop in Hall as [He Hall].
  rewrite run_cons_state. apply IH; [by apply Hstep|done].
Qed.

Lemma allowed_always es s : allowed (fun _ _ => true) es s = true.
Proof. revert s. induction es as [|e es IH]; intros s; [done|]. simpl. apply IH. Qed.

Lemma sameRegistry_room s s' roomId room' :
  sameRegistry s s' → rooms s' !! roomId = Some room' →
  ∃ room, rooms s !! roomId = Some room ∧ roomShape room = roomShape room'.
Proof.
  intros (_ & _ & Hshape & _) Hr.
  assert (Hl : (roomShape <$> rooms s') !! roomId
               = (roomShape <$> rooms s) !! roomId) by by rewrite Hshape.
  rewrite !lookup_fmap, Hr in Hl. simpl in Hl.
  destruct (rooms s !! roomId) as [room|]; [|done].
  exists room. split; [done|]. simpl in Hl. congruence.
Qed.

Lemma entryShape_aget ps ps' k peer' :
  map entryShape ps = map entryShape ps' →
  aget k ps' = Some peer' →
  ∃ peer, aget k ps = Some peer
          ∧ peer_id peer = peer_id peer' ∧ peer_ws peer = peer_ws peer'.
Proof.
  revert ps'. induction ps as [|[k0 p0] ps IH]; intros [|[k1 p1] ps'];
    simpl; try done.
  intros [= -> Hid Hws Hrest].
  destruct (decide (k1 = k)) as [->|Hne].
  - intros [= ->]. by exists p0.
  - by apply IH.
Qed.

Lemma roomShape_aget room room' k peer' :
  roomShape room = roomShape room' →
  aget k (peers room') = Some peer' →
  ∃ peer, aget k (peers room) = Some peer
          ∧ peer_id peer = peer_id peer' ∧ peer_ws peer = peer_ws peer'.
Proof. intros [= _ _ _ Hps]. by apply entryShape_aget. Qed.

(** *** Keys *)

Lemma wfKeys_same s s' : sameRegistry s s' → wfKeys s → wfKeys s'.
Proof.
  intros Hsame Hwf roomId room' Hr'.
  destruct (sameRegistry_room _ _ _ _ Hsame Hr') as (room & Hr & Hshape).
  destruct (Hwf _ _ Hr) as [Hid Hkeys]. split.
  - injection Hshape as <- _ _ _. done.
  - intros k peer' Hp'.
    destruct (roomShape_aget _ _ _ _ Hshape Hp') as (peer & Hp & <- & _).
    by apply Hkeys.
Qed.

Lemma wfKeys_withNewRoom roomId s : wfKeys s → wfKeys (withNewRoom roomId s).
Proof.
  intros Hwf r room. simpl. rewrite lookup_insert.
  case_decide as Heq; [|apply Hwf]. intros [= <-]. by subst.
Qed.

Lemma wfKeys_joined ws roomId peerId displayName room s :
  rooms s !! roomId = Some room → wfKeys s →
  wfKeys (joinedState ws roomId peerId displayName room s).
Proof.
  intros Hr Hwf r room'. simpl. rewrite lookup_insert.
  case_decide as Heq; [|apply Hwf]. subst r. intros [= <-]. simpl.
  destruct (Hwf _ _ Hr) as [Hid Hkeys]. split; [done|].
  intros k peer. rewrite aget_objSet. case_decide as Hk; [|apply Hkeys].
  by intros [= <-].
Qed.

Lemma wfKeys_cleanup peerId s : wfKeys s → wfKeys (cleanupPeer peerId s).1.
Proof.
  intros Hwf.
  destruct (cleanupPeer_state peerId s)
    as [->|(roomId & room & peer & Hm & Hr & Hp & ->)]; [done|].
  intros r room'. unfold cleanedState; simpl.
  destruct (length (adel peerId (peers room)) =? 0)%nat.
  - rewrite lookup_delete. case_decide; [done|apply Hwf].
  - rewrite lookup_insert. case_decide as Heq; [|apply Hwf].
    subst r. intros [= <-]. simpl.
    destruct (Hwf _ _ Hr) as [Hid Hkeys]. split; [done|].
    intros k peer'. rewrite aget_adel. case_decide; [done|apply Hkeys].
Qed.

Lemma wfKeys_change e s s' : Change e s s' → wfKeys s → wfKeys s'.
Proof.
  intros [e0 s0 s1 Hsame|ws d w s0 Ht Hr|ws d w s0 room Ht Hr
         |ws d w s0 Ht Hr|e0 s0 s1 peerId Hsame] Hwf.
  - by eapply wfKeys_same.
  - by apply wfKeys_withNewRoom.
  - by apply wfKeys_joined.
  - apply wfKeys_joined; [apply lookup_insert_eq|by apply wfKeys_withNewRoom].
  - apply wfKeys_cleanup. by eapply wfKeys_same.
Qed.

Lemma wfKeys_initial : wfKeys initialState.
Proof. intros roomId room. simpl. by rewrite lookup_empty. Qed.

(** *** Handles *)

Lemma wfHandles_same s s' : sameRegistry s s' → wfHandles s → wfHandles s'.
Proof.
  intros Hsame Hwf roomId room' Hr'.
  destruct (sameRegistry_room _ _ _ _ Hsame Hr') as (room & Hr & Hshape).
  destruct (Hwf _ _ Hr) as (Hrt & Hob & Hown).
  destruct Hsame as (_ & _ & _ & Hle & Hkeep).
  injection Hshape as _ <- <- _.
  split; [lia|]. split; [lia|]. by rewrite Hkeep.
Qed.

Lemma wfHandles_withNewRoom roomId s :
  wfHandles s → wfHandles (withNewRoom roomId s).
Proof.
  intros Hwf r room. simpl. rewrite lookup_insert. case_decide as Heq.
  - intros [= <-]. simpl. split; [lia|]. split; [lia|].
    apply lookup_insert_eq.
  - intros Hr. destruct (Hwf _ _ Hr) as (Hrt & Hob & Hown).
    split; [lia|]. split; [lia|]. rewrite lookup_insert_ne by lia. done.
Qed.

Lemma wfHandles_joined ws roomId peerId displayName room s :
  rooms s !! roomId = Some room → wfHandles s →
  wfHandles (joinedState ws roomId peerId displayName room s).
Proof.
  intros Hr Hwf r room'. simpl. rewrite lookup_insert.
  case_decide as Heq; [|apply Hwf]. subst r. intros [= <-]. simpl.
  by apply (Hwf roomId).
Qed.

Lemma wfHandles_cleanup peerId s :
  wfHandles s → wfHandles (cleanupPeer peerId s).1.
Proof.
  intros Hwf.
  destruct (cleanupPeer_state peerId s)
    as [->|(roomId & room & peer & Hm & Hr & Hp & ->)]; [done|].
  intros r room'. unfold cleanedState; simpl.
  destruct (length (adel peerId (peers room)) =? 0)%nat; simpl.
  - rewrite lookup_delete. case_decide; [done|].
    rewrite closeHandles_nextId, closeHandles_ownerOf. apply Hwf.
  - rewrite closeHandles_nextId, closeHandles_ownerOf.
    rewrite lookup_insert. case_decide as Heq; [|apply Hwf].
    subst r. intros [= <-]. simpl. by apply (Hwf roomId).
Qed.

Lemma wfHandles_change e s s' : Change e s s' → wfHandles s → wfHandles s'.
Proof.
  intros [e0 s0 s1 Hsame|ws d w s0 Ht Hr|ws d w s0 room Ht Hr
         |ws d w s0 Ht Hr|e0 s0 s1 peerId Hsame] Hwf.
  - by eapply wfHandles_same.
  - by apply wfHandles_withNewRoom.
  - by apply wfHandles_joined.
  - apply wfHandles_joined;
      [apply lookup_insert_eq|by apply wfHandles_withNewRoom].
  - apply wfHandles_cleanup. by eapply wfHandles_same.
Qed.

Lemma wfHandles_initial : wfHandles initialState.
Proof. intros roomId room. simpl. by rewrite lookup_empty. Qed.

Lemma reachable_wf s : reachable s → wfKeys s ∧ wfHandles s.
Proof.
  intros [es <-]. unfold stateAfter.
  apply (run_invariant (fun s => wfKeys s ∧ wfHandles s) (fun _ _ => true)).
  - intros e s [Hk Hh] _. pose proof (step_change e s) as Hch.
    split; [by eapply wfKeys_change|by eapply wfHandles_change].
  - split; [apply wfKeys_initial|apply wfHandles_initial].
  - apply allowed_always.
Qed.

(** *** Names of registered rooms *)

Lemma plainRooms_change e s s' : Change e s s' → plainRooms s → plainRooms s'.
Proof.
  intros [e0 s0 s1 Hsame|ws d w s0 Ht Hr Hi|ws d w s0 room Ht Hr
         |ws d w s0 Ht Hr Hi|e0 s0 s1 peerId Hsame] Hpl roomId room'.
  - intros Hr'.
    destruct (sameRegistry_room _ _ _ _ Hsame Hr') as (room0 & Hr0 & _).
    by eapply Hpl.
  - unfold withNewRoom; simpl. rewrite lookup_insert.
    case_decide as Heq; [by subst|apply Hpl].
  - simpl. rewrite lookup_insert.
    case_decide as Heq; [subst; intros _; by eapply Hpl|apply Hpl].
  - simpl. rewrite !lookup_insert.
    case_decide as Heq; [by subst|apply Hpl].
  - assert (Hpl0 : plainRooms s1).
    { intros r room0 Hr0.
      destruct (sameRegistry_room _ _ _ _ Hsame Hr0) as (room1 & Hr1 & _).
      by eapply Hpl. }
    destruct (cleanupPeer_state peerId s1)
      as [->|(r & room0 & peer & Hm & Hr0 & Hp & ->)]; [apply Hpl0|].
    unfold cleanedState; simpl.
    destruct (length (adel peerId (peers room0)) =? 0)%nat.
    + rewrite lookup_delete. case_decide; [done|apply Hpl0].
    + rewrite lookup_insert.
      case_decide as Heq; [subst; intros _; by eapply Hpl0|apply Hpl0].
Qed.

Lemma reachable_plainRooms es : plainRooms (stateAfter es).
Proof.
  unfold stateAfter.
  apply (run_invariant plainRooms (fun _ _ => true)).
  - intros e s Hpl _. eapply plainRooms_change; [apply step_change|done].
  - intros roomId room. simpl. by rewrite lookup_empty.
  - apply allowed_always.
Qed.

(** *** Mapping coherence *)










(** *** Entries of [peerRoomMap] *)








(** *** Rooms and their peers *)

Lemma roomsNonEmpty_same s s' :
  sameRegistry s s' → roomsNonEmpty s → roomsNonEmpty s'.
Proof.
  intros Hsame Hne roomId room' Hr'.
  destruct (sameRegistry_room _ _ _ _ Hsame Hr') as (room & Hr & Hshape).
  specialize (Hne _ _ Hr). injection Hshape as _ _ _ Hps.
  intros Hnil. rewrite Hnil in Hps. by destruct (peers room).
Qed.

Lemma roomsNonEmpty_joined ws roomId peerId displayName room s :
  (∀ r room', r ≠ roomId → rooms s !! r = Some room' → peers room' ≠ []) →
  roomsNonEmpty (joinedState ws roomId peerId displayName room s).
Proof.
  intros Hne r room'. simpl. rewrite lookup_insert. case_decide as Heq.
  - intros [= <-]. simpl. apply objSet_not_nil.
  - by apply Hne.
Qed.

Lemma roomsNonEmpty_cleanup peerId s :
  roomsNonEmpty s → roomsNonEmpty (cleanupPeer peerId s).1.
Proof.
  intros Hne.
  destruct (cleanupPeer_state peerId s)
    as [->|(roomId & room & gone & Hm & Hr & Hgone & ->)]; [done|].
  intros r room'. unfold cleanedState; simpl.
  destruct (length (adel peerId (peers room)) =? 0)%nat eqn:Hlen.
  - rewrite lookup_delete. case_decide; [done|apply Hne].
  - rewrite lookup_insert. case_decide; [|apply Hne].
    intros [= <-]. simpl. intros Hnil. by rewrite Hnil in Hlen.
Qed.







Lemma roomsNonEmpty_initial : roomsNonEmpty initialState.
Proof. intros roomId room. simpl. by rewrite lookup_empty. Qed.

(** ** The handlers and their [await]s *)

(** *** A handler that nothing interrupts *)

Lemma getPeerFromSocket_ref ws s :
  getPeerFromSocket ws s = snd <$> getPeerRef ws s.
Proof.
  unfold getPeerFromSocket, getPeerRef.
  destruct (peerHome ws s) as [[roomId peerId]|]; [|done].
  destruct (rooms s !! roomId) as [room|]; [|done].
  by destruct (aget peerId (peers room)).
Qed.

Lemma getPeerRef_inv ws s ref peer :
  getPeerRef ws s = Some (ref, peer) →
  ∃ room, peerHome ws s = Some (ref_roomId ref, ref_key ref)
          ∧ rooms s !! ref_roomId ref = Some room
          ∧ aget (ref_key ref) (peers room) = Some peer
          ∧ ref_router ref = router room
          ∧ ref_oid ref = peer_oid peer.
Proof.
  unfold getPeerRef.
  destruct (peerHome ws s) as [[roomId peerId]|]; [|done].
  destruct (rooms s !! roomId) as [room|] eqn:Hr; [|done].
  destruct (aget peerId (peers room)) as [p|] eqn:Hp; [|done].
  intros [= <- <-]. by exists room.
Qed.

Lemma updatePeerObject_held ws ref peer f sv :
  getPeerRef ws (current sv) = Some (ref, peer) →
  updatePeerObject ref f sv
  = {| current := updatePeerOf ws f (current sv); detached := detached sv |}.
Proof.
  intros (room & Hh & Hr & Hp & Hx & Ho)%getPeerRef_inv.
  unfold updatePeerObject, updateRoomObject, liveRoom, updatePeerOf,
    updatePeerAt.
  rewrite Hh, Hr, Hx, Nat.eqb_refl, Hp, Ho, Nat.eqb_refl. done.
Qed.

Lemma uninterrupted_sofar {A} w out (r : Async A) :
  uninterrupted w (sofar out r)
  = let '(x, sv, out') := uninterrupted w r in (x, sv, out ++ out').
Proof.
  destruct r as [x sv o|sv o resume]; simpl; [done|].
  destruct (uninterrupted w (resume w sv)) as [[x sv'] out'].
  by rewrite app_assoc.
Qed.

Lemma awaits_sofar {A} w out (r : Async A) : awaits w (sofar out r) = awaits w r.
Proof. by destruct r. Qed.

Lemma uninterrupted_andThen {A B} w (r : Async A) (k : A → Task B) :
  uninterrupted w (andThen r k)
  = match uninterrupted w r with
    | (inl e, sv, out) => (inl e, sv, out)
    | (inr a, sv, out) =>
        let '(x, sv', out') := uninterrupted w (k a sv) in
        (x, sv', out ++ out')
    end.
Proof.
  induction r as [[e|a] sv out|sv out resume IH]; simpl; [done| |].
  - apply uninterrupted_sofar.
  - rewrite IH. destruct (uninterrupted w (resume w sv)) as [[[e|a] sv'] out'];
      [done|].
    destruct (uninterrupted w (k a sv')) as [[x sv''] out''].
    by rewrite app_assoc.
Qed.

Lemma awaits_andThen {A B} w (r : Async A) (k : A → Task B) :
  awaits w (andThen r k)
  = (awaits w r
     + match uninterrupted w r with
       | (inl e, sv, out) => 0
       | (inr a, sv, out) => awaits w (k a sv)
       end)%nat.
Proof.
  induction r as [[e|a] sv out|sv out resume IH]; simpl; [done| |].
  - apply awaits_sofar.
  - rewrite IH.
    by destruct (uninterrupted w (resume w sv)) as [[[e|a] sv'] out'].
Qed.

Lemma uninterrupted_settled {A} w (r : Async A) :
  uninterrupted w (settled r) = uninterrupted w r.
Proof.
  induction r as [x sv out|sv out resume IH]; simpl.
  - by rewrite app_nil_r.
  - by rewrite IH.
Qed.

Lemma awaits_settled {A} w (r : Async A) :
  awaits w (settled r) = S (awaits w r).
Proof.
  induction r as [x sv out|sv out resume IH]; simpl; [done|]. by rewrite IH.
Qed.

Lemma uninterrupted_catching w ws data (r : Async unit) :
  uninterrupted w (catching ws data r)
  = match uninterrupted w r with
    | (inl message, sv, out) =>
        (inr tt, sv,
         out ++ [Send ws (errorFrame data
                            (if truthy message then message
                             else "Internal server error"))])
    | (inr a, sv, out) => (inr a, sv, out)
    end.
Proof.
  induction r as [[e|a] sv out|sv out resume IH]; simpl; [done|done|].
  rewrite IH.
  destruct (uninterrupted w (resume w sv)) as [[[e|a] sv'] out']; [|done].
  by rewrite app_assoc.
Qed.

Lemma awaits_catching w ws data (r : Async unit) :
  awaits w (catching ws data r) = awaits w r.
Proof.
  induction r as [[e|a] sv out|sv out resume IH]; simpl; [done|done|].
  by rewrite IH.
Qed.

Lemma does_createRoom w roomId sv :
  does w (createRoomA roomId) (createRoom roomId w) 2 sv.
Proof.
  unfold does, createRoomA, createRoom, abind, sync. unfold_handler. simpl.
  destruct (rooms (current sv) !! roomId) as [room|] eqn:Hr; simpl.
  { split; [by destruct sv|lia]. }
  destruct (inherited roomId); simpl.
  { split; [by destruct sv|lia]. }
  destruct w as [|message]; simpl; [|split; [done|lia]].
  rewrite Hr. split; [done|lia].
Qed.

Lemma uninterrupted_createRoom w roomId sv :
  uninterrupted w (createRoomA roomId sv)
  = (let '(r, s, out) := createRoom roomId w (current sv) in
     (r, {| current := s; detached := detached sv |}, out)).
Proof. apply does_createRoom. Qed.

Lemma uninterrupted_createPeer_existing w roomId peerId displayName ws sv room :
  rooms (current sv) !! roomId = Some room →
  uninterrupted w (createPeerA roomId peerId displayName ws sv)
  = (inr {| ref_roomId := roomId; ref_router := router room;
            ref_key := peerId; ref_oid := nextOid (current sv) |},
     {| current :=
          {| rooms := <[roomId := setPeers
                          (objSet peerId
                             (newPeer (nextOid (current sv)) peerId
                                displayName ws) (peers room)) room]>
                        (rooms (current sv));
             peerSocketMap := <[ws := peerId]> (peerSocketMap (current sv));
             peerRoomMap := <[peerId := roomId]> (peerRoomMap (current sv));
             worker := worker (current sv); notOpen := notOpen (current sv);
             nextOid := S (nextOid (current sv)) |};
        detached := detached sv |},
     []).
Proof.
  intros Hr. unfold createPeerA, abind, awaitCall.
  rewrite uninterrupted_andThen, uninterrupted_settled,
    uninterrupted_createRoom.
  rewrite (createRoom_existing _ _ _ room) by done. simpl.
  unfold updateRoomObject, liveRoom. simpl. by rewrite Hr, Nat.eqb_refl.
Qed.

Lemma updatePeerObject_live roomId x key oid f sv room p :
  rooms (current sv) !! roomId = Some room →
  router room = x →
  aget key (peers room) = Some p →
  peer_oid p = oid →
  updatePeerObject {| ref_roomId := roomId; ref_router := x; ref_key := key;
                      ref_oid := oid |} f sv
  = {| current :=
         setRooms (<[roomId := setPeers (areplace key (f p) (peers room))
                                        room]> (rooms (current sv)))
                  (current sv);
       detached := detached sv |}.
Proof.
  intros Hr <- Hp <-. unfold updatePeerObject, updateRoomObject, liveRoom.
  simpl. by rewrite Hr, Nat.eqb_refl, Hp, Nat.eqb_refl.
Qed.

Lemma peersNow_live roomId room sv room' :
  rooms (current sv) !! roomId = Some room' →
  router room' = router room →
  peersNow roomId room sv = peers room'.
Proof.
  intros Hr Hx. unfold peersNow, roomObject, liveRoom.
  by rewrite Hr, Hx, Nat.eqb_refl.
Qed.

Lemma handleJoinRoomA_existing w ws d sv room :
  rooms (current sv) !! d_roomId d = Some room →
  uninterrupted w (handleJoinRoomA ws d sv)
  = (inr tt,
     {| current := joinedState ws (d_roomId d) (d_peerId d)
                     (default "Anonymous" (d_displayName d)) room (current sv);
        detached := detached sv |},
     joinedOutput ws d room (current sv)).
Proof.
  intros Hr. unfold handleJoinRoomA, abind, awaitCall.
  rewrite uninterrupted_andThen, uninterrupted_settled,
    uninterrupted_createRoom.
  rewrite (createRoom_existing _ _ _ room) by done. simpl.
  rewrite uninterrupted_andThen, uninterrupted_settled.
  rewrite (uninterrupted_createPeer_existing _ _ _ _ _ _ room) by done.
  simpl.
  match goal with
  | |- context [updatePeerObject ?r (setConnectionState CsConnecting) ?s0] =>
      erewrite (updatePeerObject_live _ _ _ _
                  (setConnectionState CsConnecting) s0);
        [|simpl; apply lookup_insert_eq|reflexivity
         |simpl; by rewrite aget_objSet, decide_True|reflexivity]
  end.
  erewrite (peersNow_live _ _ _ _); [|simpl; apply lookup_insert_eq|done].
  erewrite updatePeerObject_live;
    [|simpl; apply lookup_insert_eq|reflexivity
     |simpl; by rewrite aget_areplace, decide_True, aget_objSet, decide_True
     |reflexivity].
  simpl. unfold joinedState, joinedOutput, setRooms, notify, isOpen. simpl.
  rewrite !insert_insert_eq, areplace_areplace, !areplace_objSet, app_nil_r.
  reflexivity.
Qed.

Lemma handleJoinRoomA_inherited w ws d sv :
  rooms (current sv) !! d_roomId d = None → inherited (d_roomId d) = true →
  uninterrupted w (handleJoinRoomA ws d sv)
  = (inl (cannotSet (d_peerId d)), sv, []).
Proof.
  intros Hr Hi. unfold handleJoinRoomA, abind, awaitCall.
  rewrite uninterrupted_andThen, uninterrupted_settled,
    uninterrupted_createRoom, createRoom_inherited by done.
  cbn -[createPeerA uninterrupted andThen settled].
  rewrite uninterrupted_andThen, uninterrupted_settled.
  unfold createPeerA, abind, awaitCall.
  rewrite uninterrupted_andThen, uninterrupted_settled,
    uninterrupted_createRoom, createRoom_inherited by done.
  simpl. by destruct sv.
Qed.

Lemma handleJoinRoomA_absent ws d sv :
  rooms (current sv) !! d_roomId d = None → inherited (d_roomId d) = false →
  uninterrupted Resolves (handleJoinRoomA ws d sv)
  = let '(x, sv', out) :=
      uninterrupted Resolves
        (handleJoinRoomA ws d
           {| current := withNewRoom (d_roomId d) (current sv);
              detached := detached sv |}) in
    (x, sv', createRoomCalls (current sv) ++ out).
Proof.
  intros Hr Hi. unfold handleJoinRoomA, abind, awaitCall.
  rewrite !(uninterrupted_andThen _ (settled (createRoomA _ _))),
    !uninterrupted_settled, !uninterrupted_createRoom.
  rewrite createRoom_absent_resolves by done.
  cbn [current detached].
  rewrite (createRoom_existing _ _ (withNewRoom _ _)
             (emptyRoom (d_roomId d) (worker (current sv))))
    by apply lookup_insert_eq.
  cbn [current detached].
  match goal with |- context [uninterrupted Resolves ?t] =>
    destruct (uninterrupted Resolves t) as [[x sv'] out] end.
  reflexivity.
Qed.

Lemma handleJoinRoomA_rejects ws d message sv :
  rooms (current sv) !! d_roomId d = None → inherited (d_roomId d) = false →
  uninterrupted (Rejects message) (handleJoinRoomA ws d sv)
  = (inl message, sv, [Call CreateRouter]).
Proof.
  intros Hr Hi. unfold handleJoinRoomA, abind, awaitCall.
  rewrite uninterrupted_andThen, uninterrupted_settled,
    uninterrupted_createRoom, createRoom_absent_rejects by done.
  by destruct sv.
Qed.

Lemma uninterrupted_joinRoom w ws d sv :
  uninterrupted w (handleJoinRoomA ws d sv)
  = (let '(r, s, out) := handleJoinRoom ws d w (current sv) in
     (r, {| current := s; detached := detached sv |}, out)).
Proof.
  destruct (rooms (current sv) !! d_roomId d) as [room|] eqn:Hr.
  { rewrite (handleJoinRoomA_existing _ _ _ _ room) by done.
    by rewrite (handleJoinRoom_existing _ _ _ _ room). }
  destruct (inherited (d_roomId d)) eqn:Hi.
  { rewrite handleJoinRoom_inherited, handleJoinRoomA_inherited by done.
    by destruct sv. }
  destruct w as [|message].
  - rewrite handleJoinRoom_absent_resolves, handleJoinRoomA_absent by done.
    rewrite (handleJoinRoomA_existing _ _ _ _
               (emptyRoom (d_roomId d) (worker (current sv))))
      by apply lookup_insert_eq.
    reflexivity.
  - rewrite handleJoinRoom_absent_rejects, handleJoinRoomA_rejects by done.
    by destruct sv.
Qed.

Lemma awaits_joinRoom w ws d sv : (awaits w (handleJoinRoomA ws d sv) ≤ 5)%nat.
Proof.
  unfold handleJoinRoomA, abind, awaitCall.
  rewrite awaits_andThen, awaits_settled, uninterrupted_settled.
  pose proof (does_createRoom w (d_roomId d) sv) as [Hu Ha]. rewrite Hu.
  assert (∀ (found : option MyRoom) s1,
    (match found with Some _ => rooms s1 !! d_roomId d ≠ None
     | None => rooms s1 !! d_roomId d = None ∧ inherited (d_roomId d) = true
     end) →
    ∀ k : PeerRef → Task unit, (∀ ref sv', awaits w (k ref sv') = 0%nat) →
    awaits w (andThen (settled (createPeerA (d_roomId d) (d_peerId d)
                (default "Anonymous" (d_displayName d)) ws
                {| current := s1; detached := detached sv |})) k) ≤ 2)%nat
    as Hrest.
  { intros found s1 Hs k Hk.
    rewrite awaits_andThen, awaits_settled, uninterrupted_settled.
    unfold createPeerA, abind, awaitCall.
    rewrite awaits_andThen, awaits_settled, uninterrupted_andThen,
      uninterrupted_settled, uninterrupted_createRoom.
    unfold createRoomA, createRoom, abind, sync. unfold_handler. simpl.
    destruct (rooms s1 !! d_roomId d) as [room|] eqn:Hr; simpl.
    { rewrite Hk. lia. }
    destruct found; [done|]. destruct Hs as [_ ->]. simpl. lia. }
  unfold createRoom. unfold_handler.
  destruct (rooms (current sv) !! d_roomId d) as [room|] eqn:Hr; simpl in *.
  { match goal with |- context [andThen _ ?k] =>
      pose proof (Hrest (Some room) (current sv) ltac:(by rewrite Hr) k
                    (fun _ _ => eq_refl)) end.
    lia. }
  destruct (inherited (d_roomId d)) eqn:Hi; simpl in *.
  { match goal with |- context [andThen _ ?k] =>
      pose proof (Hrest None (current sv) ltac:(done) k
                    (fun _ _ => eq_refl)) end.
    lia. }
  destruct w as [|message]; simpl in *; [|lia].
  match goal with |- context [andThen (settled (createPeerA _ _ _ _
                    {| current := ?s1; detached := _ |})) ?k] =>
    pose proof (Hrest (Some (emptyRoom (d_roomId d) (worker (current sv))))
                  s1 ltac:(simpl; by rewrite lookup_insert_eq) k
                  (fun _ _ => eq_refl)) end.
  lia.
Qed.

Lemma does_joinRoom w ws d sv :
  does w (handleJoinRoomA ws d) (handleJoinRoom ws d w) 5 sv.
Proof. split; [apply uninterrupted_joinRoom|apply awaits_joinRoom]. Qed.

Lemma does_createRoomRequest w ws d sv :
  does w (handleCreateRoomA ws d) (handleCreateRoom ws d w) 3 sv.
Proof.
  unfold does, handleCreateRoomA, handleCreateRoom, abind, awaitCall.
  rewrite uninterrupted_andThen, awaits_andThen, awaits_settled,
    uninterrupted_settled.
  pose proof (does_createRoom w (d_roomId d) sv) as [-> Ha].
  unfold hbind.
  destruct (createRoom (d_roomId d) w (current sv)) as [[[e|found] s] out];
    simpl; (split; [done|lia]).
Qed.

Lemma getPeerRef_same ws s s' :
  rooms s' = rooms s → peerSocketMap s' = peerSocketMap s →
  peerRoomMap s' = peerRoomMap s →
  getPeerRef ws s' = getPeerRef ws s.
Proof.
  intros Hr Hs Hm. unfold getPeerRef, peerHome. by rewrite Hr, Hs, Hm.
Qed.

Lemma updatePeerObject_held' ws ref peer f sv s :
  getPeerRef ws s = Some (ref, peer) →
  rooms (current sv) = rooms s → peerSocketMap (current sv) = peerSocketMap s →
  peerRoomMap (current sv) = peerRoomMap s →
  updatePeerObject ref f sv
  = {| current := updatePeerOf ws f (current sv); detached := detached sv |}.
Proof.
  intros Hg Hr Hs Hm. apply (updatePeerObject_held ws ref peer).
  by rewrite (getPeerRef_same _ s).
Qed.

Lemma does_createWebRtcTransport w ws d sv :
  does w (handleCreateWebRtcTransportA ws d)
    (handleCreateWebRtcTransport ws d w) 1 sv.
Proof.
  unfold does, handleCreateWebRtcTransportA, handleCreateWebRtcTransport,
    abind, sync, change.
  unfold_handler. simpl. rewrite getPeerFromSocket_ref.
  destruct (getPeerRef ws (current sv)) as [[ref peer]|] eqn:Hg; simpl;
    [|split; [done|lia]].
  destruct (roomOfPeer peer (current sv)) as [room|]; simpl;
    [|split; [done|lia]].
  destruct w as [|message]; simpl; [|split; [done|lia]].
  rewrite (updatePeerObject_held' ws ref peer _ _ (current sv)) by done.
  split; [done|lia].
Qed.

Lemma does_connectWebRtcTransport w ws d sv :
  does w (handleConnectWebRtcTransportA ws d)
    (handleConnectWebRtcTransport ws d w) 1 sv.
Proof.
  unfold does, handleConnectWebRtcTransportA, handleConnectWebRtcTransport,
    abind, sync, change.
  unfold_handler. simpl. rewrite getPeerFromSocket_ref.
  destruct (getPeerRef ws (current sv)) as [[ref peer]|] eqn:Hg; simpl;
    [|split; [done|lia]].
  destruct (if isRecv d then peer_recvTransport peer
            else peer_sendTransport peer) as [transport|]; simpl;
    [|split; [done|lia]].
  destruct w as [|message]; simpl; split; (done || lia).
Qed.

Lemma does_pauseResume paused w ws d sv :
  does w (handlePauseResumeA paused ws d) (handlePauseResume paused ws d w) 1
    sv.
Proof.
  unfold does, handlePauseResumeA, handlePauseResume, abind, sync, change.
  unfold_handler. simpl. rewrite getPeerFromSocket_ref.
  destruct (getPeerRef ws (current sv)) as [[ref peer]|] eqn:Hg; simpl;
    [|split; [done|lia]].
  destruct (aget (d_producerId d) (peer_producers peer)) as [myProducer|];
    simpl; [|split; [done|lia]].
  destruct w as [|message]; simpl; [|split; [done|lia]].
  rewrite (updatePeerObject_held' ws ref peer _ _ (current sv)) by done.
  split; [by destruct sv|lia].
Qed.

Lemma does_consume w ws d sv :
  does w (handleConsumeA ws d) (handleConsume ws d w) 1 sv.
Proof.
  unfold does, handleConsumeA, handleConsume, abind, sync, change.
  unfold_handler. simpl. rewrite getPeerFromSocket_ref.
  destruct (getPeerRef ws (current sv)) as [[ref peer]|] eqn:Hg; simpl;
    [|split; [done|lia]].
  destruct (peer_recvTransport peer) as [recvTransport|]; simpl;
    [|split; [done|lia]].
  destruct (roomOfPeer peer (current sv)) as [room|]; simpl;
    [|split; [done|lia]].
  destruct (findProducer (d_producerId d) (peers room))
    as [[targetPeer myProducer]|]; simpl; [|split; [done|lia]].
  destruct w as [|message]; simpl; [|split; [done|lia]].
  rewrite (updatePeerObject_held' ws ref peer _ _ (current sv)) by done.
  split; [done|lia].
Qed.

Lemma notify_areplace s cond k v p ps m :
  aget k ps = Some p → peer_ws v = peer_ws p → cond v = cond p →
  notify s cond (areplace k v ps) m = notify s cond ps m.
Proof.
  intros Hp Hw Hc. unfold notify, values.
  induction ps as [|[k' v'] ps IH]; [done|]. simpl in *.
  destruct (decide (k' = k)) as [->|Hne]; simpl.
  - injection Hp as ->. by rewrite Hw, Hc.
  - by rewrite IH.
Qed.

Lemma roomOfPeer_key peer s : roomOfPeer peer s = rooms s !! roomKeyOfPeer peer s.
Proof.
  unfold roomOfPeer, roomKeyOfPeer, getRoom.
  by destruct (peerRoomMap s !! peer_id peer).
Qed.

Lemma notify_peersNow ws g s cond key room s2 dt m :
  (∀ p, peer_ws (g p) = peer_ws p ∧ cond (g p) = cond p) →
  rooms s2 !! key = Some room →
  notify s cond
    (peersNow key room {| current := updatePeerOf ws g s2; detached := dt |}) m
  = notify s cond (peers room) m.
Proof.
  intros Hg Hr. unfold updatePeerOf, updatePeerAt.
  destruct (peerHome ws s2) as [[roomId peerId]|];
    [|by erewrite peersNow_live].
  destruct (rooms s2 !! roomId) as [hroom|] eqn:Hh;
    [|by erewrite peersNow_live].
  destruct (aget peerId (peers hroom)) as [p|] eqn:Hp;
    [|by erewrite peersNow_live].
  destruct (decide (key = roomId)) as [->|Hne].
  - assert (hroom = room) as -> by congruence.
    erewrite peersNow_live; [|simpl; apply lookup_insert_eq|done].
    simpl. by apply (notify_areplace _ _ _ _ p); [|apply Hg..].
  - erewrite peersNow_live; [done| |done].
    simpl. by rewrite lookup_insert_ne.
Qed.

Lemma notify_state s s' cond ps m :
  notOpen s' = notOpen s → notify s' cond ps m = notify s cond ps m.
Proof. intros H. unfold notify, isOpen. by rewrite H. Qed.

Lemma notOpen_updatePeerOf ws g s : notOpen (updatePeerOf ws g s) = notOpen s.
Proof.
  unfold updatePeerOf, updatePeerAt.
  destruct (peerHome ws s) as [[roomId peerId]|]; [|done].
  destruct (rooms s !! roomId) as [room|]; [|done].
  by destruct (aget peerId (peers room)).
Qed.

Lemma does_produce w ws d sv :
  does w (handleProduceA ws d) (handleProduce ws d w) 1 sv.
Proof.
  unfold does, handleProduceA, handleProduce, abind, sync, change.
  unfold_handler. simpl. rewrite getPeerFromSocket_ref.
  destruct (getPeerRef ws (current sv)) as [[ref peer]|] eqn:Hg; simpl;
    [|split; [done|lia]].
  destruct (peer_sendTransport peer) as [sendTransport|]; simpl;
    [|split; [done|lia]].
  rewrite roomOfPeer_key.
  destruct (rooms (current sv) !! roomKeyOfPeer peer (current sv))
    as [room|] eqn:Hr; simpl; [|split; [done|lia]].
  destruct w as [|message]; simpl; [|split; [done|lia]].
  rewrite (updatePeerObject_held' ws ref peer _ _ (current sv)) by done.
  destruct (bool_decide (d_kind d = "audio")); simpl;
    (split; [|lia]);
    (rewrite notify_peersNow; [|done|done]);
    by rewrite (notify_state (current sv))
      by (by rewrite notOpen_updatePeerOf).
Qed.

Lemma does_le {A} w (t : Task A) h n m sv :
  does w t h n sv → (n ≤ m)%nat → does w t h m sv.
Proof. intros [Hu Ha] Hle. split; [done|lia]. Qed.

Lemma does_dispatch w ws d sv : does w (dispatchA ws d) (dispatch ws d w) 5 sv.
Proof.
  unfold dispatchA, dispatch.
  repeat match goal with |- context [if ?b then _ else _] => destruct b end.
  - eapply does_le; [apply does_createRoomRequest|lia].
  - apply does_joinRoom.
  - eapply does_le; [apply does_createWebRtcTransport|lia].
  - eapply does_le; [apply does_connectWebRtcTransport|lia].
  - eapply does_le; [apply does_produce|lia].
  - eapply does_le; [apply does_consume|lia].
  - eapply does_le; [apply does_pauseResume|lia].
  - eapply does_le; [apply does_pauseResume|lia].
  - split; [done|simpl; lia].
Qed.

(** [onMessageA], when nothing interrupts it, is [onMessage]. *)
Lemma uninterrupted_onMessage w ws frame sv :
  uninterrupted w (onMessageA ws frame sv)
  = (inr tt,
     {| current := (onMessage ws frame w (current sv)).1;
        detached := detached sv |},
     (onMessage ws frame w (current sv)).2)
  ∧ (awaits w (onMessageA ws frame sv) ≤ 5)%nat.
Proof.
  destruct frame as [| |d]; simpl.
  - split; [done|lia].
  - split; [by destruct sv|lia].
  - rewrite uninterrupted_catching, awaits_catching.
    destruct (does_dispatch w ws d sv) as [-> Ha]. split; [|done].
    by destruct (dispatch ws d w (current sv)) as [[[e|[]] s] out].
Qed.

(** *** Handlers run one at a time *)

Lemma runA_app ms1 ms2 c :
  runA (ms1 ++ ms2) c
  = let '(c1, out1) := runA ms1 c in
    let '(c2, out2) := runA ms2 c1 in
    (c2, out1 ++ out2).
Proof.
  revert c. induction ms1 as [|m ms1 IH]; intros c; simpl.
  - by destruct (runA ms2 c).
  - destruct (stepA m c) as [c1 out1]. rewrite IH.
    destruct (runA ms1 c1) as [c2 out2].
    destruct (runA ms2 c2) as [c3 out3]. by rewrite app_assoc.
Qed.

Lemma runA_idle w n sv :
  runA (repeat (Resumes 0 w) n) {| server := sv; waiting := [] |}
  = ({| server := sv; waiting := [] |}, []).
Proof. induction n as [|n IH]; simpl; [done|]. by rewrite IH. Qed.

Lemma runA_resumes w n resume sv :
  (awaits w (resume w sv) < n)%nat →
  runA (repeat (Resumes 0 w) n) {| server := sv; waiting := [resume] |}
  = ({| server := (uninterrupted w (resume w sv)).1.2; waiting := [] |},
     (uninterrupted w (resume w sv)).2).
Proof.
  revert resume sv. induction n as [|n IH]; intros resume sv Ha; [lia|].
  simpl. destruct (resume w sv) as [x sv' out|sv' out resume'] eqn:Hres;
    simpl in *.
  - rewrite runA_idle. by rewrite app_nil_r.
  - rewrite IH by lia.
    by destruct (uninterrupted w (resume' w sv')) as [[x sv''] out''].
Qed.

Lemma runA_message ws frame w sv :
  runA (oneAtATime (WsMessage ws frame w)) {| server := sv; waiting := [] |}
  = ({| server := {| current := (onMessage ws frame w (current sv)).1;
                     detached := detached sv |};
        waiting := [] |},
     (onMessage ws frame w (current sv)).2).
Proof.
  destruct (uninterrupted_onMessage w ws frame sv) as [Hu Ha].
  unfold oneAtATime. cbn [runA stepA server waiting].
  destruct (onMessageA ws frame sv) as [x sv' out|sv' out resume];
    cbn [uninterrupted awaits] in *.
  - rewrite runA_idle. injection Hu as _ -> ->. by rewrite app_nil_r.
  - rewrite app_nil_l, runA_resumes by lia.
    destruct (uninterrupted w (resume w sv')) as [[x sv''] out''].
    by injection Hu as _ -> <-.
Qed.

Lemma areplace_same {K A} `{EqDecision K} (k : K) (v : A) l :
  aget k l = Some v → areplace k v l = l.
Proof.
  induction l as [|[k' v'] l IH]; simpl; [done|].
  destruct (decide (k' = k)); [by intros [= ->]|].
  intros H. by rewrite IH.
Qed.

Lemma setPeers_same room : setPeers (peers room) room = room.
Proof. by destruct room. Qed.

Lemma setRooms_same s : setRooms (rooms s) s = s.
Proof. by destruct s. Qed.

Lemma find_detached x dt room :
  Forall (fun room : MyRoom => peers room = []) dt →
  List.find (fun room => Nat.eqb (router room) x) dt = Some room →
  peers room = [].
Proof.
  intros Hall [Hin _]%find_some. rewrite Forall_forall in Hall.
  apply Hall. by apply list_elem_of_In.
Qed.

Lemma updatePeerObject_callback roomId x key oid f sv :
  Forall (fun room : MyRoom => peers room = []) (detached sv) →
  updatePeerObject {| ref_roomId := roomId; ref_router := x; ref_key := key;
                      ref_oid := oid |} f sv
  = {| current := match liveRoom roomId x (current sv) with
                  | Some _ => updateObject roomId key oid f (current sv)
                  | None => current sv
                  end;
       detached := detached sv |}.
Proof.
  intros Hall.
  unfold updatePeerObject, updateRoomObject, updateObject, updatePeerAt,
    liveRoom. simpl.
  destruct (rooms (current sv) !! roomId) as [room|] eqn:Hr.
  - destruct (Nat.eqb (router room) x) eqn:Hx.
    + f_equal. destruct (aget key (peers room)) as [p|] eqn:Hp.
      * destruct (Nat.eqb (peer_oid p) oid); [done|].
        by rewrite areplace_same, setPeers_same.
      * by rewrite insert_id, setRooms_same.
    + f_equal. induction Hall as [|r dt Hr' Hall IH]; [done|]. simpl.
      rewrite IH, Hr'. simpl. by destruct (Nat.eqb (router r) x).
  - f_equal. induction Hall as [|r dt Hr' Hall IH]; [done|]. simpl.
    rewrite IH, Hr'. simpl. by destruct (Nat.eqb (router r) x).
Qed.

Lemma notify_nil s cond m : notify s cond [] m = [].
Proof. done. Qed.

Lemma stepA_other e c :
  (∀ ws frame w, e ≠ WsMessage ws frame w) →
  atRest c →
  ∃ m, oneAtATime e = [m]
       ∧ current (server (stepA m c).1) = (step e (current (server c))).1
       ∧ (stepA m c).2 = (step e (current (server c))).2
       ∧ atRest (stepA m c).1.
Proof.
  intros He [Hw Hall].
  destruct e as [ws frame w|ws|roomId x loudest|roomId x peerId oid producerId
                 |roomId x peerId oid producerId]; [by destruct (He ws frame w)|..];
    (eexists; split; [reflexivity|]); simpl.
  - unfold onCloseA. destruct (onClose ws (current (server c))) as [s out].
    simpl. split_and!; [done|done|]. split; [done|]. simpl.
    apply Forall_app. split; [|done].
    apply Forall_forall. intros room (entry & _ & Hentry)%list_elem_of_omap.
    destruct (rooms s !! entry.1); [done|]. by injection Hentry as <-.
  - unfold onVolumesA, onVolumes, roomObject.
    destruct (liveRoom roomId x (current (server c))) as [room|].
    + destruct loudest as [[peerId volume]|]; simpl; by split_and!.
    + destruct (List.find _ _) as [room|] eqn:Hf; [|by split_and!].
      apply find_detached in Hf; [|done].
      destruct loudest as [[peerId volume]|]; simpl; [|by split_and!].
      rewrite Hf. by split_and!.
  - unfold onProducerTransportCloseA, onProducerTransportClose, roomObject.
    destruct (liveRoom roomId x (current (server c))) as [room|] eqn:Hl.
    + simpl. rewrite updatePeerObject_callback, Hl by done. by split_and!.
    + destruct (List.find _ _) as [room|] eqn:Hf; [|by split_and!].
      apply find_detached in Hf; [|done]. simpl.
      rewrite updatePeerObject_callback, Hl, Hf by done. by split_and!.
  - unfold onConsumerEndedA, onConsumerEnded.
    rewrite updatePeerObject_callback by done.
    destruct (liveRoom roomId x (current (server c))) as [room|] eqn:Hl;
      by split_and!.
Qed.

(** The handlers with their [await]s, run one at a time, do what [run]
    does. *)
Lemma runA_inTurn es c :
  atRest c →
  current (server (runA (inTurn es) c).1) = (run es (current (server c))).1
  ∧ (runA (inTurn es) c).2 = (run es (current (server c))).2
  ∧ atRest (runA (inTurn es) c).1.
Proof.
  revert c. induction es as [|e es IH]; intros c Hc; [done|].
  unfold inTurn in *. cbn [flat_map run]. rewrite runA_app.
  assert (∃ c1, runA (oneAtATime e) c = (c1, (step e (current (server c))).2)
                ∧ current (server c1) = (step e (current (server c))).1
                ∧ atRest c1) as (c1 & -> & Hs & Hc1).
  { assert ((∃ ws frame w, e = WsMessage ws frame w)
            ∨ ∀ ws frame w, e ≠ WsMessage ws frame w)
      as [(ws & frame & w & ->)|Hne]
      by (destruct e; [left; eauto|right; done..]).
    - destruct c as [sv wt]. destruct Hc as [Hw Hall]. simpl in Hw. subst wt.
      rewrite runA_message. eexists. split; [reflexivity|]. by split.
    - destruct (stepA_other e c) as (m & -> & H1 & H2 & H3); [done..|].
      simpl. destruct (stepA m c) as [c1 out1]. simpl in *.
      exists c1. by rewrite app_nil_r, H2. }
  specialize (IH c1 Hc1). rewrite Hs in IH.
  destruct (step e (current (server c))) as [s1 out1].
  destruct (runA (flat_map oneAtATime es) c1) as [c2 out2].
  cbn [fst snd] in *. destruct IH as (H1 & H2 & H3). rewrite H1, H2.
  by destruct (run es s1) as [s2 out2'].
Qed.


Lemma atRest_initial : atRest initialConfig.
Proof. by split. Qed.



(** ** End-to-end scenarios of the specification *)

(** S1 *)
Example two_peer_call :
  (run twoPeers initialState).2
  = [Call CreateRouter; Call (CreateAudioLevelObserver 0);
     Send 1 (JoinRoomResponse (Some "1") 0 [] []);
     Send 1 (PeerJoined "p2" "B");
     Send 2 (JoinRoomResponse (Some "2") 0
               [{| pi_id := "p1"; pi_displayName := "A";
                   pi_connectionState := CsConnected |}] [])].
Proof. vm_compute. reflexivity. Qed.

(** S2 *)
Example produce_fan_out :
  (run p1Produces (stateAfter twoPeers)).2
  = [Call (CreateWebRtcTransport 0 "p1" "send");
     Send 1 (CreateWebRtcTransportResponse (Some "3") 2);
     Call (TransportProduce 2 "audio" "mic");
     Call (ObserverAddProducer 1 3);
     Send 1 (ProduceResponse (Some "9") 3);
     Send 2 (NewProducer 3 "p1" "audio" "mic" "A")].
Proof. vm_compute. reflexivity. Qed.

(** S4: socket 1 closes. *)
Example disconnect_cleanup :
  (step (WsClose 1) (stateAfter (twoPeers ++ p1Produces))).2
  = [Call (ProducerClose 3); Send 2 (ProducerClosed "p1" 3);
     Call (TransportClose 2); Send 2 (PeerLeft "p1" "A")]
  ∧ peerRoomMap (stateAfter (twoPeers ++ p1Produces ++ [WsClose 1])) !! "p1"
    = None
  ∧ peerSocketMap (stateAfter (twoPeers ++ p1Produces ++ [WsClose 1])) !! 1
    = None.
Proof. repeat split; vm_compute; reflexivity. Qed.

(** S5: socket 2 closes as well. *)
Example empty_room_collapse :
  (step (WsClose 2) (stateAfter (twoPeers ++ p1Produces ++ [WsClose 1]))).2
  = [Call (RouterClose 0)]
  ∧ rooms (stateAfter (twoPeers ++ p1Produces ++ [WsClose 1; WsClose 2])) !! "R"
    = None.
Proof. repeat split; vm_compute; reflexivity. Qed.

(** ** Mapping coherence (C1) *)





(** The condition on sockets is needed as well: after socket 1 has joined as
    [p] and then as [q], the object of [p] still holds socket 1, which
    [peerSocketMap] maps to [q]. *)
Lemma stale_socket_after_second_join :
  allowed noClashingJoin sameSocketTwoIds initialState = false
  ∧ ¬ coherent (stateAfter sameSocketTwoIds).
Proof.
  split; [vm_compute; reflexivity|]. intros Hco.
  assert (Hr : rooms (stateAfter sameSocketTwoIds) !! "R"
               = Some {| room_id := "R"; router := 0; audioLevelObserver := 1;
                         peers := [("p", connectedPeer 0 "p" "A" 1);
                                   ("q", connectedPeer 1 "q" "A" 1)] |})
    by (vm_compute; reflexivity).
  destruct (Hco "R" _ "p" (connectedPeer 0 "p" "A" 1) Hr eq_refl)
    as (_ & Hbad & _).
  vm_compute in Hbad. discriminate Hbad.
Qed.

Lemma joinedState_clash ws roomId peerId displayName room s r room0 k peer :
  rooms s !! roomId = Some room →
  wfKeys s →
  rooms s !! r = Some room0 → aget k (peers room0) = Some peer →
  clashes ws roomId peerId r peer = true →
  ¬ coherent (joinedState ws roomId peerId displayName room s).
Proof.
  intros Hr Hwf Hr0 Hp Hclash Hco.
  assert (Hkey : peer_id peer = k) by by eapply (Hwf r).
  set (s' := joinedState ws roomId peerId displayName room s) in *.
  assert (Hnew : ∃ room', rooms s' !! roomId = Some room'
                          ∧ aget peerId (peers room')
                            = Some (connectedPeer (nextOid s) peerId
                                      displayName ws)).
  { eexists. split; [apply lookup_insert_eq|]. simpl.
    by rewrite aget_objSet, decide_True. }
  destruct Hnew as (room' & Hr' & Hp').
  assert (Hkept : peer_id peer ≠ peerId ∨ r ≠ roomId →
                  ∃ room1, rooms s' !! r = Some room1
                           ∧ aget k (peers room1) = Some peer).
  { intros Hne. destruct (decide (r = roomId)) as [->|Hrne].
    - assert (room0 = room) as -> by congruence.
      eexists. split; [apply lookup_insert_eq|]. simpl.
      rewrite aget_objSet, decide_False; [done|].
      destruct Hne as [Hne|Hne]; congruence.
    - exists room0. split; [|done]. simpl. by rewrite lookup_insert_ne. }
  assert (Helse : peer_id peer = peerId → r ≠ roomId → False).
  { intros Hid Hrne. destruct Hkept as (room1 & Hr1 & Hp1); [by right|].
    destruct (Hco _ _ _ _ Hr' Hp') as (_ & _ & Hother).
    by apply (Hother r room1 k peer). }
  unfold clashes in Hclash. apply orb_prop in Hclash as [Hc|Hc];
    apply andb_prop in Hc as [H1 H2].
  - apply bool_decide_eq_true_1 in H1. apply negb_true_iff in H2.
    apply bool_decide_eq_false_1 in H2. by apply Helse.
  - apply bool_decide_eq_true_1 in H1. apply negb_true_iff in H2.
    destruct (decide (peer_id peer = peerId)) as [Hid|Hid].
    + apply (Helse Hid). intros ->.
      by rewrite !bool_decide_eq_true_2 in H2.
    + destruct Hkept as (room1 & Hr1 & Hp1); [by left|].
      destruct (Hco _ _ _ _ Hr1 Hp1) as (_ & Hsock & _).
      rewrite H1 in Hsock. simpl in Hsock. rewrite lookup_insert_eq in Hsock.
      congruence.
Qed.

(** The condition on joins asks no more than is needed: a [joinRoom] that
    stores a peer while a stored peer is in its way leaves a state that is
    not coherent. *)
Lemma clashing_join_breaks_coherence ws d w s r room0 k peer :
  wfKeys s →
  isType d "joinRoom" = true → joinLands d w s = true →
  rooms s !! r = Some room0 → aget k (peers room0) = Some peer →
  clashes ws (d_roomId d) (d_peerId d) r peer = true →
  ¬ coherent (step (WsMessage ws (Json d) w) s).1.
Proof.
  intros Hwf Ht Hl Hr0 Hp Hclash. unfold step. rewrite onMessage_state.
  unfold dispatch. rewrite Ht.
  assert (isType d "createRoom" = false) as ->.
  { unfold isType in *. apply bool_decide_eq_true_1 in Ht.
    apply bool_decide_eq_false_2. congruence. }
  unfold joinLands in Hl.
  destruct (rooms s !! d_roomId d) as [room|] eqn:Hr.
  - rewrite (handleJoinRoom_existing _ _ _ _ room) by done.
    by eapply joinedState_clash.
  - apply andb_prop in Hl as [Hi%negb_true_iff Hw]. destruct w; [|done].
    rewrite handleJoinRoom_absent_resolves by done.
    eapply (joinedState_clash _ _ _ _ _ _ r room0 k peer);
      [apply lookup_insert_eq|by apply wfKeys_withNewRoom| |done|done].
    simpl. rewrite lookup_insert_ne; [done|]. intros <-. congruence.
Qed.

(** Handling one event at a time is needed as well.  Two [joinRoom] frames
    of peer id [p] for rooms [R1] and [R2] arrive while no peer is stored,
    so neither finds a peer in its way; the handler of the first waits for
    its router when the second arrives.  Both rooms end up storing a peer
    [p], and [peerRoomMap] maps [p] to [R2]. *)
Lemma overlapping_joins_break_coherence :
  joinClashes 1 "R1" "p" (registriesAfter []) = false
  ∧ joinClashes 2 "R2" "p"
      (registriesAfter [Arrives 1 (joinRoomFrame "R1" "p" "A" "1")]) = false
  ∧ rooms (registriesAfter overlappingJoins) !! "R1"
    = Some {| room_id := "R1"; router := 0; audioLevelObserver := 2;
              peers := [("p", connectedPeer 0 "p" "A" 1)] |}
  ∧ peerRoomMap (registriesAfter overlappingJoins) !! "p" = Some "R2"
  ∧ ¬ coherent (registriesAfter overlappingJoins).
Proof.
  assert (Hr : rooms (registriesAfter overlappingJoins) !! "R1"
               = Some {| room_id := "R1"; router := 0; audioLevelObserver := 2;
                         peers := [("p", connectedPeer 0 "p" "A" 1)] |})
    by (vm_compute; reflexivity).
  assert (Hm : peerRoomMap (registriesAfter overlappingJoins) !! "p"
               = Some "R2")
    by (vm_compute; reflexivity).
  split; [vm_compute; reflexivity|]. split; [vm_compute; reflexivity|].
  split; [exact Hr|]. split; [exact Hm|].
  intros Hco.
  destruct (Hco "R1" _ "p" (connectedPeer 0 "p" "A" 1) Hr eq_refl) as [Hbad _].
  simpl in Hbad. rewrite Hm in Hbad. discriminate Hbad.
Qed.

(** ** Teardown of an empty room (C2) *)

(** C2.  In a reachable state, when [cleanupPeer] removes the last peer of a
    room, its last call is [router.close()] on the room's router; the router
    and the audio-level observer (which the router owns) are then closed and
    the room id is no longer registered.  A [joinRoom] for the same room id
    handled next calls [createRouter] and registers a room whose router is a
    handle other than the closed one. *)
Theorem empty_room_teardown (es : list Event) (peerId roomId : string)
    (room : MyRoom) (peer : MyPeer) (ws' : nat) (d : Data) :
  peerRoomMap (stateAfter es) !! peerId = Some roomId →
  truthy roomId = true →
  rooms (stateAfter es) !! roomId = Some room →
  aget peerId (peers room) = Some peer →
  adel peerId (peers room) = [] →
  let cleaned := cleanupPeer peerId (stateAfter es) in
  let again :=
    onMessage ws' (Json (typed "joinRoom" (withRoom roomId d))) Resolves
      cleaned.1 in
  (∃ before, cleaned.2 = before ++ [Call (RouterClose (router room))])
  ∧ isClosed (worker cleaned.1) (router room) = true
  ∧ isClosed (worker cleaned.1) (audioLevelObserver room) = true
  ∧ rooms cleaned.1 !! roomId = None
  ∧ In (Call CreateRouter) again.2
  ∧ ∃ room', rooms again.1 !! roomId = Some room'
             ∧ router room' ≠ router room.
Proof.
  intros Hm Htruthy Hr Hp Hlast cleaned again.
  destruct (reachable_wf (stateAfter es)) as [_ Hwf]; [by eexists|].
  destruct (Hwf _ _ Hr) as (Hrt & Hob & Hown).
  assert (Hcleaned :
    cleaned
    = (cleanedState peerId roomId room peer (stateAfter es),
       flat_map (fun myProducer =>
                   Call (ProducerClose (prod_id myProducer))
                   :: notify (stateAfter es) (isNot peerId) (peers room)
                        (ProducerClosed peerId (prod_id myProducer)))
                (values (peer_producers peer))
       ++ map (fun myConsumer => Call (ConsumerClose (cons_id myConsumer)))
              (values (peer_consumers peer))
       ++ map (fun t => Call (TransportClose t))
              (optList (peer_sendTransport peer)
               ++ optList (peer_recvTransport peer))
       ++ notify (stateAfter es) (fun _ => true) []
            (PeerLeft peerId (peer_displayName peer))
       ++ [Call (RouterClose (router room))])).
  { subst cleaned. unfold cleanupPeer, cleanedState.
    rewrite Hm, Htruthy, Hr, Hp, Hlast. reflexivity. }
  assert (Hstate : cleaned.1
                   = cleanedState peerId roomId room peer (stateAfter es))
    by by rewrite Hcleaned.
  assert (Hgone : rooms cleaned.1 !! roomId = None).
  { rewrite Hstate. unfold cleanedState. rewrite Hlast. simpl.
    apply lookup_delete_eq. }
  assert (Hnext : nextId (worker cleaned.1) = nextId (worker (stateAfter es))).
  { rewrite Hstate. unfold cleanedState. rewrite Hlast. simpl.
    apply closeHandles_nextId. }
  split; [|split; [|split; [|split; [done|]]]].
  - rewrite Hcleaned. simpl. eexists. rewrite !app_assoc. reflexivity.
  - rewrite Hstate. unfold cleanedState. rewrite Hlast. simpl.
    unfold isClosed. simpl. rewrite bool_decide_eq_true_2; [done|].
    set_solver.
  - rewrite Hstate. unfold cleanedState. rewrite Hlast. simpl.
    unfold isClosed. simpl. rewrite closeHandles_ownerOf, Hown.
    rewrite (bool_decide_eq_true_2 (router room ∈ _)) by set_solver.
    apply orb_true_r.
  - subst again. unfold onMessage. rewrite dispatch_joinRoom.
    rewrite handleJoinRoom_absent_resolves
      by (try done; simpl; by eapply reachable_plainRooms).
    simpl. split; [by left|].
    eexists. split; [apply lookup_insert_eq|]. simpl. lia.
Qed.

(** C2, witness: [p1] is alone in room [R] and is cleaned up; a [joinRoom]
    for [R] follows on socket 2. *)
Lemma empty_room_teardown_witness :
  peerRoomMap (stateAfter alone) !! "p1" = Some "R"
  ∧ truthy "R" = true
  ∧ rooms (stateAfter alone) !! "R" = Some roomAlone
  ∧ aget "p1" (peers roomAlone) = Some p1Alone
  ∧ adel "p1" (peers roomAlone) = []
  ∧ isClosed (worker (cleanupPeer "p1" (stateAfter alone)).1)
      (audioLevelObserver roomAlone) = true
  ∧ rooms (cleanupPeer "p1" (stateAfter alone)).1 !! "R" = None.
Proof.
  assert (Hm : peerRoomMap (stateAfter alone) !! "p1" = Some "R")
    by (vm_compute; reflexivity).
  assert (Hr : rooms (stateAfter alone) !! "R" = Some roomAlone)
    by (vm_compute; reflexivity).
  split; [exact Hm|]. split; [reflexivity|]. split; [exact Hr|].
  split; [reflexivity|]. split; [reflexivity|].
  pose proof (empty_room_teardown alone "p1" "R" roomAlone p1Alone 2
                (request "joinRoom" "2") Hm eq_refl Hr eq_refl eq_refl)
    as (_ & _ & Hobserver & Hgone & _).
  split; [exact Hobserver|exact Hgone].
Defined.

(** ** Consumers (C3) *)




(** ** A second [joinRoom] for a bound peer id (C4) *)

(** C4 (as the code behaves).  A [joinRoom] naming a peer id that already has
    a record in the room is not refused: the response is a
    [joinRoomResponse], sent after the [peerJoined] notifications; the room's
    entry for that id is replaced by a fresh peer object bound to the
    requesting socket, the other entries are kept; the requesting socket is
    mapped to the id and the id to the room; no worker handle is closed or
    created. *)
Theorem duplicate_peerId_replaces_record (ws : nat) (d : Data)
    (w : WorkerResult) (s : State) (room : MyRoom) (old : MyPeer) :
  rooms s !! d_roomId d = Some room →
  aget (d_peerId d) (peers room) = Some old →
  let peerId := d_peerId d in
  let displayName := default "Anonymous" (d_displayName d) in
  let result := onMessage ws (Json (typed "joinRoom" d)) w s in
  (∃ broadcast peerList producerList,
     result.2 = broadcast
                ++ [Send ws (JoinRoomResponse (d_reqId d) (router room)
                               peerList producerList)]
     ∧ Forall (fun e => ∃ ws', e = Send ws' (PeerJoined peerId displayName))
              broadcast)
  ∧ (∃ room',
       rooms result.1 !! d_roomId d = Some room'
       ∧ aget peerId (peers room')
         = Some (connectedPeer (nextOid s) peerId displayName ws)
       ∧ (∀ k, k ≠ peerId → aget k (peers room') = aget k (peers room))
       ∧ length (peers room') = length (peers room))
  ∧ peerSocketMap result.1 = <[ws := peerId]> (peerSocketMap s)
  ∧ peerRoomMap result.1 = <[peerId := d_roomId d]> (peerRoomMap s)
  ∧ worker result.1 = worker s.
Proof.
  intros Hr Hold peerId displayName result.
  subst result. unfold onMessage. rewrite dispatch_joinRoom.
  rewrite (handleJoinRoom_existing _ _ _ _ room) by done. simpl.
  split; [|split; [|done]].
  - eexists _, _, _. split; [reflexivity|]. apply notify_sends.
  - eexists. split; [apply lookup_insert_eq|]. simpl.
    split; [by rewrite aget_objSet, decide_True|].
    split.
    + intros k Hk. by rewrite aget_objSet, decide_False.
    + by apply (length_objSet_replace _ _ old).
Qed.

(** C4, witness: [p1] is in room [R] on socket 1 and socket 2 joins as [p1]. *)
Lemma duplicate_peerId_replaces_record_witness :
  rooms (stateAfter alone) !! d_roomId joinAgain = Some roomAlone
  ∧ aget (d_peerId joinAgain) (peers roomAlone) = Some p1Alone
  ∧ (onMessage 2 (Json (typed "joinRoom" joinAgain)) Resolves
       (stateAfter alone)).2
    = [Send 2 (JoinRoomResponse (Some "2") 0 [] [])]
  ∧ peerSocketMap
      (onMessage 2 (Json (typed "joinRoom" joinAgain)) Resolves
         (stateAfter alone)).1
    = <[2 := "p1"]> (peerSocketMap (stateAfter alone)).
Proof.
  assert (Hr : rooms (stateAfter alone) !! d_roomId joinAgain = Some roomAlone)
    by (vm_compute; reflexivity).
  assert (Hold : aget (d_peerId joinAgain) (peers roomAlone) = Some p1Alone)
    by (vm_compute; reflexivity).
  split; [exact Hr|]. split; [exact Hold|].
  split; [vm_compute; reflexivity|].
  exact (proj1 (proj2 (proj2
           (duplicate_peerId_replaces_record 2 joinAgain Resolves
              (stateAfter alone) roomAlone p1Alone Hr Hold)))).
Defined.

(** C4, counterexample.  [p1] is in room [R] on socket 1; a [joinRoom] for
    [p1] in [R] arrives on socket 2.  The answer is a [joinRoomResponse], not
    an error, and the registries have changed: socket 2 is now mapped to
    [p1]. *)
Lemma duplicate_peerId_is_accepted :
  rooms (stateAfter alone) !! "R" = Some roomAlone
  ∧ aget "p1" (peers roomAlone) = Some p1Alone
  ∧ peerSocketMap (stateAfter alone) !! 2 = None
  ∧ peerSocketMap (onMessage 2 (Json joinAgain) Resolves (stateAfter alone)).1
    !! 2 = Some "p1"
  ∧ onMessage 2 (Json joinAgain) Resolves (stateAfter alone)
    = (joinedState 2 "R" "p1" "B" roomAlone (stateAfter alone),
       [Send 2 (JoinRoomResponse (Some "2") 0 [] [])])
  ∧ ¬ refused 2 joinAgain Resolves (stateAfter alone).
Proof.
  assert (Hstep : onMessage 2 (Json joinAgain) Resolves (stateAfter alone)
                  = (joinedState 2 "R" "p1" "B" roomAlone (stateAfter alone),
                     [Send 2 (JoinRoomResponse (Some "2") 0 [] [])])).
  { unfold onMessage.
    change (dispatch 2 joinAgain Resolves)
      with (handleJoinRoom 2 joinAgain Resolves).
    rewrite (handleJoinRoom_existing _ _ _ _ roomAlone)
      by (vm_compute; reflexivity).
    reflexivity. }
  split; [vm_compute; reflexivity|]. split; [vm_compute; reflexivity|].
  split; [vm_compute; reflexivity|].
  split; [rewrite Hstep; vm_compute; reflexivity|].
  split; [exact Hstep|].
  intros [error Hrefused]. rewrite Hstep in Hrefused.
  injection Hrefused as _ Hout. discriminate Hout.
Qed.

(** ** Room liveness (C5) *)




(** In that run the rooms not joined are [X] alone, which is registered with
    no peer, and [R] stores [p2]. *)
Example clientOpensRoom_rooms :
  unjoined clientOpensRoom initialConfig ∅ = {["X"]}
  ∧ peers <$> rooms (registriesAfter (inTurn clientOpensRoom)) !! "X" = Some []
  ∧ map fst <$> (peers <$> rooms (registriesAfter (inTurn clientOpensRoom))
                 !! "R") = Some ["p2"].
Proof. repeat split; vm_compute; reflexivity. Qed.


(** ** Order of the response and the broadcast (C6) *)

Lemma quiet_broadcastAfterResponse ws out :
  Forall quiet out → broadcastAfterResponse ws out.
Proof.
  intros Hq pre ws' f post -> Hf.
  apply Forall_app in Hq as [_ Hq]. inversion Hq as [|? ? Hsend _]; subst.
  simpl in Hsend. congruence.
Qed.

Lemma response_then_broadcast ws pre g rest :
  Forall quiet pre → isNotification g = false →
  broadcastAfterResponse ws (pre ++ Send ws g :: rest).
Proof.
  intros Hq Hg. induction Hq as [|e pre He Hq IH]; intros pre' ws' f post Heq Hf.
  - destruct pre' as [|e' pre']; simpl in Heq.
    + injection Heq as -> -> ->. congruence.
    + injection Heq as <- _. exists g. split; [by left|done].
  - destruct pre' as [|e' pre']; simpl in Heq.
    + injection Heq as -> _. simpl in He. congruence.
    + injection Heq as <- Heq. destruct (IH _ _ _ _ Heq Hf) as (g' & Hin & Hg').
      exists g'. split; [by right|done].
Qed.

Lemma produce_order ws d w s :
  broadcastAfterResponse ws (onMessage ws (Json (typed "produce" d)) w s).2.
Proof.
  unfold onMessage. rewrite dispatch_produce.
  unfold handleProduce. unfold_handler.
  destruct (getPeerFromSocket ws s) as [peer|];
    [|apply quiet_broadcastAfterResponse; by repeat constructor].
  destruct (peer_sendTransport peer) as [t|];
    [|apply quiet_broadcastAfterResponse; by repeat constructor].
  destruct (roomOfPeer peer s) as [room|];
    [|apply quiet_broadcastAfterResponse; by repeat constructor].
  destruct w as [|message]; simpl.
  - destruct (bool_decide (d_kind d = "audio")); simpl.
    + apply (response_then_broadcast ws [_; _]); by repeat constructor.
    + apply (response_then_broadcast ws [_]); by repeat constructor.
  - apply quiet_broadcastAfterResponse; by repeat constructor.
Qed.

Lemma joinRoom_order ws d w s :
  ∃ calls broadcast response,
    (onMessage ws (Json (typed "joinRoom" d)) w s).2
    = calls ++ broadcast ++ [Send ws response]
    ∧ Forall isWorkerCall calls
    ∧ Forall (fun e => ∃ ws', e = Send ws'
                (PeerJoined (d_peerId d) (default "Anonymous" (d_displayName d))))
             broadcast
    ∧ isNotification response = false.
Proof.
  unfold onMessage. rewrite dispatch_joinRoom.
  destruct (rooms s !! d_roomId d) as [room|] eqn:Hr.
  - rewrite (handleJoinRoom_existing _ _ _ _ room) by done. simpl.
    exists []. eexists. eexists. split; [reflexivity|].
    split; [constructor|]. split; [apply notify_sends|done].
  - destruct (inherited (d_roomId d)) eqn:Hi.
    { rewrite handleJoinRoom_inherited by done. simpl.
      exists [], []. eexists. split; [reflexivity|].
      split; [constructor|]. split; [constructor|done]. }
    destruct w as [|message].
    + rewrite handleJoinRoom_absent_resolves by done. simpl.
      exists (createRoomCalls s). eexists. eexists. split; [reflexivity|].
      split; [by repeat constructor|]. split; [apply notify_sends|done].
    + rewrite handleJoinRoom_absent_rejects by done. simpl.
      exists [Call CreateRouter], []. eexists. split; [reflexivity|].
      split; [by repeat constructor|]. split; [constructor|done].
Qed.

(** C6 (as the code behaves).  For [produce], every [newProducer]
    notification is sent after the response was sent on the requesting
    socket.  For [joinRoom] the order is the other way round: the calls made
    are the worker calls that create the room (if any), then the [peerJoined]
    notifications, and the response (or the error frame) on the requesting
    socket comes last. *)
Theorem response_and_broadcast_order (ws : nat) (d : Data) (w : WorkerResult)
    (s : State) :
  broadcastAfterResponse ws (onMessage ws (Json (typed "produce" d)) w s).2
  ∧ ∃ calls broadcast response,
      (onMessage ws (Json (typed "joinRoom" d)) w s).2
      = calls ++ broadcast ++ [Send ws response]
      ∧ Forall isWorkerCall calls
      ∧ Forall (fun e => ∃ ws', e = Send ws'
                  (PeerJoined (d_peerId d)
                     (default "Anonymous" (d_displayName d))))
               broadcast
      ∧ isNotification response = false.
Proof. split; [apply produce_order|apply joinRoom_order]. Qed.

(** C6, counterexample.  Peer [p1] is in room [R] on socket 1; [p2] joins on
    socket 2.  The calls made are [send(peerJoined)] on socket 1 and then
    [send(joinRoomResponse)] on socket 2: the notification is not preceded by
    the response. *)
Lemma joinRoom_broadcast_precedes_response :
  (step (joinRoomMsg 2 "R" "p2" "B" "2")
     (stateAfter [joinRoomMsg 1 "R" "p1" "A" "1"])).2
  = [Send 1 (PeerJoined "p2" "B");
     Send 2 (JoinRoomResponse (Some "2") 0
               [{| pi_id := "p1"; pi_displayName := "A";
                   pi_connectionState := CsConnected |}] [])]
  ∧ ¬ broadcastAfterResponse 2
        (step (joinRoomMsg 2 "R" "p2" "B" "2")
           (stateAfter [joinRoomMsg 1 "R" "p1" "A" "1"])).2.
Proof.
  assert (Hout : (step (joinRoomMsg 2 "R" "p2" "B" "2")
                    (stateAfter [joinRoomMsg 1 "R" "p1" "A" "1"])).2
                 = [Send 1 (PeerJoined "p2" "B");
                    Send 2 (JoinRoomResponse (Some "2") 0
                              [{| pi_id := "p1"; pi_displayName := "A";
                                  pi_connectionState := CsConnected |}] [])])
    by (vm_compute; reflexivity).
  split; [exact Hout|].
  rewrite Hout. intros Hclaim.
  destruct (Hclaim [] 1 (PeerJoined "p2" "B") _ eq_refl eq_refl) as (g & Hin & _).
  destruct Hin.
Qed.

(** ** Requests without a [case] (C7) *)

(** C7 (as the code behaves).  A [setProducerMuted] request has no [case] in
    the [switch]: it falls to [default], is answered with [pong], changes
    nothing and is broadcast to nobody. *)
Theorem setProducerMuted_falls_to_default (ws : nat) (w : WorkerResult)
    (s : State) (reqId : string) (producerId : nat) (muted : bool) :
  onMessage ws
    (Json (withMuted (Some muted)
             (withProducer producerId (request "setProducerMuted" reqId))))
    w s
  = (s, [Send ws (Pong (Some reqId))]).
Proof. reflexivity. Qed.

(** ** Cleanup twice (C8) *)

(** C8.  Running [cleanupPeer] again for the same peer id, after a first run
    has returned, returns at the first lookup: the state is the one the first
    run left and no call is made (no [close()], no [send]). *)
Theorem cleanupPeer_idempotent (peerId : string) (s : State) :
  cleanupPeer peerId (cleanupPeer peerId s).1
  = ((cleanupPeer peerId s).1, []).
Proof.
  assert (Hcases : cleanupPeer peerId s = (s, [])
                   ∨ peerRoomMap (cleanupPeer peerId s).1 !! peerId = None).
  { unfold cleanupPeer.
    destruct (peerRoomMap s !! peerId) as [roomId|]; [|by left].
    destruct (negb (truthy roomId)); [by left|].
    destruct (rooms s !! roomId) as [room|]; [|by left].
    destruct (aget peerId (peers room)) as [peer|]; [|by left].
    right. destruct (length (adel peerId (peers room)) =? 0)%nat;
      simpl; apply lookup_delete_eq. }
  destruct Hcases as [Hsame|Hgone].
  - rewrite Hsame. simpl. exact Hsame.
  - generalize dependent (cleanupPeer peerId s).1. intros s' Hgone.
    unfold cleanupPeer. by rewrite Hgone.
Qed.

(** ** Unparseable frames (C9) *)

(** C9.  A frame that [JSON.parse] rejects is answered with exactly one frame
    [{error: "Invalid JSON"}] on the same socket; the state (registries,
    rooms, peers, worker handles and the readiness of every socket) is left
    as it was, and the frames that follow are handled as if the bad frame had
    not been received.  The server has no call that closes a socket. *)
Theorem invalid_json_non_fatal (ws : nat) (w : WorkerResult) (s : State)
    (rest : list Event) :
  step (WsMessage ws NotJson w) s
  = (s, [Send ws (ErrorFrame None "Invalid JSON")])
  ∧ run (WsMessage ws NotJson w :: rest) s
    = ((run rest s).1,
       Send ws (ErrorFrame None "Invalid JSON") :: (run rest s).2).
Proof.
  split; [reflexivity|].
  simpl. by destruct (run rest s).
Qed.

(** ** Transports (C10) *)

(** C10.  For a bound peer, [createWebRtcTransport] stores the new transport
    in the receive slot exactly when [data.direction] is the string ["recv"],
    and in the send slot for any other or a missing direction;
    [connectWebRtcTransport] calls [connect] on the slot chosen the same way
    (or answers "Transport not found" when that slot is empty), and a
    [transportId] carried by the request changes nothing. *)
Theorem transport_selected_by_direction (ws : nat) (d : Data) (w : WorkerResult)
    (s : State) (peer : MyPeer) (room : MyRoom) :
  getPeerFromSocket ws s = Some peer →
  roomOfPeer peer s = Some room →
  (isRecv d = true ↔ d_direction d = Some "recv")
  ∧ getPeerFromSocket ws
      (onMessage ws (Json (typed "createWebRtcTransport" d)) Resolves s).1
    = Some (if isRecv d then setRecvTransport (nextId (worker s)) peer
            else setSendTransport (nextId (worker s)) peer)
  ∧ (onMessage ws (Json (typed "connectWebRtcTransport" d)) w s).2
    = match (if isRecv d then peer_recvTransport peer
             else peer_sendTransport peer) with
      | Some transport =>
          [Call (TransportConnect transport);
           Send ws match w with
                   | Resolves => ConnectWebRtcTransportResponse (d_reqId d)
                   | Rejects message =>
                       ErrorFrame (d_reqId d)
                         (if truthy message then message
                          else "Internal server error")
                   end]
      | None => [Send ws (ErrorFrame (d_reqId d) "Transport not found")]
      end
  ∧ ∀ transportId,
      onMessage ws
        (Json (typed "connectWebRtcTransport" (withTransportId transportId d)))
        w s
      = onMessage ws (Json (typed "connectWebRtcTransport" d)) w s.
Proof.
  intros Hp Hr. split; [|split; [|split]].
  - unfold isRecv. apply bool_decide_eq_true.
  - unfold onMessage. rewrite dispatch_createWebRtcTransport.
    unfold handleCreateWebRtcTransport. unfold_handler.
    rewrite Hp, Hr. simpl.
    change (isRecv (typed "createWebRtcTransport" d)) with (isRecv d).
    destruct (isRecv d); by apply getPeerFromSocket_updatePeerOf.
  - unfold onMessage. rewrite dispatch_connectWebRtcTransport.
    unfold handleConnectWebRtcTransport. unfold_handler. rewrite Hp.
    change (isRecv (typed "connectWebRtcTransport" d)) with (isRecv d).
    destruct (if isRecv d then _ else _); [|done].
    by destruct w.
  - intros transportId. unfold onMessage.
    rewrite !dispatch_connectWebRtcTransport. reflexivity.
Qed.

(** C10, witness: the client names its receive transport (handle 3) but gives
    no direction; the server connects the send transport (handle 2). *)
Lemma transport_selected_by_direction_witness :
  getPeerFromSocket 1 (stateAfter withTransports) = Some p1WithTransports
  ∧ roomOfPeer p1WithTransports (stateAfter withTransports)
    = Some roomWithTransports
  ∧ (onMessage 1
       (Json (typed "connectWebRtcTransport"
                (withTransportId (Some 3)
                   (request "connectWebRtcTransport" "4"))))
       Resolves (stateAfter withTransports)).2
    = [Call (TransportConnect 2);
       Send 1 (ConnectWebRtcTransportResponse (Some "4"))].
Proof.
  assert (Hp : getPeerFromSocket 1 (stateAfter withTransports)
               = Some p1WithTransports) by (vm_compute; reflexivity).
  assert (Hr : roomOfPeer p1WithTransports (stateAfter withTransports)
               = Some roomWithTransports) by (vm_compute; reflexivity).
  split; [exact Hp|]. split; [exact Hr|].
  exact (proj1 (proj2 (proj2
           (transport_selected_by_direction 1
              (withTransportId (Some 3) (request "connectWebRtcTransport" "4"))
              Resolves (stateAfter withTransports) p1WithTransports
              roomWithTransports Hp Hr)))).
Defined.

(** * Further properties of the server *)

Lemma responsesOf_app out1 out2 :
  responsesOf (out1 ++ out2) = responsesOf out1 ++ responsesOf out2.
Proof.
  induction out1 as [|[ws f|c] out1 IH]; simpl; [done| |done].
  destruct (isNotification f); simpl; by rewrite IH.
Qed.

Lemma responsesOf_notify s cond ps f :
  isNotification f = true → responsesOf (notify s cond ps f) = [].
Proof.
  intros Hf. unfold notify. induction (values ps) as [|p l IH]; simpl; [done|].
  destruct (cond p && isOpen s (peer_ws p)); simpl; [|done]. by rewrite Hf.
Qed.

(** ** One response per request *)

Ltac unfold_handler_in H :=
  unfold hbind, get, send, call, emit, await, modify, newHandle, hret, throw in H.

Ltac shape_done :=
  match goal with H : ?result = _ |- context [?result] => subst result end;
  simpl; rewrite ?responsesOf_app, ?responsesOf_notify by done; simpl;
  eexists; split; [reflexivity|];
  split; [reflexivity|];
  simpl; first [discriminate | intros _; reflexivity].

(** The response to a request: exactly one frame, on the requesting socket,
    echoing [reqId]; and if that frame is an error, the registries are as
    before. *)
Lemma response_shape ws d w s :
  ∃ f, responsesOf (onMessage ws (Json d) w s).2 = [Send ws f]
       ∧ frameReqId f = d_reqId d
       ∧ (isError f = true
          → registries (onMessage ws (Json d) w s).1 = registries s).
Proof.
  remember (onMessage ws (Json d) w s) as result eqn:Hres.
  unfold onMessage, dispatch in Hres.
  destruct (isType d "createRoom").
  { unfold handleCreateRoom in Hres. unfold hbind at 1 in Hres.
    destruct (rooms s !! d_roomId d) as [room|] eqn:Hr.
    - rewrite (createRoom_existing _ _ _ room) in Hres by done. shape_done.
    - destruct (inherited (d_roomId d)) eqn:Hi.
      { rewrite createRoom_inherited in Hres by done. shape_done. }
      destruct w as [|message].
      + rewrite createRoom_absent_resolves in Hres by done. shape_done.
      + rewrite createRoom_absent_rejects in Hres by done. shape_done. }
  destruct (isType d "joinRoom").
  { destruct (rooms s !! d_roomId d) as [room|] eqn:Hr.
    - rewrite (handleJoinRoom_existing _ _ _ _ room) in Hres by done.
      unfold joinedOutput in Hres. shape_done.
    - destruct (inherited (d_roomId d)) eqn:Hi.
      { rewrite handleJoinRoom_inherited in Hres by done. shape_done. }
      destruct w as [|message].
      + rewrite handleJoinRoom_absent_resolves in Hres by done.
        unfold joinedOutput in Hres. shape_done.
      + rewrite handleJoinRoom_absent_rejects in Hres by done. shape_done. }
  destruct (isType d "createWebRtcTransport").
  { unfold handleCreateWebRtcTransport in Hres. unfold_handler_in Hres.
    destruct (getPeerFromSocket ws s) as [peer|]; [|shape_done].
    destruct (roomOfPeer peer s) as [room|]; [|shape_done].
    destruct w; shape_done. }
  destruct (isType d "connectWebRtcTransport").
  { unfold handleConnectWebRtcTransport in Hres. unfold_handler_in Hres.
    destruct (getPeerFromSocket ws s) as [peer|]; [|shape_done].
    destruct (if isRecv d then _ else _); [|shape_done].
    destruct w; shape_done. }
  destruct (isType d "produce").
  { unfold handleProduce in Hres. unfold_handler_in Hres.
    destruct (getPeerFromSocket ws s) as [peer|]; [|shape_done].
    destruct (peer_sendTransport peer); [|shape_done].
    destruct (roomOfPeer peer s) as [room|]; [|shape_done].
    destruct w; [|shape_done].
    destruct (bool_decide (d_kind d = "audio")); shape_done. }
  destruct (isType d "consume").
  { unfold handleConsume in Hres. unfold_handler_in Hres.
    destruct (getPeerFromSocket ws s) as [peer|]; [|shape_done].
    destruct (peer_recvTransport peer); [|shape_done].
    destruct (roomOfPeer peer s) as [room|]; [|shape_done].
    destruct (findProducer _ _) as [[targetPeer myProducer]|]; [|shape_done].
    destruct w; shape_done. }
  destruct (isType d "pauseProducer").
  { unfold handlePauseResume in Hres. unfold_handler_in Hres.
    destruct (getPeerFromSocket ws s) as [peer|]; [|shape_done].
    destruct (aget _ _); [|shape_done].
    destruct w; shape_done. }
  destruct (isType d "resumeProducer").
  { unfold handlePauseResume in Hres. unfold_handler_in Hres.
    destruct (getPeerFromSocket ws s) as [peer|]; [|shape_done].
    destruct (aget _ _); [|shape_done].
    destruct w; shape_done. }
  shape_done.
Qed.

Lemma responsesOf_In ws f out :
  In (Send ws f) out → isNotification f = false →
  In (Send ws f) (responsesOf out).
Proof.
  intros Hin Hf. induction out as [|[ws0 f0|c] out IH]; simpl; [done| |].
  - destruct Hin as [[= -> ->]|Hin].
    + rewrite Hf. by left.
    + destruct (isNotification f0); [by apply IH|right; by apply IH].
  - destruct Hin as [[=]|Hin]. by apply IH.
Qed.


(** X2.  A request that is answered with an error frame leaves [rooms],
    [peerSocketMap] and [peerRoomMap] as they were. *)
Theorem failed_request_leaves_registries (ws : nat) (frame : Frame)
    (w : WorkerResult) (s : State) (reqId : option string) (error : string) :
  In (Send ws (ErrorFrame reqId error)) (onMessage ws frame w s).2 →
  registries (onMessage ws frame w s).1 = registries s.
Proof.
  destruct frame as [| |d]; [done|done|]. intros Hin.
  destruct (response_shape ws d w s) as (f & Hresp & _ & Hsame).
  apply Hsame.
  assert (Hin' : In (Send ws (ErrorFrame reqId error))
                    (responsesOf (onMessage ws (Json d) w s).2))
    by (by apply responsesOf_In).
  rewrite Hresp in Hin'. destruct Hin' as [[= ->]|[]]. done.
Qed.

(** X2, witness: a [produce] request on a socket that never joined. *)
Lemma failed_request_leaves_registries_witness :
  In (Send 7 (ErrorFrame (Some "1") "Peer or transport not found"))
     (onMessage 7 (Json strangerRequest) Resolves (stateAfter twoPeers)).2
  ∧ registries (onMessage 7 (Json strangerRequest) Resolves
                  (stateAfter twoPeers)).1
    = registries (stateAfter twoPeers).
Proof.
  assert (Hin : In (Send 7 (ErrorFrame (Some "1") "Peer or transport not found"))
                   (onMessage 7 (Json strangerRequest) Resolves
                      (stateAfter twoPeers)).2)
    by (vm_compute; left; reflexivity).
  split; [exact Hin|].
  exact (failed_request_leaves_registries 7 (Json strangerRequest) Resolves
           (stateAfter twoPeers) (Some "1") "Peer or transport not found" Hin).
Defined.

(** ** Requests the [switch] does not know, and sockets without a peer *)



(** X4.  On a socket for which [getPeerFromSocket] finds no peer, each of the
    six peer-bound requests is answered with an error frame ("Peer or
    transport not found" for [produce] and [consume], "Peer not found" for
    the others); nothing changes and no worker call is made. *)
Theorem unbound_socket_is_refused (ws : nat) (type : string) (d : Data)
    (w : WorkerResult) (s : State) :
  In type peerBoundTypes →
  getPeerFromSocket ws s = None →
  onMessage ws (Json (typed type d)) w s
  = (s, [Send ws (ErrorFrame (d_reqId d) (noPeerError type))]).
Proof.
  intros Hin Hnone. simpl in Hin.
  destruct Hin as [<-|[<-|[<-|[<-|[<-|[<-|[]]]]]]]; unfold onMessage;
    [change (dispatch ?a ?b ?c) with (handleCreateWebRtcTransport a b c);
     unfold handleCreateWebRtcTransport
    |change (dispatch ?a ?b ?c) with (handleConnectWebRtcTransport a b c);
     unfold handleConnectWebRtcTransport
    |change (dispatch ?a ?b ?c) with (handleProduce a b c);
     unfold handleProduce
    |change (dispatch ?a ?b ?c) with (handleConsume a b c);
     unfold handleConsume
    |change (dispatch ?a ?b ?c) with (handlePauseResume true a b c);
     unfold handlePauseResume
    |change (dispatch ?a ?b ?c) with (handlePauseResume false a b c);
     unfold handlePauseResume];
    unfold_handler; rewrite Hnone; reflexivity.
Qed.

(** X4, witness: socket 7 never joined and asks to produce. *)
Lemma unbound_socket_is_refused_witness :
  In "produce" peerBoundTypes
  ∧ getPeerFromSocket 7 (stateAfter twoPeers) = None
  ∧ onMessage 7 (Json (typed "produce" strangerRequest)) Resolves
      (stateAfter twoPeers)
    = (stateAfter twoPeers,
       [Send 7 (ErrorFrame (Some "1") "Peer or transport not found")]).
Proof.
  assert (Hin : In "produce" peerBoundTypes) by (simpl; tauto).
  assert (Hnone : getPeerFromSocket 7 (stateAfter twoPeers) = None)
    by (vm_compute; reflexivity).
  split; [exact Hin|]. split; [exact Hnone|].
  exact (unbound_socket_is_refused 7 "produce" strangerRequest Resolves
           (stateAfter twoPeers) Hin Hnone).
Defined.

(** ** Transports, producers and consumers *)

(** X5.  A peer that has no send transport cannot produce, whether or not it
    has a receive transport; a peer that has no receive transport cannot
    consume, whether or not it has a send transport; and
    [connectWebRtcTransport] is refused when the slot that the request's
    direction selects is empty.  Each of these requests is answered with an
    error frame, nothing changes and no worker call is made. *)
Theorem no_transport_no_media (ws : nat) (d : Data) (w : WorkerResult)
    (s : State) (peer : MyPeer) :
  getPeerFromSocket ws s = Some peer →
  (peer_sendTransport peer = None →
   onMessage ws (Json (typed "produce" d)) w s
   = (s, [Send ws (ErrorFrame (d_reqId d) "Peer or transport not found")]))
  ∧ (peer_recvTransport peer = None →
     onMessage ws (Json (typed "consume" d)) w s
     = (s, [Send ws (ErrorFrame (d_reqId d) "Peer or transport not found")]))
  ∧ ((if isRecv d then peer_recvTransport peer else peer_sendTransport peer)
     = None →
     onMessage ws (Json (typed "connectWebRtcTransport" d)) w s
     = (s, [Send ws (ErrorFrame (d_reqId d) "Transport not found")])).
Proof.
  intros Hp. unfold onMessage.
  rewrite dispatch_produce, dispatch_consume, dispatch_connectWebRtcTransport.
  unfold handleProduce, handleConsume, handleConnectWebRtcTransport.
  unfold_handler. rewrite Hp.
  split; [|split]; intros Hnone.
  - by rewrite Hnone.
  - by rewrite Hnone.
  - change (isRecv (typed "connectWebRtcTransport" d)) with (isRecv d).
    by rewrite Hnone.
Qed.

(** X5, witness: [p1] has a send transport (handle 2) and no receive
    transport; it cannot consume. *)
Lemma no_transport_no_media_witness :
  getPeerFromSocket 1 (stateAfter inCall) = Some p1InCall
  ∧ peer_sendTransport p1InCall = Some 2
  ∧ peer_recvTransport p1InCall = None
  ∧ onMessage 1 (Json (typed "consume" strangerRequest)) Resolves
      (stateAfter inCall)
    = (stateAfter inCall,
       [Send 1 (ErrorFrame (Some "1") "Peer or transport not found")]).
Proof.
  assert (Hp : getPeerFromSocket 1 (stateAfter inCall) = Some p1InCall)
    by (vm_compute; reflexivity).
  split; [exact Hp|]. split; [reflexivity|]. split; [reflexivity|].
  exact (proj1 (proj2 (no_transport_no_media 1 strangerRequest Resolves
                         (stateAfter inCall) p1InCall Hp)) eq_refl).
Defined.

(** X6.  A [produce] request of a peer with a send transport, once the worker
    resolves, stores a producer record under the new producer's id, unpaused,
    with the request's kind; its source is the request's [source], or, when
    that is missing or empty, ["mic"] for kind ["audio"] and ["webcam"] for
    any other kind.  The worker is asked to produce on the send transport,
    and only an audio producer is added to the room's audio-level observer. *)
Theorem produce_stores_producer (ws : nat) (d : Data) (s : State)
    (peer : MyPeer) (sendTransport : nat) (room : MyRoom) :
  getPeerFromSocket ws s = Some peer →
  peer_sendTransport peer = Some sendTransport →
  roomOfPeer peer s = Some room →
  let source :=
    match d_source d with
    | Some given => if truthy given then given
                    else if bool_decide (d_kind d = "audio") then "mic"
                         else "webcam"
    | None => if bool_decide (d_kind d = "audio") then "mic" else "webcam"
    end in
  let producer := nextId (worker s) in
  let result := onMessage ws (Json (typed "produce" d)) Resolves s in
  getPeerFromSocket ws result.1
  = Some (setProducers
            (mapSet producer
               {| prod_id := producer; prod_source := source;
                  prod_kind := d_kind d; prod_paused := false |}
               (peer_producers peer))
            peer)
  ∧ workerCallsOf result.2
    = TransportProduce sendTransport (d_kind d) source
      :: (if bool_decide (d_kind d = "audio")
          then [ObserverAddProducer (audioLevelObserver room) producer]
          else [])
  ∧ responsesOf result.2 = [Send ws (ProduceResponse (d_reqId d) producer)].
Proof.
  intros Hp Ht Hr source producer result.
  assert (Hsource : source
                    = orElse (d_source d)
                        (if bool_decide (d_kind d = "audio") then "mic"
                         else "webcam")).
  { subst source. unfold orElse. by destruct (d_source d). }
  subst result. unfold onMessage. rewrite dispatch_produce.
  unfold handleProduce. unfold_handler. rewrite Hp, Ht, Hr.
  change (d_kind (typed "produce" d)) with (d_kind d).
  change (d_source (typed "produce" d)) with (d_source d).
  rewrite <- Hsource. clear Hsource.
  assert (Hworkers : ∀ cond f,
            workerCallsOf (notify s cond (peers room) f) = []).
  { intros cond f. unfold notify.
    induction (values (peers room)) as [|p l IH]; simpl; [done|].
    by destruct (cond p && isOpen s (peer_ws p)). }
  destruct (bool_decide (d_kind d = "audio")); simpl;
    rewrite Hworkers, responsesOf_notify by done;
    (split; [|done]);
    by rewrite (getPeerFromSocket_updatePeerOf ws _ (setWorker _ s) peer).
Qed.

(** X6, witness: a video producer without [source]. *)
Lemma produce_stores_producer_witness :
  getPeerFromSocket 1 (stateAfter withTransports) = Some p1WithTransports
  ∧ peer_sendTransport p1WithTransports = Some 2
  ∧ roomOfPeer p1WithTransports (stateAfter withTransports)
    = Some roomWithTransports
  ∧ workerCallsOf
      (onMessage 1 (Json (typed "produce" (withKind "video" None
                                             (request "produce" "4"))))
         Resolves (stateAfter withTransports)).2
    = [TransportProduce 2 "video" "webcam"].
Proof.
  assert (Hp : getPeerFromSocket 1 (stateAfter withTransports)
               = Some p1WithTransports) by (vm_compute; reflexivity).
  assert (Hr : roomOfPeer p1WithTransports (stateAfter withTransports)
               = Some roomWithTransports) by (vm_compute; reflexivity).
  split; [exact Hp|]. split; [reflexivity|]. split; [exact Hr|].
  exact (proj1 (proj2
           (produce_stores_producer 1
              (withKind "video" None (request "produce" "4"))
              (stateAfter withTransports) p1WithTransports 2
              roomWithTransports Hp eq_refl Hr))).
Defined.

Lemma dispatch_pauseProducer ws d w :
  dispatch ws (typed "pauseProducer" d) w
  = handlePauseResume true ws (typed "pauseProducer" d) w.
Proof. reflexivity. Qed.

Lemma dispatch_resumeProducer ws d w :
  dispatch ws (typed "resumeProducer" d) w
  = handlePauseResume false ws (typed "resumeProducer" d) w.
Proof. reflexivity. Qed.

Lemma handlePauseResume_found paused ws d s peer myProducer :
  getPeerFromSocket ws s = Some peer →
  aget (d_producerId d) (peer_producers peer) = Some myProducer →
  handlePauseResume paused ws d Resolves s
  = (inr tt,
     updatePeerOf ws
       (fun p => setProducers
                   (areplace (d_producerId d) (setPaused paused myProducer)
                      (peer_producers p)) p) s,
     [Call (if paused then ProducerPause (prod_id myProducer)
            else ProducerResume (prod_id myProducer));
      Send ws (if paused then PauseProducerResponse (d_reqId d)
               else ResumeProducerResponse (d_reqId d))]).
Proof.
  intros Hp Hm. unfold handlePauseResume. unfold_handler.
  by rewrite Hp, Hm.
Qed.

(** X7.  [pauseProducer] on a producer of the caller asks the worker to pause
    it and, once that resolves, sets the record's [paused] flag;
    [resumeProducer] handled next asks the worker to resume it and clears the
    flag, leaving every other field and every other producer of the peer as
    they were.  If the worker rejects the pause, the flag is not set. *)
Theorem pause_then_resume (ws : nat) (d : Data) (s : State) (peer : MyPeer)
    (myProducer : MyProducer) (message : string) :
  getPeerFromSocket ws s = Some peer →
  aget (d_producerId d) (peer_producers peer) = Some myProducer →
  let paused := onMessage ws (Json (typed "pauseProducer" d)) Resolves s in
  let resumed :=
    onMessage ws (Json (typed "resumeProducer" d)) Resolves paused.1 in
  paused.2 = [Call (ProducerPause (prod_id myProducer));
              Send ws (PauseProducerResponse (d_reqId d))]
  ∧ getPeerFromSocket ws paused.1
    = Some (setProducers
              (areplace (d_producerId d) (setPaused true myProducer)
                 (peer_producers peer)) peer)
  ∧ resumed.2 = [Call (ProducerResume (prod_id myProducer));
                 Send ws (ResumeProducerResponse (d_reqId d))]
  ∧ getPeerFromSocket ws resumed.1
    = Some (setProducers
              (areplace (d_producerId d) (setPaused false myProducer)
                 (peer_producers peer)) peer)
  ∧ onMessage ws (Json (typed "pauseProducer" d)) (Rejects message) s
    = (s, [Call (ProducerPause (prod_id myProducer));
           Send ws (ErrorFrame (d_reqId d)
                      (if truthy message then message
                       else "Internal server error"))]).
Proof.
  intros Hp Hm paused resumed.
  assert (Hpaused : paused
    = (updatePeerOf ws
         (fun p => setProducers
                     (areplace (d_producerId d) (setPaused true myProducer)
                        (peer_producers p)) p) s,
       [Call (ProducerPause (prod_id myProducer));
        Send ws (PauseProducerResponse (d_reqId d))])).
  { subst paused. unfold onMessage. rewrite dispatch_pauseProducer.
    by rewrite (handlePauseResume_found true ws _ s peer myProducer). }
  assert (Hp1 : getPeerFromSocket ws paused.1
                = Some (setProducers
                          (areplace (d_producerId d) (setPaused true myProducer)
                             (peer_producers peer)) peer)).
  { rewrite Hpaused. simpl.
    by rewrite (getPeerFromSocket_updatePeerOf ws _ s peer). }
  assert (Hresumed : resumed
    = (updatePeerOf ws
         (fun p => setProducers
                     (areplace (d_producerId d)
                        (setPaused false (setPaused true myProducer))
                        (peer_producers p)) p) paused.1,
       [Call (ProducerResume (prod_id myProducer));
        Send ws (ResumeProducerResponse (d_reqId d))])).
  { subst resumed. unfold onMessage. rewrite dispatch_resumeProducer.
    rewrite (handlePauseResume_found false ws _ paused.1 _
               (setPaused true myProducer) Hp1); [done|].
    simpl. change (d_producerId (typed "resumeProducer" d)) with (d_producerId d).
    by rewrite aget_areplace, decide_True, Hm. }
  split; [by rewrite Hpaused|]. split; [done|].
  split; [by rewrite Hresumed|]. split.
  - rewrite Hresumed. simpl.
    rewrite (getPeerFromSocket_updatePeerOf ws _ paused.1 _ Hp1). simpl.
    by rewrite areplace_areplace.
  - unfold onMessage. rewrite dispatch_pauseProducer.
    unfold handlePauseResume. unfold_handler.
    change (d_producerId (typed "pauseProducer" d)) with (d_producerId d).
    by rewrite Hp, Hm.
Qed.

(** X7, witness: [p1] pauses and resumes its producer 4. *)
Lemma pause_then_resume_witness :
  getPeerFromSocket 1 (stateAfter producing) = Some p1Producing
  ∧ aget 4 (peer_producers p1Producing)
    = Some {| prod_id := 4; prod_source := "mic"; prod_kind := "audio";
              prod_paused := false |}
  ∧ getPeerFromSocket 1
      (onMessage 1
         (Json (typed "pauseProducer"
                  (withProducer 4 (request "pauseProducer" "6"))))
         Resolves (stateAfter producing)).1
    = Some (setProducers
              [(4, {| prod_id := 4; prod_source := "mic";
                      prod_kind := "audio"; prod_paused := true |})]
              p1Producing).
Proof.
  assert (Hp : getPeerFromSocket 1 (stateAfter producing) = Some p1Producing)
    by (vm_compute; reflexivity).
  split; [exact Hp|]. split; [reflexivity|].
  exact (proj1 (proj2
           (pause_then_resume 1 (withProducer 4 (request "pauseProducer" "6"))
              (stateAfter producing) p1Producing _ EmptyString Hp eq_refl))).
Defined.

(** X8.  [pauseProducer] and [resumeProducer] look the producer up among the
    caller's own producers only: for an id that is not a key of that map
    (unknown, or a producer of another peer) the answer is "Producer not
    found", nothing changes and no worker call is made. *)
Theorem pause_resume_own_producers_only (ws : nat) (d : Data)
    (w : WorkerResult) (s : State) (peer : MyPeer) :
  getPeerFromSocket ws s = Some peer →
  aget (d_producerId d) (peer_producers peer) = None →
  onMessage ws (Json (typed "pauseProducer" d)) w s
  = (s, [Send ws (ErrorFrame (d_reqId d) "Producer not found")])
  ∧ onMessage ws (Json (typed "resumeProducer" d)) w s
    = (s, [Send ws (ErrorFrame (d_reqId d) "Producer not found")]).
Proof.
  intros Hp Hm. unfold onMessage.
  rewrite dispatch_pauseProducer, dispatch_resumeProducer.
  unfold handlePauseResume. unfold_handler.
  change (d_producerId (typed "pauseProducer" d)) with (d_producerId d).
  change (d_producerId (typed "resumeProducer" d)) with (d_producerId d).
  by rewrite Hp, Hm.
Qed.

(** X8, witness: [p1] names a producer it does not have. *)
Lemma pause_resume_own_producers_only_witness :
  getPeerFromSocket 1 (stateAfter producing) = Some p1Producing
  ∧ aget 9 (peer_producers p1Producing) = None
  ∧ onMessage 1
      (Json (typed "pauseProducer"
               (withProducer 9 (request "pauseProducer" "6"))))
      Resolves (stateAfter producing)
    = (stateAfter producing,
       [Send 1 (ErrorFrame (Some "6") "Producer not found")]).
Proof.
  assert (Hp : getPeerFromSocket 1 (stateAfter producing) = Some p1Producing)
    by (vm_compute; reflexivity).
  split; [exact Hp|]. split; [reflexivity|].
  exact (proj1
           (pause_resume_own_producers_only 1
              (withProducer 9 (request "pauseProducer" "6")) Resolves
              (stateAfter producing) p1Producing Hp eq_refl)).
Defined.

Lemma findProducer_none producerId ps :
  (∀ p, In p (values ps) → aget producerId (peer_producers p) = None) →
  findProducer producerId ps = None.
Proof.
  unfold findProducer. rewrite <- fold_left_rev_right. intros Hnone.
  assert (Hrev : ∀ p, In p (rev (values ps))
                      → aget producerId (peer_producers p) = None).
  { intros p Hin. apply Hnone. by apply in_rev. }
  clear Hnone. induction (rev (values ps)) as [|p l IH]; simpl; [done|].
  rewrite (Hrev p) by (by left). apply IH. intros q Hq. apply Hrev. by right.
Qed.

(** X9.  [consume] searches the producers of the peers of the caller's room
    only: when none of them holds the requested id (an unknown id, or a
    producer of a peer in another room) the answer is "Producer not found",
    nothing changes and no worker call is made. *)
Theorem consume_unknown_producer (ws : nat) (d : Data) (w : WorkerResult)
    (s : State) (peer : MyPeer) (recvTransport : nat) (room : MyRoom) :
  getPeerFromSocket ws s = Some peer →
  peer_recvTransport peer = Some recvTransport →
  roomOfPeer peer s = Some room →
  (∀ p, In p (values (peers room))
        → aget (d_producerId d) (peer_producers p) = None) →
  onMessage ws (Json (typed "consume" d)) w s
  = (s, [Send ws (ErrorFrame (d_reqId d) "Producer not found")]).
Proof.
  intros Hp Ht Hr Hnone. unfold onMessage. rewrite dispatch_consume.
  unfold handleConsume. unfold_handler. rewrite Hp, Ht, Hr.
  change (d_producerId (typed "consume" d)) with (d_producerId d).
  by rewrite findProducer_none.
Qed.

(** X9, witness: [p1] asks for a producer nobody in room [R] has. *)
Lemma consume_unknown_producer_witness :
  getPeerFromSocket 1 (stateAfter producing) = Some p1Producing
  ∧ peer_recvTransport p1Producing = Some 3
  ∧ roomOfPeer p1Producing (stateAfter producing)
    = Some (setPeers [("p1", p1Producing)] roomWithTransports)
  ∧ (∀ p, In p (values [("p1", p1Producing)])
          → aget 9 (peer_producers p) = None)
  ∧ onMessage 1
      (Json (typed "consume" (withProducer 9 (request "consume" "12"))))
      Resolves (stateAfter producing)
    = (stateAfter producing,
       [Send 1 (ErrorFrame (Some "12") "Producer not found")]).
Proof.
  assert (Hp : getPeerFromSocket 1 (stateAfter producing) = Some p1Producing)
    by (vm_compute; reflexivity).
  assert (Hr : roomOfPeer p1Producing (stateAfter producing)
               = Some (setPeers [("p1", p1Producing)] roomWithTransports))
    by (vm_compute; reflexivity).
  assert (Hnone : ∀ p, In p (values [("p1", p1Producing)])
                       → aget 9 (peer_producers p) = None).
  { intros p [<-|[]]. reflexivity. }
  split; [exact Hp|]. split; [reflexivity|]. split; [exact Hr|].
  split; [exact Hnone|].
  exact (consume_unknown_producer 1 (withProducer 9 (request "consume" "12"))
           Resolves (stateAfter producing) p1Producing 3 _ Hp eq_refl Hr Hnone).
Defined.

(** ** Cleanup of a peer *)

Lemma cleanupPeer_found peerId roomId room peer s :
  peerRoomMap s !! peerId = Some roomId →
  truthy roomId = true →
  rooms s !! roomId = Some room →
  aget peerId (peers room) = Some peer →
  (cleanupPeer peerId s).1 = cleanedState peerId roomId room peer s.
Proof.
  intros Hm Ht Hr Hp. unfold cleanupPeer, cleanedState.
  rewrite Hm, Ht, Hr, Hp. simpl.
  by destruct (length (adel peerId (peers room)) =? 0)%nat.
Qed.



Lemma closeHandles_closed h hs w :
  In h hs → h ∈ closedSet (closeHandles hs w).
Proof.
  induction hs as [|h0 hs IH]; simpl; [done|].
  intros [->|Hin]; [set_solver|]. specialize (IH Hin). set_solver.
Qed.

Lemma isClosed_of_closedSet w h : h ∈ closedSet w → isClosed w h = true.
Proof.
  intros Hin. unfold isClosed. simpl. by rewrite bool_decide_eq_true_2.
Qed.

(** X11.  When [cleanupPeer] finds the peer, every producer and consumer in
    the peer's maps and the transports in its two slots are closed
    afterwards. *)
Theorem cleanupPeer_closes_handles (peerId roomId : string) (room : MyRoom)
    (peer : MyPeer) (s : State) (h : nat) :
  peerRoomMap s !! peerId = Some roomId →
  truthy roomId = true →
  rooms s !! roomId = Some room →
  aget peerId (peers room) = Some peer →
  In h (handlesOfPeer peer) →
  isClosed (worker (cleanupPeer peerId s).1) h = true.
Proof.
  intros Hm Ht Hr Hp Hin.
  rewrite (cleanupPeer_found _ _ _ _ _ Hm Ht Hr Hp).
  apply isClosed_of_closedSet. unfold cleanedState; simpl.
  pose proof (closeHandles_closed h _ (worker s) Hin) as Hclosed.
  unfold handlesOfPeer in Hclosed.
  destruct (length (adel peerId (peers room)) =? 0)%nat; simpl;
    [set_solver|done].
Qed.

(** X11, witness: the producer of [p1] is closed when [p1] leaves. *)
Lemma cleanupPeer_closes_handles_witness :
  peerRoomMap (stateAfter inCall) !! "p1" = Some "R"
  ∧ truthy "R" = true
  ∧ rooms (stateAfter inCall) !! "R" = Some roomInCall
  ∧ aget "p1" (peers roomInCall) = Some p1InCall
  ∧ In 3 (handlesOfPeer p1InCall)
  ∧ isClosed (worker (cleanupPeer "p1" (stateAfter inCall)).1) 3 = true.
Proof.
  assert (Hm : peerRoomMap (stateAfter inCall) !! "p1" = Some "R")
    by (vm_compute; reflexivity).
  assert (Hr : rooms (stateAfter inCall) !! "R" = Some roomInCall)
    by (vm_compute; reflexivity).
  assert (Hin : In 3 (handlesOfPeer p1InCall)) by (simpl; tauto).
  split; [exact Hm|]. split; [reflexivity|]. split; [exact Hr|].
  split; [reflexivity|]. split; [exact Hin|].
  exact (cleanupPeer_closes_handles "p1" "R" roomInCall p1InCall
           (stateAfter inCall) 3 Hm eq_refl Hr eq_refl Hin).
Defined.

(** ** Invariants of the registries *)



Lemma handlesDistinct_same s s' :
  sameRegistry s s' → handlesDistinct s → handlesDistinct s'.
Proof.
  intros Hsame Hd r1 r2 room1' room2' Hr1' Hr2' Hne.
  destruct (sameRegistry_room _ _ _ _ Hsame Hr1') as (room1 & Hr1 & Hs1).
  destruct (sameRegistry_room _ _ _ _ Hsame Hr2') as (room2 & Hr2 & Hs2).
  injection Hs1 as _ <- <- _. injection Hs2 as _ <- <- _.
  by apply (Hd r1 r2).
Qed.

Lemma handlesDistinct_withNewRoom roomId s :
  wfHandles s → handlesDistinct s → handlesDistinct (withNewRoom roomId s).
Proof.
  intros Hwf Hd r1 r2 room1 room2. simpl. rewrite !lookup_insert.
  case_decide as H1; case_decide as H2.
  - congruence.
  - subst r1. intros [= <-] Hr2 _. simpl.
    destruct (Hwf _ _ Hr2) as (Hrt & Hob & _). lia.
  - subst r2. intros Hr1 [= <-] _. simpl.
    destruct (Hwf _ _ Hr1) as (Hrt & Hob & _). lia.
  - apply Hd.
Qed.

Lemma handlesDistinct_joined ws roomId peerId displayName room s :
  rooms s !! roomId = Some room → handlesDistinct s →
  handlesDistinct (joinedState ws roomId peerId displayName room s).
Proof.
  intros Hr Hd r1 r2 room1 room2. simpl. rewrite !lookup_insert.
  case_decide as H1; case_decide as H2.
  - congruence.
  - subst r1. intros [= <-] Hr2 Hne. simpl. by apply (Hd roomId r2).
  - subst r2. intros Hr1 [= <-] Hne. simpl. by apply (Hd r1 roomId).
  - apply Hd.
Qed.

Lemma handlesDistinct_cleanup peerId s :
  handlesDistinct s → handlesDistinct (cleanupPeer peerId s).1.
Proof.
  intros Hd.
  destruct (cleanupPeer_state peerId s)
    as [->|(roomId & room & gone & Hm & Hr & Hgone & ->)]; [done|].
  intros r1 r2 room1 room2. unfold cleanedState; simpl.
  destruct (length (adel peerId (peers room)) =? 0)%nat.
  - rewrite !lookup_delete. case_decide; [done|]. case_decide; [done|].
    apply Hd.
  - rewrite !lookup_insert. case_decide as H1; case_decide as H2.
    + congruence.
    + subst r1. intros [= <-] Hr2 Hne. simpl. by apply (Hd roomId r2).
    + subst r2. intros Hr1 [= <-] Hne. simpl. by apply (Hd r1 roomId).
    + apply Hd.
Qed.

Lemma handlesDistinct_change e s s' :
  Change e s s' → wfHandles s → handlesDistinct s → handlesDistinct s'.
Proof.
  intros [e0 s0 s1 Hsame|ws d w s0 Ht Hr|ws d w s0 room Ht Hr
         |ws d w s0 Ht Hr|e0 s0 s1 peerId Hsame] Hwf Hd.
  - by eapply handlesDistinct_same.
  - by apply handlesDistinct_withNewRoom.
  - by apply handlesDistinct_joined.
  - apply handlesDistinct_joined;
      [apply lookup_insert_eq|by apply handlesDistinct_withNewRoom].
  - apply handlesDistinct_cleanup. by eapply handlesDistinct_same.
Qed.

(** X13.  In every reachable state, two rooms registered under different ids
    have different routers and different audio-level observers, and the
    router of one is not the observer of the other: [createRoom] never
    reuses a worker object. *)
Theorem rooms_share_no_handle (es : list Event) (roomId1 roomId2 : string)
    (room1 room2 : MyRoom) :
  rooms (stateAfter es) !! roomId1 = Some room1 →
  rooms (stateAfter es) !! roomId2 = Some room2 →
  roomId1 ≠ roomId2 →
  router room1 ≠ router room2
  ∧ audioLevelObserver room1 ≠ audioLevelObserver room2
  ∧ router room1 ≠ audioLevelObserver room2.
Proof.
  revert roomId1 roomId2 room1 room2. fold (handlesDistinct (stateAfter es)).
  unfold stateAfter.
  apply (run_invariant (fun s => wfHandles s ∧ handlesDistinct s)
           (fun _ _ => true)).
  - intros e s [Hwf Hd] _. pose proof (step_change e s) as Hch.
    split; [by eapply wfHandles_change|by eapply handlesDistinct_change].
  - split; [apply wfHandles_initial|].
    intros r1 r2 room1 room2. simpl. by rewrite lookup_empty.
  - apply allowed_always.
Qed.

(** X13, witness: rooms [R1] and [R2]. *)
Lemma rooms_share_no_handle_witness :
  rooms (stateAfter sameIdTwoRooms) !! "R1"
  = Some {| room_id := "R1"; router := 0; audioLevelObserver := 1;
            peers := [("p", connectedPeer 0 "p" "A" 1)] |}
  ∧ rooms (stateAfter sameIdTwoRooms) !! "R2"
    = Some {| room_id := "R2"; router := 2; audioLevelObserver := 3;
              peers := [("p", connectedPeer 1 "p" "A" 2)] |}
  ∧ "R1" ≠ "R2"
  ∧ (0 ≠ 2 ∧ 1 ≠ 3 ∧ 0 ≠ 3)%nat.
Proof.
  assert (H1 : rooms (stateAfter sameIdTwoRooms) !! "R1"
               = Some {| room_id := "R1"; router := 0; audioLevelObserver := 1;
                         peers := [("p", connectedPeer 0 "p" "A" 1)] |})
    by (vm_compute; reflexivity).
  assert (H2 : rooms (stateAfter sameIdTwoRooms) !! "R2"
               = Some {| room_id := "R2"; router := 2; audioLevelObserver := 3;
                         peers := [("p", connectedPeer 1 "p" "A" 2)] |})
    by (vm_compute; reflexivity).
  assert (Hne : "R1" ≠ "R2") by discriminate.
  split; [exact H1|]. split; [exact H2|]. split; [exact Hne|].
  exact (rooms_share_no_handle sameIdTwoRooms "R1" "R2" _ _ H1 H2 Hne).
Defined.

(** X14.  In every reachable state, a room is registered under its own [id]
    and a peer object is stored in [room.peers] under its own [id]. *)
Theorem stored_under_own_id (es : list Event) (roomId : string)
    (room : MyRoom) (k : string) (peer : MyPeer) :
  rooms (stateAfter es) !! roomId = Some room →
  aget k (peers room) = Some peer →
  room_id room = roomId ∧ peer_id peer = k.
Proof.
  intros Hr Hp.
  destruct (reachable_wf (stateAfter es)) as [Hkeys _]; [by eexists|].
  destruct (Hkeys _ _ Hr) as [Hid Hpeers]. split; [done|by apply Hpeers].
Qed.

(** X14, witness: [p1] in room [R]. *)
Lemma stored_under_own_id_witness :
  rooms (stateAfter inCall) !! "R" = Some roomInCall
  ∧ aget "p1" (peers roomInCall) = Some p1InCall
  ∧ room_id roomInCall = "R" ∧ peer_id p1InCall = "p1".
Proof.
  assert (Hr : rooms (stateAfter inCall) !! "R" = Some roomInCall)
    by (vm_compute; reflexivity).
  split; [exact Hr|]. split; [reflexivity|].
  exact (stored_under_own_id inCall "R" roomInCall "p1" p1InCall Hr eq_refl).
Defined.

(** ** Joining and leaving *)

Lemma onMessage_joinRoom_absent ws d s :
  rooms s !! d_roomId d = None → inherited (d_roomId d) = false →
  onMessage ws (Json (typed "joinRoom" d)) Resolves s
  = (joinedState ws (d_roomId d) (d_peerId d)
       (default "Anonymous" (d_displayName d))
       (emptyRoom (d_roomId d) (worker s)) (withNewRoom (d_roomId d) s),
     createRoomCalls s
     ++ joinedOutput ws (typed "joinRoom" d)
          (emptyRoom (d_roomId d) (worker s)) (withNewRoom (d_roomId d) s)).
Proof.
  intros Hr Hi. unfold onMessage. rewrite dispatch_joinRoom.
  by rewrite handleJoinRoom_absent_resolves.
Qed.

Lemma onMessage_joinRoom_existing ws d w s room :
  rooms s !! d_roomId d = Some room →
  onMessage ws (Json (typed "joinRoom" d)) w s
  = (joinedState ws (d_roomId d) (d_peerId d)
       (default "Anonymous" (d_displayName d)) room s,
     joinedOutput ws (typed "joinRoom" d) room s).
Proof.
  intros Hr. unfold onMessage. rewrite dispatch_joinRoom.
  by rewrite (handleJoinRoom_existing _ _ _ _ room).
Qed.

(** X15.  A [joinRoom] with non-empty ids, for a room that is not
    registered and whose id is not the name of a member of
    [Object.prototype], a peer id other than ["__proto__"] that is not bound
    and a socket that is not bound, followed by the close of that socket,
    leaves [rooms], [peerSocketMap] and [peerRoomMap] as they were before the
    join; the only call the close handler makes is [close()] on the router
    the join created, and it notifies nobody. *)
Theorem join_then_close_restores (ws : nat) (d : Data) (s : State) :
  rooms s !! d_roomId d = None →
  inherited (d_roomId d) = false →
  plainPeer (d_peerId d) = true →
  peerSocketMap s !! ws = None →
  peerRoomMap s !! d_peerId d = None →
  truthy (d_roomId d) = true →
  truthy (d_peerId d) = true →
  let joined := onMessage ws (Json (typed "joinRoom" d)) Resolves s in
  let closed := onClose ws joined.1 in
  registries closed.1 = registries s
  ∧ closed.2 = [Call (RouterClose (nextId (worker s)))].
Proof.
  intros Hr Hi Hplain Hs Hm Htr Htp joined closed. subst closed joined.
  rewrite onMessage_joinRoom_absent by done.
  unfold onClose, joinedState; simpl.
  rewrite lookup_insert_eq, Htp.
  unfold cleanupPeer; simpl.
  rewrite !lookup_insert_eq, Htr. simpl.
  destruct (decide (d_peerId d = d_peerId d)); [|done]. simpl.
  split; [|done]. unfold registries; simpl.
  by rewrite !delete_insert_eq, !delete_id by done.
Qed.

(** X15, witness: the first peer of a fresh server joins and leaves. *)
Lemma join_then_close_restores_witness :
  rooms initialState !! "R" = None
  ∧ inherited "R" = false
  ∧ plainPeer "p1" = true
  ∧ peerSocketMap initialState !! 1 = None
  ∧ peerRoomMap initialState !! "p1" = None
  ∧ truthy "R" = true
  ∧ truthy "p1" = true
  ∧ registries
      (onClose 1
         (onMessage 1
            (Json (typed "joinRoom"
                     (withPeer "p1" None
                        (withRoom "R" (request "joinRoom" "1")))))
            Resolves initialState).1).1
    = registries initialState.
Proof.
  split; [reflexivity|]. split; [reflexivity|]. split; [reflexivity|].
  split; [reflexivity|]. split; [reflexivity|]. split; [reflexivity|].
  split; [reflexivity|].
  exact (proj1
           (join_then_close_restores 1
              (withPeer "p1" None (withRoom "R" (request "joinRoom" "1")))
              initialState eq_refl eq_refl eq_refl eq_refl eq_refl eq_refl
              eq_refl)).
Defined.

Lemma peerHome_falsy ws s peerId roomId :
  peerSocketMap s !! ws = Some peerId →
  peerRoomMap s !! peerId = Some roomId →
  truthy peerId = false ∨ truthy roomId = false →
  peerHome ws s = None.
Proof.
  intros Hs Hm Hf. unfold peerHome. rewrite Hs.
  destruct (truthy peerId); [|done]. simpl. rewrite Hm.
  destruct Hf as [Hf|Hf]; [done|]. by rewrite Hf.
Qed.

(** X16.  The peer id and the room id are tested for truthiness.  Take a
    [joinRoom] whose peer id or room id is the empty string, whose room id
    is not the name of a member of [Object.prototype] and whose peer id is
    not ["__proto__"]: the peer is stored in the room, but
    [getPeerFromSocket] finds no peer for its socket (every peer-bound
    request on it is refused), and the close of the socket removes nothing:
    the peer object stays in the room. *)
Theorem empty_id_peer_is_never_removed (ws : nat) (d : Data) (s : State) :
  truthy (d_peerId d) = false ∨ truthy (d_roomId d) = false →
  inherited (d_roomId d) = false →
  plainPeer (d_peerId d) = true →
  let joined := (onMessage ws (Json (typed "joinRoom" d)) Resolves s).1 in
  (∃ room, rooms joined !! d_roomId d = Some room
           ∧ aget (d_peerId d) (peers room)
             = Some (connectedPeer (nextOid s) (d_peerId d)
                       (default "Anonymous" (d_displayName d)) ws))
  ∧ getPeerFromSocket ws joined = None
  ∧ registries (onClose ws joined).1 = registries joined
  ∧ (onClose ws joined).2 = [].
Proof.
  intros Hf Hi Hplain joined.
  assert (Hjoined : ∃ room s0,
            joined = joinedState ws (d_roomId d) (d_peerId d)
                       (default "Anonymous" (d_displayName d)) room s0
            ∧ nextOid s0 = nextOid s).
  { subst joined. destruct (rooms s !! d_roomId d) as [room|] eqn:Hr.
    - rewrite (onMessage_joinRoom_existing _ _ _ _ room) by done.
      by eexists _, _.
    - rewrite onMessage_joinRoom_absent by done. by eexists _, _. }
  destruct Hjoined as (room & s0 & -> & Hoid).
  assert (Hs : peerSocketMap
                 (joinedState ws (d_roomId d) (d_peerId d)
                    (default "Anonymous" (d_displayName d)) room s0) !! ws
               = Some (d_peerId d)) by apply lookup_insert_eq.
  assert (Hm : peerRoomMap
                 (joinedState ws (d_roomId d) (d_peerId d)
                    (default "Anonymous" (d_displayName d)) room s0)
                 !! d_peerId d
               = Some (d_roomId d)) by apply lookup_insert_eq.
  split.
  { eexists. split; [apply lookup_insert_eq|]. simpl.
    by rewrite aget_objSet, decide_True, Hoid. }
  split.
  { unfold getPeerFromSocket. by rewrite (peerHome_falsy _ _ _ _ Hs Hm Hf). }
  unfold onClose.
  change (peerSocketMap {| rooms := ?r; peerSocketMap := ?m; peerRoomMap := ?p;
                           worker := ?w; notOpen := ?n; nextOid := ?o |})
    with m.
  rewrite Hs.
  destruct (truthy (d_peerId d)) eqn:Htp; [|done].
  destruct Hf as [Hf|Hf]; [done|].
  unfold cleanupPeer.
  change (peerRoomMap {| rooms := ?r; peerSocketMap := ?m; peerRoomMap := ?p;
                         worker := ?w; notOpen := ?n; nextOid := ?o |})
    with p.
  by rewrite Hm, Hf.
Qed.

(** X16, witness: a peer joins room [R] with an empty peer id. *)
Lemma empty_id_peer_is_never_removed_witness :
  (truthy (d_peerId joinNameless) = false
   ∨ truthy (d_roomId joinNameless) = false)
  ∧ inherited (d_roomId joinNameless) = false
  ∧ plainPeer (d_peerId joinNameless) = true
  ∧ getPeerFromSocket 1
      (onMessage 1 (Json (typed "joinRoom" joinNameless)) Resolves
         initialState).1
    = None
  ∧ (onClose 1
       (onMessage 1 (Json (typed "joinRoom" joinNameless)) Resolves
          initialState).1).2
    = [].
Proof.
  assert (Hf : truthy (d_peerId joinNameless) = false
               ∨ truthy (d_roomId joinNameless) = false) by (left; reflexivity).
  split; [exact Hf|]. split; [reflexivity|]. split; [reflexivity|].
  pose proof (empty_id_peer_is_never_removed 1 joinNameless initialState Hf
                eq_refl eq_refl)
    as (_ & Hnone & _ & Hout).
  split; [exact Hnone|exact Hout].
Defined.

Lemma onMessage_createRoom_existing ws d w s room :
  rooms s !! d_roomId d = Some room →
  onMessage ws (Json (typed "createRoom" d)) w s
  = (s, [Send ws (CreateRoomResponse (d_reqId d))]).
Proof.
  intros Hr. unfold onMessage.
  change (dispatch ?a ?b ?c) with (handleCreateRoom a b c).
  unfold handleCreateRoom, hbind.
  change (d_roomId (typed "createRoom" d)) with (d_roomId d).
  by rewrite (createRoom_existing _ _ _ room).
Qed.

Lemma onMessage_createRoom_absent ws d s :
  rooms s !! d_roomId d = None → inherited (d_roomId d) = false →
  onMessage ws (Json (typed "createRoom" d)) Resolves s
  = (withNewRoom (d_roomId d) s,
     createRoomCalls s ++ [Send ws (CreateRoomResponse (d_reqId d))]).
Proof.
  intros Hr Hi. unfold onMessage.
  change (dispatch ?a ?b ?c) with (handleCreateRoom a b c).
  unfold handleCreateRoom, hbind.
  change (d_roomId (typed "createRoom" d)) with (d_roomId d).
  by rewrite createRoom_absent_resolves.
Qed.

Lemma onMessage_createRoom_inherited ws d w s :
  rooms s !! d_roomId d = None → inherited (d_roomId d) = true →
  onMessage ws (Json (typed "createRoom" d)) w s
  = (s, [Send ws (CreateRoomResponse (d_reqId d))]).
Proof.
  intros Hr Hi. unfold onMessage.
  change (dispatch ?a ?b ?c) with (handleCreateRoom a b c).
  unfold handleCreateRoom, hbind.
  change (d_roomId (typed "createRoom" d)) with (d_roomId d).
  by rewrite createRoom_inherited.
Qed.

Lemma onMessage_joinRoom_inherited ws d w s :
  rooms s !! d_roomId d = None → inherited (d_roomId d) = true →
  onMessage ws (Json (typed "joinRoom" d)) w s
  = (s, [Send ws (ErrorFrame (d_reqId d) (cannotSet (d_peerId d)))]).
Proof.
  intros Hr Hi. unfold onMessage. rewrite dispatch_joinRoom.
  by rewrite handleJoinRoom_inherited.
Qed.

(** X17.  [createRoom] is idempotent.  For a room id that is not the name
    of a member of [Object.prototype]: once a [createRoom] request whose
    worker calls resolve has been handled the room is registered, a second
    request for the same id, on any socket, makes no worker call and changes
    nothing, and both are answered with [createRoomResponse]; a [joinRoom]
    for that id then joins the room with the router the first request
    created. *)
Theorem createRoom_twice (ws1 ws2 ws3 : nat) (roomId : string)
    (d1 d2 d3 : Data) (w2 w3 : WorkerResult) (s : State) :
  inherited roomId = false →
  let first :=
    onMessage ws1 (Json (typed "createRoom" (withRoom roomId d1))) Resolves s in
  let second :=
    onMessage ws2 (Json (typed "createRoom" (withRoom roomId d2))) w2 first.1 in
  let joined :=
    onMessage ws3 (Json (typed "joinRoom" (withRoom roomId d3))) w3 first.1 in
  (∃ room, rooms first.1 !! roomId = Some room
           ∧ second = (first.1, [Send ws2 (CreateRoomResponse (d_reqId d2))])
           ∧ workerCallsOf joined.2 = []
           ∧ ∃ room', rooms joined.1 !! roomId = Some room'
                      ∧ router room' = router room
                      ∧ audioLevelObserver room'
                        = audioLevelObserver room)
  ∧ responsesOf first.2 = [Send ws1 (CreateRoomResponse (d_reqId d1))].
Proof.
  intros Hi first second joined.
  assert (Hfirst : ∃ room, rooms first.1 !! roomId = Some room
                           ∧ responsesOf first.2
                             = [Send ws1 (CreateRoomResponse (d_reqId d1))]).
  { subst first. destruct (rooms s !! roomId) as [room|] eqn:Hr.
    - rewrite (onMessage_createRoom_existing _ _ _ _ room) by done.
      by exists room.
    - rewrite onMessage_createRoom_absent by done.
      eexists. split; [apply lookup_insert_eq|reflexivity]. }
  destruct Hfirst as (room & Hr & Hresp). split; [|done].
  exists room. split; [done|]. split.
  { subst second.
    by rewrite (onMessage_createRoom_existing _ _ _ _ room). }
  subst joined.
  rewrite (onMessage_joinRoom_existing _ _ _ _ room) by done.
  split.
  { unfold joinedOutput. simpl.
    match goal with |- workerCallsOf (notify ?s0 ?c ?ps ?f ++ _) = _ =>
      generalize (notify_sends s0 c ps f); generalize (notify s0 c ps f) end.
    intros l Hl. induction Hl as [|e l [ws' ->] _ IH]; simpl; [done|exact IH]. }
  eexists. split; [apply lookup_insert_eq|]. done.
Qed.

(** X17, witness: room [R] is asked for twice on a fresh server. *)
Lemma createRoom_twice_witness :
  inherited "R" = false
  ∧ onMessage 2 (Json (typed "createRoom" (withRoom "R" noFields))) Resolves
      (onMessage 1 (Json (typed "createRoom" (withRoom "R" noFields)))
         Resolves initialState).1
    = ((onMessage 1 (Json (typed "createRoom" (withRoom "R" noFields)))
          Resolves initialState).1,
       [Send 2 (CreateRoomResponse None)]).
Proof.
  split; [reflexivity|].
  destruct (createRoom_twice 1 2 3 "R" noFields noFields noFields Resolves
              Resolves initialState eq_refl)
    as [(room & _ & Hsecond & _) _].
  exact Hsecond.
Defined.

Lemma observerRejected_createRoom ws d message sv :
  rooms (current sv) !! d_roomId d = None →
  inherited (d_roomId d) = false →
  runA (observerRejected ws (Json (typed "createRoom" d)) message)
    {| server := sv; waiting := [] |}
  = ({| server := {| current := setWorker (allocHandle None
                                             (worker (current sv))).2
                                  (current sv);
                     detached := detached sv |};
        waiting := [] |},
     [Call CreateRouter;
      Call (CreateAudioLevelObserver (nextId (worker (current sv))));
      Send ws (ErrorFrame (d_reqId d)
                 (if truthy message then message
                  else "Internal server error"))]).
Proof.
  intros Hr Hi. unfold observerRejected, runA, stepA, onMessageA.
  change (dispatchA ?a ?b) with (handleCreateRoomA a b).
  unfold handleCreateRoomA, awaitCall, createRoomA, abind, sync.
  unfold_handler. simpl. rewrite Hr, Hi. simpl. reflexivity.
Qed.

Lemma observerRejected_joinRoom ws d message sv :
  rooms (current sv) !! d_roomId d = None →
  inherited (d_roomId d) = false →
  runA (observerRejected ws (Json (typed "joinRoom" d)) message)
    {| server := sv; waiting := [] |}
  = ({| server := {| current := setWorker (allocHandle None
                                             (worker (current sv))).2
                                  (current sv);
                     detached := detached sv |};
        waiting := [] |},
     [Call CreateRouter;
      Call (CreateAudioLevelObserver (nextId (worker (current sv))));
      Send ws (ErrorFrame (d_reqId d)
                 (if truthy message then message
                  else "Internal server error"))]).
Proof.
  intros Hr Hi. unfold observerRejected, runA, stepA, onMessageA.
  change (dispatchA ?a ?b) with (handleJoinRoomA a b).
  unfold handleJoinRoomA, awaitCall, createRoomA, abind, sync.
  unfold_handler. simpl. rewrite Hr, Hi. simpl. reflexivity.
Qed.

(** X18.  When the worker rejects [createRouter], a [createRoom] or
    [joinRoom] request for a room id that is not registered, and is not the
    name of a member of [Object.prototype], registers nothing: the state is
    unchanged, no peer is created, nobody is notified, and the answer is an
    error frame carrying the worker's message ("Internal server error" when
    the message is empty).  When [createRouter] resolves and
    [createAudioLevelObserver] rejects, the answer is the same and the
    registries are unchanged as well; the router has been made, and no call
    closes it. *)
Theorem rejected_createRouter_registers_nothing (ws : nat) (d : Data)
    (message : string) (s : State) :
  rooms s !! d_roomId d = None →
  inherited (d_roomId d) = false →
  let answer :=
    Send ws (ErrorFrame (d_reqId d)
               (if truthy message then message
                else "Internal server error")) in
  onMessage ws (Json (typed "createRoom" d)) (Rejects message) s
  = (s, [Call CreateRouter; answer])
  ∧ onMessage ws (Json (typed "joinRoom" d)) (Rejects message) s
    = (s, [Call CreateRouter; answer])
  ∧ ∀ type dt,
      type = "createRoom" ∨ type = "joinRoom" →
      runA (observerRejected ws (Json (typed type d)) message)
        {| server := {| current := s; detached := dt |}; waiting := [] |}
      = ({| server := {| current := setWorker
                                      (allocHandle None (worker s)).2 s;
                         detached := dt |};
            waiting := [] |},
         [Call CreateRouter;
          Call (CreateAudioLevelObserver (nextId (worker s)));
          answer]).
Proof.
  intros Hr Hi answer. unfold onMessage. split; [|split].
  - change (dispatch ?a ?b ?c) with (handleCreateRoom a b c).
    unfold handleCreateRoom. unfold hbind at 1.
    change (d_roomId (typed "createRoom" d)) with (d_roomId d).
    by rewrite createRoom_absent_rejects.
  - rewrite dispatch_joinRoom. by rewrite handleJoinRoom_absent_rejects.
  - intros type dt [->| ->].
    + by apply (observerRejected_createRoom ws d message
                  {| current := s; detached := dt |}).
    + by apply (observerRejected_joinRoom ws d message
                  {| current := s; detached := dt |}).
Qed.

(** X18, witness: the worker is down when the first room is asked for. *)
Lemma rejected_createRouter_registers_nothing_witness :
  rooms initialState !! d_roomId (withRoom "R" (request "joinRoom" "1")) = None
  ∧ onMessage 1
      (Json (typed "joinRoom" (withRoom "R" (request "joinRoom" "1"))))
      (Rejects "worker died") initialState
    = (initialState,
       [Call CreateRouter; Send 1 (ErrorFrame (Some "1") "worker died")]).
Proof.
  split; [reflexivity|].
  exact (proj1 (proj2
           (rejected_createRouter_registers_nothing 1
              (withRoom "R" (request "joinRoom" "1")) "worker died"
              initialState eq_refl eq_refl))).
Defined.

(** ** Notifications and the readiness of sockets *)

Lemma toOpenOnly_notify closed s cond ps f :
  notOpen s = closed → toOpenOnly closed (notify s cond ps f).
Proof.
  intros Hs. unfold toOpenOnly, notify.
  induction (values ps) as [|p l IH]; simpl; [constructor|].
  destruct (cond p) eqn:Hc; simpl; [|done].
  unfold isOpen at 1. destruct (bool_decide (peer_ws p ∈ notOpen s)) eqn:Ho;
    simpl; [done|].
  constructor; [|done]. intros _. rewrite <- Hs.
  by apply bool_decide_eq_false in Ho.
Qed.

Lemma toOpenOnly_app closed out1 out2 :
  toOpenOnly closed out1 → toOpenOnly closed out2 →
  toOpenOnly closed (out1 ++ out2).
Proof. intros H1 H2. by apply Forall_app. Qed.

Lemma toOpenOnly_response closed ws f :
  isNotification f = false → toOpenOnly closed [Send ws f].
Proof. intros Hf. constructor; [|constructor]. simpl. congruence. Qed.

Lemma toOpenOnly_call closed c : toOpenOnly closed [Call c].
Proof. by repeat constructor. Qed.

Lemma polite_ret {A} closed (a : A) : polite closed (hret a).
Proof. intros s Hs. split; [done|constructor]. Qed.

Lemma polite_throw {A} closed message : polite closed (@throw A message).
Proof. intros s Hs. split; [done|constructor]. Qed.

Lemma polite_emit closed out : toOpenOnly closed out → polite closed (emit out).
Proof. intros Hout s Hs. by split. Qed.

Lemma polite_await closed w : polite closed (await w).
Proof. destruct w; [apply polite_ret|apply polite_throw]. Qed.

Lemma polite_newHandle closed owner : polite closed (newHandle owner).
Proof. intros s Hs. split; [done|constructor]. Qed.

Lemma polite_modify closed f :
  (∀ s, notOpen (f s) = notOpen s) → polite closed (modify f).
Proof. intros Hf s Hs. split; [simpl; by rewrite Hf|constructor]. Qed.

Lemma polite_bind {A B} closed (m : Handler A) (k : A → Handler B) :
  polite closed m → (∀ a, polite closed (k a)) → polite closed (hbind m k).
Proof.
  intros Hm Hk s Hs. unfold hbind. destruct (Hm s Hs) as [Hs1 Ho1].
  destruct (m s) as [[[e|a] s1] out1]; simpl in *; [done|].
  destruct (Hk a s1 Hs1) as [Hs2 Ho2].
  destruct (k a s1) as [[r s2] out2]; simpl in *.
  split; [done|by apply toOpenOnly_app].
Qed.

Lemma polite_get_then {B} closed (k : State → Handler B) :
  (∀ s, notOpen s = closed → polite closed (k s)) →
  polite closed (hbind get k).
Proof.
  intros Hk s Hs. unfold hbind, get. destruct (Hk s Hs s Hs) as [Hs2 Ho2].
  destruct (k s s) as [[r s2] out2]; simpl in *. by split.
Qed.

Lemma notOpen_updatePeerAt roomId peerId f s :
  notOpen (updatePeerAt roomId peerId f s) = notOpen s.
Proof. unfold updatePeerAt. by repeat case_match. Qed.

Ltac polite_step :=
  first
    [ apply polite_get_then; intros ? ?
    | apply polite_bind; [|intros ?]
    | apply polite_ret | apply polite_throw | apply polite_await
    | apply polite_newHandle
    | apply polite_emit;
      first [ by apply toOpenOnly_notify
            | apply toOpenOnly_call
            | apply toOpenOnly_response; by repeat case_match ]
    | apply polite_modify; intros ?;
      first [ apply notOpen_updatePeerOf | apply notOpen_updatePeerAt
            | reflexivity ]
    | match goal with
      | |- polite _ (match ?x with _ => _ end) => destruct x
      | |- polite _ (let _ := _ in _) => cbv zeta
      end ].

Ltac polite_auto := unfold send, call; repeat polite_step.

Lemma polite_createRoom closed roomId w : polite closed (createRoom roomId w).
Proof. unfold createRoom. polite_auto. Qed.

Lemma polite_dispatch closed ws d w : polite closed (dispatch ws d w).
Proof.
  unfold dispatch.
  repeat match goal with |- polite _ (if ?b then _ else _) => destruct b end.
  - unfold handleCreateRoom.
    apply polite_bind; [apply polite_createRoom|intros ?]. polite_auto.
  - unfold handleJoinRoom, createPeer. cbv zeta.
    apply polite_bind; [apply polite_createRoom|intros ?].
    apply polite_bind.
    { apply polite_bind; [apply polite_createRoom|intros ?]. polite_auto. }
    intros ?. polite_auto.
  - unfold handleCreateWebRtcTransport. polite_auto.
  - unfold handleConnectWebRtcTransport. polite_auto.
  - unfold handleProduce. polite_auto.
  - unfold handleConsume. polite_auto.
  - unfold handlePauseResume. polite_auto.
  - unfold handlePauseResume. polite_auto.
  - polite_auto.
Qed.

Lemma toOpenOnly_cleanupPeer peerId s :
  notOpen (cleanupPeer peerId s).1 = notOpen s
  ∧ toOpenOnly (notOpen s) (cleanupPeer peerId s).2.
Proof.
  unfold cleanupPeer.
  destruct (peerRoomMap s !! peerId) as [roomId|]; [|by split; [|constructor]].
  destruct (negb (truthy roomId)); [by split; [|constructor]|].
  destruct (rooms s !! roomId) as [room|]; [|by split; [|constructor]].
  destruct (aget peerId (peers room)) as [peer|]; [|by split; [|constructor]].
  assert (Hproducers :
            toOpenOnly (notOpen s)
              (flat_map (fun myProducer =>
                           Call (ProducerClose (prod_id myProducer))
                           :: notify s (isNot peerId) (peers room)
                                (ProducerClosed peerId (prod_id myProducer)))
                        (values (peer_producers peer)))).
  { induction (values (peer_producers peer)) as [|p l IH]; simpl;
      [constructor|].
    constructor; [done|]. apply toOpenOnly_app; [|done].
    by apply toOpenOnly_notify. }
  assert (Hcalls : ∀ (A : Type) (g : A → WorkerCall) (l : list A),
            toOpenOnly (notOpen s) (map (fun a => Call (g a)) l)).
  { intros A g l. induction l; simpl; by constructor. }
  destruct (length (adel peerId (peers room)) =? 0)%nat; simpl;
    (split; [done|]);
    repeat apply toOpenOnly_app;
    try done; try apply Hcalls; try (by apply toOpenOnly_notify).
  apply toOpenOnly_call.
Qed.

(** X19.  Whatever the event, every notification the server sends in
    reaction to it goes to a socket whose [readyState] is [OPEN]; in
    particular the close handler of a socket never notifies that socket. *)
Theorem notifications_go_to_open_sockets (e : Event) (s : State) (ws : nat)
    (f : OutFrame) :
  toOpenOnly (notOpen (step e s).1) (step e s).2
  ∧ (isNotification f = true → ¬ In (Send ws f) (step (WsClose ws) s).2).
Proof.
  assert (Hmain : ∀ e, toOpenOnly (notOpen (step e s).1) (step e s).2).
  { clear e. intros e.
    destruct e as [ws0 [| |d] w|ws0|roomId routerId loudest
                  |roomId routerId peerId peerOid producerId
                  |roomId routerId peerId peerOid producerId]; unfold step.
    - by apply toOpenOnly_response.
    - constructor.
    - unfold onMessage.
      destruct (polite_dispatch (notOpen s) ws0 d w s eq_refl) as [Hs Ho].
      destruct (dispatch ws0 d w s) as [[[message|a] s'] out]; simpl in *;
        rewrite Hs; [|done].
      apply toOpenOnly_app; [done|]. by apply toOpenOnly_response.
    - unfold onClose.
      set (s0 := {| rooms := rooms s; peerSocketMap := peerSocketMap s;
                    peerRoomMap := peerRoomMap s; worker := worker s;
                    notOpen := {[ws0]} ∪ notOpen s; nextOid := nextOid s |}).
      change (peerSocketMap s0 !! ws0) with (peerSocketMap s !! ws0).
      destruct (peerSocketMap s !! ws0) as [peerId|]; [|constructor].
      destruct (truthy peerId); [|constructor].
      destruct (toOpenOnly_cleanupPeer peerId s0) as [Hs Ho]. by rewrite Hs.
    - unfold onVolumes. destruct (liveRoom roomId routerId s); [|constructor].
      destruct loudest as [[peerId volume]|]; [|constructor].
      by apply toOpenOnly_notify.
    - unfold onProducerTransportClose.
      destruct (liveRoom roomId routerId s); [|constructor]. simpl.
      unfold updateObject. rewrite notOpen_updatePeerAt.
      by apply toOpenOnly_notify.
    - unfold onConsumerEnded.
      destruct (liveRoom roomId routerId s); constructor. }
  split; [apply Hmain|].
  intros Hf Hin. specialize (Hmain (WsClose ws)). unfold toOpenOnly in Hmain.
  rewrite Forall_forall in Hmain. rewrite <- list_elem_of_In in Hin.
  specialize (Hmain _ Hin Hf). apply Hmain. clear.
  unfold step, onClose.
  set (s0 := {| rooms := rooms s; peerSocketMap := peerSocketMap s;
                peerRoomMap := peerRoomMap s; worker := worker s;
                notOpen := {[ws]} ∪ notOpen s; nextOid := nextOid s |}).
  assert (Hin : ws ∈ notOpen s0) by (simpl; set_solver).
  change (peerSocketMap s0 !! ws) with (peerSocketMap s !! ws).
  destruct (peerSocketMap s !! ws) as [peerId|]; [|done].
  destruct (truthy peerId); [|done].
  by rewrite (proj1 (toOpenOnly_cleanupPeer peerId s0)).
Qed.




(** ** The snapshot a joiner receives *)




















(** ** Handlers one at a time, and handlers that overlap *)

(** X28.  The handlers with their [await]s, run so that every promise a
    handler awaits is settled before the next event is handled, leave the
    registries that [run] computes and make the same calls in the same
    order; no handler is left waiting. *)
Theorem handlers_in_turn_agree_with_run (es : list Event) :
  registriesAfter (inTurn es) = stateAfter es
  ∧ (runA (inTurn es) initialConfig).2 = (run es initialState).2
  ∧ waiting (runA (inTurn es) initialConfig).1 = [].
Proof.
  destruct (runA_inTurn es initialConfig atRest_initial) as (Hs & Hout & Hw & _).
  done.
Qed.

(** X29.  Two [joinRoom] frames for a room that is not registered, the
    second arriving while the handler of the first waits for its router:
    both handlers make a router, the first registers its room and stores
    [p1] in it, and the second overwrites the registration.  [peerRoomMap]
    then binds [p1] to a room that stores [p2] only, and [p2] was told that
    the room has no other peer. *)
Theorem overlapping_joins_lose_a_peer :
  peerRoomMap (registriesAfter overlappingJoinsOneRoom) !! "p1" = Some "R"
  ∧ rooms (registriesAfter overlappingJoinsOneRoom) !! "R"
    = Some {| room_id := "R"; router := 1; audioLevelObserver := 3;
              peers := [("p2", connectedPeer 1 "p2" "B" 2)] |}
  ∧ (runA overlappingJoinsOneRoom initialConfig).2
    = [Call CreateRouter; Call CreateRouter;
       Call (CreateAudioLevelObserver 0);
       Call (CreateAudioLevelObserver 1);
       Send 1 (JoinRoomResponse (Some "1") 0 [] []);
       Send 2 (JoinRoomResponse (Some "2") 1 [] [])].
Proof. repeat split; vm_compute; reflexivity. Qed.

(** X30.  A room id that is the name of a member of [Object.prototype] is
    never registered.  In a reachable state, [createRoom] for such an id
    answers [createRoomResponse] without a call to the worker, and
    [joinRoom] is answered with the message of the [TypeError] that
    [createPeer] throws; neither changes the state. *)
Theorem inherited_room_id_is_never_registered (es : list Event) (ws : nat)
    (d : Data) (w : WorkerResult) :
  inherited (d_roomId d) = true →
  rooms (stateAfter es) !! d_roomId d = None
  ∧ onMessage ws (Json (typed "createRoom" d)) w (stateAfter es)
    = (stateAfter es, [Send ws (CreateRoomResponse (d_reqId d))])
  ∧ onMessage ws (Json (typed "joinRoom" d)) w (stateAfter es)
    = (stateAfter es,
       [Send ws (ErrorFrame (d_reqId d) (cannotSet (d_peerId d)))]).
Proof.
  intros Hi.
  assert (Hr : rooms (stateAfter es) !! d_roomId d = None).
  { destruct (rooms (stateAfter es) !! d_roomId d) as [room|] eqn:Hr; [|done].
    pose proof (reachable_plainRooms es _ _ Hr). congruence. }
  split; [done|]. split.
  - by apply onMessage_createRoom_inherited.
  - by apply onMessage_joinRoom_inherited.
Qed.

(** X30, witness: the room id ["constructor"], after [p1] and [p2] have
    joined room [R]. *)
Lemma inherited_room_id_is_never_registered_witness :
  inherited "constructor" = true
  ∧ onMessage 3
      (Json (typed "joinRoom"
               (withPeer "p3" None (withRoom "constructor" noFields))))
      Resolves (stateAfter twoPeers)
    = (stateAfter twoPeers,
       [Send 3 (ErrorFrame None
                  "Cannot set properties of undefined (setting 'p3')")]).
Proof.
  split; [reflexivity|].
  exact (proj2 (proj2
           (inherited_room_id_is_never_registered twoPeers 3
              (withPeer "p3" None (withRoom "constructor" noFields))
              Resolves eq_refl))).
Defined.

(** * Properties of the client's request hook *)

Lemma notification_reqId f : isNotification f = true → frameReqId f = None.
Proof. by destruct f. Qed.

Lemma clientOnMessage_notification f h :
  isNotification f = true → (clientOnMessage (Some f) h).1 = h.
Proof. intros Hf. simpl. by rewrite (notification_reqId f Hf). Qed.

Lemma receive_cons f frames h :
  receive (f :: frames) h = receive frames (clientOnMessage (Some f) h).1.
Proof. done. Qed.

Lemma receive_responses ws out h :
  receive (framesFor ws out) h = receive (framesFor ws (responsesOf out)) h.
Proof.
  revert h. induction out as [|[ws' f|c] out IH]; intros h; simpl; [done| |done].
  destruct (isNotification f) eqn:Hf; simpl.
  - destruct (decide (ws' = ws)); simpl; [|done].
    by rewrite receive_cons, clientOnMessage_notification.
  - destruct (decide (ws' = ws)); simpl; [|done].
    by rewrite !receive_cons, IH.
Qed.

Lemma settle_length p v ps : length (settle p v ps) = length ps.
Proof.
  unfold settle. destruct (ps !! p) as [[]|]; try done. apply length_insert.
Qed.

Lemma settle_lookup_eq p v ps :
  ps !! p = Some Unsettled → settle p v ps !! p = Some v.
Proof.
  intros Hp. unfold settle. rewrite Hp.
  apply list_lookup_insert_eq. by eapply lookup_lt_Some.
Qed.

Lemma settle_lookup_ne p q v ps : p ≠ q → settle p v ps !! q = ps !! q.
Proof.
  intros Hne. unfold settle. destruct (ps !! p) as [[]|]; try done.
  by apply list_lookup_insert_ne.
Qed.

Lemma settle_settled p v ps : ps !! p ≠ Some Unsettled → settle p v ps = ps.
Proof. intros Hp. unfold settle. by destruct (ps !! p) as [[]|]. Qed.

Lemma settle_unsettled p q v ps :
  v ≠ Unsettled → settle p v ps !! q = Some Unsettled →
  p ≠ q ∧ ps !! q = Some Unsettled.
Proof.
  intros Hv Hq. destruct (decide (p = q)) as [->|Hne].
  - destruct (ps !! q) as [[]|] eqn:Hu.
    + rewrite settle_lookup_eq in Hq by done. congruence.
    + rewrite settle_settled in Hq by congruence. congruence.
    + rewrite settle_settled in Hq by congruence. congruence.
    + rewrite settle_settled in Hq by congruence. congruence.
  - by rewrite settle_lookup_ne in Hq.
Qed.

(** X22.  Any frame that carries the [reqId] of a pending request fulfils
    the promise of that request with the frame, an error frame as much as a
    response; the request is pending no longer, so that its timeout and any
    later frame with that [reqId] change nothing. *)
Theorem any_answer_fulfils_the_promise (h : Hook) (r : string) (p : nat)
    (f : OutFrame) :
  pending h !! r = Some p →
  promises h !! p = Some Unsettled →
  truthy r = true →
  frameReqId f = Some r →
  let h' := (clientOnMessage (Some f) h).1 in
  promises h' !! p = Some (Fulfilled f)
  ∧ pending h' = delete r (pending h)
  ∧ onTimeout r p h' = h'
  ∧ ∀ f', frameReqId f' = Some r → (clientOnMessage (Some f') h').1 = h'.
Proof.
  intros Hp Hu Ht Hf h'. subst h'. simpl. rewrite Hf, Ht, Hp.
  split; [by apply settle_lookup_eq|]. split; [done|]. split.
  - unfold onTimeout. simpl. by rewrite lookup_delete_eq.
  - intros f' Hf'. simpl. by rewrite Hf', Ht, lookup_delete_eq.
Qed.

(** X22, witness: the server refuses the [produce] request [7]. *)
Lemma any_answer_fulfils_the_promise_witness :
  promises (clientOnMessage
              (Some (ErrorFrame (Some "7") "Peer or transport not found"))
              (sendRequest "produce" noFields "7" idle).1).1 !! 0%nat
  = Some (Fulfilled (ErrorFrame (Some "7") "Peer or transport not found")).
Proof.
  exact (proj1 (any_answer_fulfils_the_promise
                  (sendRequest "produce" noFields "7" idle).1 "7" 0
                  (ErrorFrame (Some "7") "Peer or transport not found")
                  eq_refl eq_refl eq_refl eq_refl)).
Defined.

Lemma sendRequest_ready type payload r h :
  socket h = Some 1 →
  sendRequest type payload r h
  = ({| socket := socket h;
        pending := <[r := length (promises h)]> (pending h);
        eventHandlers := eventHandlers h;
        promises := promises h ++ [Unsettled];
        timers := timers h ++ [(r, length (promises h))] |},
     [SocketSend (message type payload r)]).
Proof.
  intros Hs. unfold sendRequest, socketReady.
  by rewrite bool_decide_eq_true_2.
Qed.

Lemma receive_round_trip ws d w s h :
  ∃ f, responsesOf (onMessage ws (Json d) w s).2 = [Send ws f]
       ∧ frameReqId f = d_reqId d
       ∧ receive (framesFor ws (onMessage ws (Json d) w s).2) h
         = (clientOnMessage (Some f) h).1.
Proof.
  destruct (response_shape ws d w s) as (f & Hresp & Hid & _).
  exists f. split; [done|]. split; [done|].
  rewrite receive_responses, Hresp. simpl.
  by rewrite decide_True.
Qed.

Lemma responsesOf_sub e out : In e (responsesOf out) → In e out.
Proof.
  induction out as [|[ws f|c] out IH]; simpl; [done| |by right; apply IH].
  destruct (isNotification f); [by right; apply IH|].
  intros [<-|Hin]; [by left|by right; apply IH].
Qed.

(** X23.  A request made through an open socket with a non-empty [reqId]:
    whatever the request, the state of the server and the outcome of the
    worker calls, the frames with which the server answers it hold one frame
    that echoes the [reqId].  If these frames reach the hook before the
    timeout of the request fires, the promise of [sendRequest] is fulfilled
    with that frame and [pending] is left without the [reqId], so that the
    timeout then does nothing.  If the timeout fires first, it rejects the
    promise, and the frames, when they come, change nothing: the answer of
    the server is dropped. *)
Theorem request_round_trip (type : string) (payload : Data) (r : string)
    (h : Hook) (ws : nat) (w : WorkerResult) (s : State) :
  socket h = Some 1 →
  truthy r = true →
  let sent := sendRequest type payload r h in
  let p := length (promises h) in
  let answer := onMessage ws (Json (message type payload r)) w s in
  let intime := receive (framesFor ws answer.2) sent.1 in
  let late := onTimeout r p sent.1 in
  sent.2 = [SocketSend (message type payload r)]
  ∧ ∃ f, In (Send ws f) answer.2
         ∧ frameReqId f = Some r
         ∧ promises intime !! p = Some (Fulfilled f)
         ∧ pending intime = delete r (pending h)
         ∧ onTimeout r p intime = intime
         ∧ promises late !! p = Some (Rejected "Timeout waiting for response")
         ∧ receive (framesFor ws answer.2) late = late.
Proof.
  intros Hs Ht sent p answer intime late. subst sent answer intime late.
  rewrite (sendRequest_ready _ _ _ _ Hs). cbn [fst snd]. split; [done|].
  set (h1 := {| socket := socket h;
                pending := <[r := length (promises h)]> (pending h);
                eventHandlers := eventHandlers h;
                promises := promises h ++ [Unsettled];
                timers := timers h ++ [(r, length (promises h))] |}).
  destruct (receive_round_trip ws (message type payload r) w s h1)
    as (f & Hresp & Hid & Hin).
  destruct (receive_round_trip ws (message type payload r) w s
              (onTimeout r p h1)) as (f' & Hresp' & _ & Hlate).
  assert (f' = f) as -> by congruence.
  rewrite Hin, Hlate. clear Hin Hlate.
  exists f. split.
  { apply responsesOf_sub. rewrite Hresp. by left. }
  split; [done|]. simpl in Hid.
  assert (Hp : promises h1 !! p = Some Unsettled)
    by (by apply list_lookup_middle).
  unfold onTimeout. subst h1. simpl.
  rewrite Hid, Ht, !lookup_insert_eq. simpl.
  rewrite !lookup_delete_eq. simpl.
  split; [by apply settle_lookup_eq|].
  split; [by rewrite delete_insert_eq|].
  split; [done|].
  split; [by apply settle_lookup_eq|done].
Qed.

(** X23, witness: the first peer joins room [R] of a fresh server. *)
Lemma request_round_trip_witness :
  ∃ f, In (Send 1 f)
         (onMessage 1
            (Json (message "joinRoom"
                     (withPeer "p1" (Some "A") (withRoom "R" noFields)) "1"))
            Resolves initialState).2
       ∧ frameReqId f = Some "1"
       ∧ promises
           (receive
              (framesFor 1
                 (onMessage 1
                    (Json (message "joinRoom"
                             (withPeer "p1" (Some "A") (withRoom "R" noFields))
                             "1"))
                    Resolves initialState).2)
              (sendRequest "joinRoom"
                 (withPeer "p1" (Some "A") (withRoom "R" noFields)) "1"
                 idle).1) !! 0%nat
         = Some (Fulfilled f).
Proof.
  destruct (request_round_trip "joinRoom"
              (withPeer "p1" (Some "A") (withRoom "R" noFields)) "1" idle
              1 Resolves initialState eq_refl eq_refl)
    as (_ & f & Hin & Hid & Hp & _).
  exists f. split; [exact Hin|]. split; [exact Hid|exact Hp].
Defined.

(** X24.  When [Math.random] gives an empty [reqId], the answer of the
    server echoes it but the hook does not match it: after the frames of
    the server the promise is still unsettled and the request still pending,
    and it is the timeout that rejects the promise. *)
Theorem empty_reqId_is_left_to_time_out (type : string) (payload : Data)
    (r : string) (h : Hook) (ws : nat) (w : WorkerResult) (s : State) :
  socket h = Some 1 →
  truthy r = false →
  let sent := sendRequest type payload r h in
  let answer := onMessage ws (Json (message type payload r)) w s in
  let h' := receive (framesFor ws answer.2) sent.1 in
  (∃ f, In (Send ws f) answer.2 ∧ frameReqId f = Some r)
  ∧ h' = sent.1
  ∧ promises h' !! length (promises h) = Some Unsettled
  ∧ promises (onTimeout r (length (promises h)) h') !! length (promises h)
    = Some (Rejected "Timeout waiting for response").
Proof.
  intros Hs Ht sent answer h'. subst sent answer h'.
  rewrite (sendRequest_ready _ _ _ _ Hs). cbn [fst snd].
  destruct (receive_round_trip ws (message type payload r) w s
              {| socket := socket h;
                 pending := <[r := length (promises h)]> (pending h);
                 eventHandlers := eventHandlers h;
                 promises := promises h ++ [Unsettled];
                 timers := timers h ++ [(r, length (promises h))] |})
    as (f & Hresp & Hid & ->).
  simpl in Hid. split.
  { exists f. split; [|done]. apply responsesOf_sub. rewrite Hresp. by left. }
  simpl. rewrite Hid, Ht. split; [done|]. simpl.
  split; [by apply list_lookup_middle|].
  unfold onTimeout. simpl. rewrite lookup_insert_eq. simpl.
  apply settle_lookup_eq. by apply list_lookup_middle.
Qed.

(** X24, witness: a [createRoom] request with the empty [reqId]. *)
Lemma empty_reqId_is_left_to_time_out_witness :
  promises
    (receive
       (framesFor 1
          (onMessage 1
             (Json (message "createRoom" (withRoom "R" noFields) EmptyString))
             Resolves initialState).2)
       (sendRequest "createRoom" (withRoom "R" noFields) EmptyString idle).1)
    !! 0%nat
  = Some Unsettled.
Proof.
  exact (proj1 (proj2 (proj2
           (empty_reqId_is_left_to_time_out "createRoom"
              (withRoom "R" noFields) EmptyString idle 1 Resolves
              initialState eq_refl eq_refl)))).
Defined.

(** X25.  [setProducerMuted] on a connected client sends one
    [setProducerMuted] request; the server answers it with [pong], changes
    nothing and calls nothing, and the promise is fulfilled with that
    [pong].  Without a socket or when not connected nothing is sent. *)
Theorem setProducerMuted_is_fulfilled_with_pong (producerId : nat)
    (muted : bool) (r : string) (h : Hook) (ws : nat) (w : WorkerResult)
    (s : State) :
  socket h = Some 1 →
  truthy r = true →
  let sent := setProducerMuted producerId muted true r h in
  let m := message "setProducerMuted"
             (withMuted (Some muted) (withProducer producerId noFields)) r in
  sent.2 = [SocketSend m]
  ∧ onMessage ws (Json m) w s = (s, [Send ws (Pong (Some r))])
  ∧ promises (receive [Pong (Some r)] sent.1) !! length (promises h)
    = Some (Fulfilled (Pong (Some r)))
  ∧ setProducerMuted producerId muted false r h = (h, []).
Proof.
  intros Hs Ht sent m. subst sent m. unfold setProducerMuted.
  rewrite Hs. simpl. rewrite (sendRequest_ready _ _ _ _ Hs). simpl.
  split; [done|]. split; [done|]. split; [|done].
  unfold receive. simpl. rewrite Ht, lookup_insert_eq. simpl.
  apply settle_lookup_eq. by apply list_lookup_middle.
Qed.

(** X25, witness: the client mutes producer 4. *)
Lemma setProducerMuted_is_fulfilled_with_pong_witness :
  promises (receive [Pong (Some "8")]
              (setProducerMuted 4 true true "8" idle).1) !! 0%nat
  = Some (Fulfilled (Pong (Some "8"))).
Proof.
  exact (proj1 (proj2 (proj2
           (setProducerMuted_is_fulfilled_with_pong 4 true "8" idle 1
              Resolves initialState eq_refl eq_refl)))).
Defined.

(** ** Every request is settled *)

Lemma hookInv_initial readyState : hookInv (initialHook readyState).
Proof.
  unfold hookInv, initialHook; simpl. repeat split.
  - intros p Hp. by rewrite lookup_nil in Hp.
  - intros r p p' Hin. by apply elem_of_nil in Hin.
  - intros r p Hin. by apply elem_of_nil in Hin.
  - intros r p Hp. by rewrite lookup_empty in Hp.
Qed.

Lemma hookInv_sendRequest type payload r h :
  r ∉ (timers h).*1 → hookInv h → hookInv (sendRequest type payload r h).1.
Proof.
  intros Hfresh (Hu & Hids & Hlt & Hpend).
  assert (Hnew : ∀ p, (r, p) ∉ timers h).
  { intros p Hin. apply Hfresh. apply list_elem_of_fmap. by exists (r, p). }
  unfold sendRequest. destruct (socketReady h); simpl;
    (split; [|split; [|split]]); simpl.
  - intros p Hp. destruct (decide (p < length (promises h))%nat) as [Hl|Hl].
    + rewrite lookup_app_l in Hp by done.
      destruct (Hu p Hp) as (r' & Hin & Hr'). exists r'.
      split; [apply elem_of_app; by left|].
      rewrite lookup_insert_ne; [done|]. intros <-. by apply (Hnew p).
    + exists r. apply lookup_lt_Some in Hp. rewrite length_app in Hp.
      simpl in Hp. assert (p = length (promises h)) as -> by lia.
      split; [apply elem_of_app; right; by apply list_elem_of_singleton|].
      apply lookup_insert_eq.
  - intros r0 p p' [Hin|Hin%list_elem_of_singleton]%elem_of_app
                   [Hin'|Hin'%list_elem_of_singleton]%elem_of_app.
    + by eapply Hids.
    + injection Hin' as -> ->. by destruct (Hnew p).
    + injection Hin as -> ->. by destruct (Hnew p').
    + congruence.
  - intros r0 p [Hin|Hin%list_elem_of_singleton]%elem_of_app;
      rewrite length_app; simpl.
    + specialize (Hlt _ _ Hin). lia.
    + injection Hin as -> ->. lia.
  - intros r0 p. rewrite lookup_insert. case_decide as Heq.
    + intros [= <-]. subst r0. apply elem_of_app. right.
      by apply list_elem_of_singleton.
    + intros Hp. apply elem_of_app. left. by apply Hpend.
  - intros p Hp. destruct (decide (p < length (promises h))%nat) as [Hl|Hl].
    + rewrite lookup_app_l in Hp by done. by apply Hu.
    + apply lookup_lt_Some in Hp as Hlen. rewrite length_app in Hlen.
      simpl in Hlen. assert (p = length (promises h)) as -> by lia.
      by rewrite list_lookup_middle in Hp.
  - done.
  - intros r0 p Hin. rewrite length_app. simpl. specialize (Hlt _ _ Hin). lia.
  - done.
Qed.

Lemma hookInv_onMessage frame h :
  hookInv h → hookInv (clientOnMessage frame h).1.
Proof.
  intros Hinv. destruct frame as [f|]; [|done]. simpl.
  destruct (frameReqId f) as [r|]; [|done].
  destruct (truthy r); [|done].
  destruct (pending h !! r) as [p|] eqn:Hp; [|done].
  destruct Hinv as (Hu & Hids & Hlt & Hpend).
  split; [|split; [|split]]; simpl.
  - intros q Hq. apply settle_unsettled in Hq as [Hne Hq]; [|done].
    destruct (Hu q Hq) as (r' & Hin & Hr'). exists r'. split; [done|].
    rewrite lookup_delete_ne; [done|]. intros <-. congruence.
  - done.
  - intros r0 q Hin. rewrite settle_length. by eapply Hlt.
  - intros r0 q. rewrite lookup_delete. case_decide; [done|]. apply Hpend.
Qed.

Lemma hookInv_timer r p h :
  (r, p) ∈ timers h → hookInv h → hookInv (onTimeout r p (dropTimer r p h)).
Proof.
  intros Hin (Hu & Hids & Hlt & Hpend). unfold onTimeout. simpl.
  destruct (pending h !! r) as [p'|] eqn:Hp.
  - assert (p' = p) as -> by (eapply Hids; [by apply Hpend|done]).
    split; [|split; [|split]]; simpl.
    + intros q Hq. apply settle_unsettled in Hq as [Hne Hq]; [|done].
      destruct (Hu q Hq) as (r' & Hin' & Hr'). exists r'. split.
      * apply list_elem_of_filter. split; [congruence|done].
      * rewrite lookup_delete_ne; [done|]. intros <-. congruence.
    + intros r0 q q' [_ H1]%list_elem_of_filter [_ H2]%list_elem_of_filter.
      by eapply Hids.
    + intros r0 q [_ H1]%list_elem_of_filter. rewrite settle_length.
      by eapply Hlt.
    + intros r0 q. rewrite lookup_delete. case_decide as Heq; [done|].
      intros Hq. apply list_elem_of_filter. split; [congruence|by apply Hpend].
  - split; [|split; [|split]]; simpl.
    + intros q Hq. destruct (Hu q Hq) as (r' & Hin' & Hr'). exists r'.
      split; [|done]. apply list_elem_of_filter. split; [congruence|done].
    + intros r0 q q' [_ H1]%list_elem_of_filter [_ H2]%list_elem_of_filter.
      by eapply Hids.
    + intros r0 q [_ H1]%list_elem_of_filter. by eapply Hlt.
    + intros r0 q Hq. apply list_elem_of_filter.
      split; [congruence|by apply Hpend].
Qed.

Lemma hookInv_step e h :
  freshIds [e] h = true → hookInv h → hookInv (clientStep e h).1.
Proof.
  intros Hfresh Hinv.
  destruct e as [type payload r|type handler|type|frame|r p|readyState]; simpl.
  - simpl in Hfresh. rewrite andb_true_r in Hfresh.
    apply bool_decide_eq_true in Hfresh. by apply hookInv_sendRequest.
  - exact Hinv.
  - exact Hinv.
  - by apply hookInv_onMessage.
  - case_bool_decide as Hin; [|done]. by apply hookInv_timer.
  - exact Hinv.
Qed.

Lemma hookInv_run es h :
  freshIds es h = true → hookInv h → hookInv (hookAfter es h).
Proof.
  revert h. induction es as [|e es IH]; intros h Hfresh Hinv; [done|].
  simpl in Hfresh. apply andb_prop in Hfresh as [He Hes].
  simpl. apply IH; [done|]. apply hookInv_step; [|done].
  simpl. by rewrite He.
Qed.

(** X26.  As long as no [sendRequest] draws the [reqId] of a request whose
    timer is still set, a promise of [sendRequest] is unsettled only while
    its request is pending and its timer is set: once the timer has fired,
    the promise is fulfilled or rejected. *)
Theorem unsettled_promise_awaits_its_timer (es : list ClientEvent)
    (readyState : option nat) (p : nat) :
  freshIds es (initialHook readyState) = true →
  let h := hookAfter es (initialHook readyState) in
  promises h !! p = Some Unsettled →
  ∃ r, (r, p) ∈ timers h ∧ pending h !! r = Some p.
Proof.
  intros Hfresh h Hp.
  destruct (hookInv_run es _ Hfresh (hookInv_initial readyState)) as [Hu _].
  by apply Hu.
Qed.

(** X26, witness: a request that has just been sent. *)
Lemma unsettled_promise_awaits_its_timer_witness :
  freshIds [CallSendRequest "createRoom" (withRoom "R" noFields) "a"]
    (initialHook (Some 1)) = true
  ∧ promises (hookAfter [CallSendRequest "createRoom" (withRoom "R" noFields) "a"]
                (initialHook (Some 1))) !! 0%nat = Some Unsettled
  ∧ ∃ r, (r, 0%nat)
           ∈ timers (hookAfter
                       [CallSendRequest "createRoom" (withRoom "R" noFields) "a"]
                       (initialHook (Some 1)))
         ∧ pending (hookAfter
                      [CallSendRequest "createRoom" (withRoom "R" noFields) "a"]
                      (initialHook (Some 1))) !! r = Some 0%nat.
Proof.
  split; [reflexivity|]. split; [reflexivity|].
  exact (unsettled_promise_awaits_its_timer
           [CallSendRequest "createRoom" (withRoom "R" noFields) "a"]
           (Some 1) 0 eq_refl eq_refl).
Defined.

Lemma timerFires_not_pending r p h :
  pending h !! r = None →
  let h' := (clientStep (TimerFires r p) h).1 in
  promises h' = promises h ∧ pending h' = pending h
  ∧ ((r, p) ∉ timers h')
  ∧ ∀ t, t ∉ timers h → t ∉ timers h'.
Proof.
  intros Hp. simpl. case_bool_decide as Hin; simpl.
  - unfold onTimeout. simpl. rewrite Hp. simpl.
    split; [done|]. split; [done|]. split.
    + by intros [? _]%list_elem_of_filter.
    + by intros t Ht [_ ?]%list_elem_of_filter.
  - done.
Qed.

(** X27.  Nothing keeps [sendRequest] from drawing a [reqId] again.  When
    two requests go out with the same [reqId], the first frame that echoes
    it fulfils the promise of the second request, the second frame fulfils
    nothing, and the promise of the first request is still unsettled when
    both timers have fired. *)
Theorem repeated_reqId_starves_first_request (type1 type2 : string)
    (payload1 payload2 : Data) (r : string) (f1 f2 : OutFrame) (h : Hook) :
  socket h = Some 1 →
  truthy r = true →
  frameReqId f1 = Some r →
  frameReqId f2 = Some r →
  let p1 := length (promises h) in
  let p2 := S p1 in
  let h' := hookAfter [CallSendRequest type1 payload1 r;
                       CallSendRequest type2 payload2 r;
                       Message (Some f1); Message (Some f2);
                       TimerFires r p1; TimerFires r p2] h in
  promises h' !! p1 = Some Unsettled
  ∧ promises h' !! p2 = Some (Fulfilled f1)
  ∧ pending h' !! r = None
  ∧ ((r, p1) ∉ timers h') ∧ ((r, p2) ∉ timers h').
Proof.
  intros Hs Ht Hf1 Hf2 p1 p2 h'.
  set (h4 := hookAfter [CallSendRequest type1 payload1 r;
                        CallSendRequest type2 payload2 r;
                        Message (Some f1); Message (Some f2)] h).
  assert (H4 : promises h4 !! p1 = Some Unsettled
               ∧ promises h4 !! p2 = Some (Fulfilled f1)
               ∧ pending h4 !! r = None).
  { subst h4. unfold hookAfter, clientStep.
    rewrite (sendRequest_ready _ _ _ _ Hs). cbn [fst].
    rewrite sendRequest_ready by done.
    cbn [fst promises pending timers socket eventHandlers].
    rewrite length_app. simpl length.
    replace (length (promises h) + 1)%nat with p2 by (subst p2 p1; lia).
    fold p1. simpl clientOnMessage. rewrite Hf1, Hf2, Ht. cbn [fst pending].
    rewrite lookup_insert_eq. cbn [fst pending]. rewrite lookup_delete_eq.
    cbn [fst pending promises].
    assert (H2 : ((promises h ++ [Unsettled]) ++ [Unsettled]) !! p2
                 = Some Unsettled).
    { apply list_lookup_middle. rewrite length_app. simpl. subst p2 p1. lia. }
    split; [|split; [by apply settle_lookup_eq|apply lookup_delete_eq]].
    rewrite settle_lookup_ne by (subst p2; lia).
    rewrite lookup_app_l by (rewrite length_app; simpl; subst p1; lia).
    by apply list_lookup_middle. }
  destruct H4 as (Hp1 & Hp2 & Hr).
  change h' with (clientStep (TimerFires r p2)
                    (clientStep (TimerFires r p1) h4).1).1.
  destruct (timerFires_not_pending r p1 h4 Hr) as (Hpr1 & Hpe1 & Ht1 & _).
  destruct (timerFires_not_pending r p2 (clientStep (TimerFires r p1) h4).1)
    as (Hpr2 & Hpe2 & Ht2 & Hsub); [by rewrite Hpe1|].
  rewrite Hpr2, Hpr1, Hpe2, Hpe1. repeat split; try done. by apply Hsub.
Qed.

(** X27, witness: [createRoom] and [joinRoom] go out with the same id; the
    answer to [createRoom] is taken for the answer to [joinRoom]. *)
Lemma repeated_reqId_starves_first_request_witness :
  promises
    (hookAfter [CallSendRequest "createRoom" (withRoom "R" noFields) "a";
                CallSendRequest "joinRoom" (withRoom "R" noFields) "a";
                Message (Some (CreateRoomResponse (Some "a")));
                Message (Some (JoinRoomResponse (Some "a") 0 [] []));
                TimerFires "a" 0; TimerFires "a" 1] idle) !! 1%nat
  = Some (Fulfilled (CreateRoomResponse (Some "a"))).
Proof.
  exact (proj1 (proj2
           (repeated_reqId_starves_first_request "createRoom" "joinRoom"
              (withRoom "R" noFields) (withRoom "R" noFields) "a"
              (CreateRoomResponse (Some "a"))
              (JoinRoomResponse (Some "a") 0 [] []) idle
              eq_refl eq_refl eq_refl eq_refl))).
Defined.
